(** * zfp_make_test_data: volume acquisition and compressed-stream packaging

    A shallow embedding of [zfp_make_test_data.cpp]: the raw-volume loader
    ([read_raw_volume]), the procedural field generators
    ([generate_volume]) and the orchestration in [main], followed by the
    properties of the specification that were checked against them.

    Conventions of the embedding:
    - [float] values are IEEE-754 binary32, as [SpecFloat.spec_float] at
      precision 24 and maximal exponent 128, with round-to-nearest-even;
    - [unsigned], [int] and [size_t] values are [Z], with the wrap-around of
      the 32 and 64 bit types written out where the source computes;
    - [std::vector] is a [list]; an access outside of the vector is undefined
      behaviour and is the outcome [Undefined];
    - an exception that nothing catches is the outcome [Throw];
    - what the program prints, the files it touches and the calls it makes
      to the codec are recorded, in order, as a list of [event]s. *)

From stdpp Require Import base list strings pretty.
From Stdlib Require Import ZArith QArith Lia SpecFloat Ascii Strings.Byte.

Open Scope Z_scope.

(** ** IEEE-754 binary32 *)

Module F32.

Definition prec : Z := 24.
Definition emax : Z := 128.

Definition float : Type := spec_float.

Definition zero : float := S754_zero false.

(** [x] is a number of the format: its mantissa and exponent are the
    canonical ones. *)
Definition valid (x : float) : Prop := valid_binary prec emax x = true.

(** Conversion of an integer to [float] (round to nearest, ties to even). *)
Definition of_Z (z : Z) : float := binary_normalize prec emax z 0 false.

Definition one : float := of_Z 1.
Definition two : float := of_Z 2.
Definition three : float := of_Z 3.

Definition add : float -> float -> float := SFadd prec emax.
Definition sub : float -> float -> float := SFsub prec emax.
Definition mul : float -> float -> float := SFmul prec emax.
Definition div : float -> float -> float := SFdiv prec emax.
Definition sqrt : float -> float := SFsqrt prec emax.

(** The comparison [a != b] of C++: true on unordered operands. *)
Definition neq (a b : float) : bool := negb (SFeqb a b).

(** The real number a float stands for; [None] for infinities and NaN. *)
Definition value (x : float) : option Q :=
  match x with
  | S754_zero _ => Some 0%Q
  | S754_finite s m e =>
      let n := if s then Z.neg m else Z.pos m in
      Some (if 0 <=? e then inject_Z (n * 2 ^ e)
            else Qmake n (Z.to_pos (2 ^ (- e))))
  | _ => None
  end.

(** [x] stands for the real number [q]. *)
Definition represents (x : float) (q : Q) : Prop :=
  exists q', value x = Some q' /\ Qeq q' q.


(** Renormalisation of [m * 2^e] when [m] has reached [2^prec]. *)
Definition carry (s : bool) (m : Z) (e : Z) : float :=
  if 2 ^ prec <=? m
  then S754_finite s (Z.to_pos (m / 2)) (e + 1)
  else S754_finite s (Z.to_pos m) e.

(** [std::floor] on the representation: the fractional bits of the
    mantissa are cleared, and a negative number with a fraction moves one
    unit further from zero. *)
Definition floor (x : float) : float :=
  match x with
  | S754_finite s m e =>
      if 0 <=? e then x
      else
        let k := - e in
        let q := Z.pos m / 2 ^ k in
        if Z.pos m mod 2 ^ k =? 0 then x
        else if s then
          (if q =? 0 then S754_finite true (Z.to_pos (2 ^ (prec - 1))) (1 - prec)
           else carry true ((q + 1) * 2 ^ k) e)
        else
          (if q =? 0 then S754_zero false
           else S754_finite false (Z.to_pos (q * 2 ^ k)) e)
  | _ => x
  end.

(** The integer part of [x], for the conversion [int(x)]; [None] where
    the conversion is undefined (NaN, infinities). *)
Definition trunc (x : float) : option Z :=
  match x with
  | S754_zero _ => Some 0
  | S754_finite s m e =>
      let a := if 0 <=? e then Z.pos m * 2 ^ e else Z.pos m / 2 ^ (- e) in
      Some (if s then - a else a)
  | _ => None
  end.

(** The float a 32-bit pattern denotes. *)
Definition of_bits (w : Z) : float :=
  let s := Z.testbit w 31 in
  let e := Z.land (Z.shiftr w 23) 255 in
  let m := Z.land w (2 ^ 23 - 1) in
  if e =? 0 then
    (if m =? 0 then S754_zero s else S754_finite s (Z.to_pos m) (-149))
  else if e =? 255 then
    (if m =? 0 then S754_infinity s else S754_nan)
  else S754_finite s (Z.to_pos (m + 2 ^ 23)) (e - 150).

(** The 32-bit pattern of a float; NaN is the default quiet NaN. *)
Definition to_bits (x : float) : Z :=
  let sign (s : bool) := if s then 2 ^ 31 else 0 in
  match x with
  | S754_zero s => sign s
  | S754_infinity s => sign s + 255 * 2 ^ 23
  | S754_nan => 255 * 2 ^ 23 + 2 ^ 22
  | S754_finite s m e =>
      if Z.pos m <? 2 ^ 23 then sign s + Z.pos m
      else sign s + (e + 150) * 2 ^ 23 + (Z.pos m - 2 ^ 23)
  end.

End F32.

Abbreviation float := F32.float.

(** The exponent of the format for a number of magnitude [2^x]. *)
Abbreviation fexp32 := (fexp F32.prec F32.emax).

(** ** Machine integers *)

Definition INT_MAX : Z := 2 ^ 31 - 1.
Definition INT_MIN : Z := - 2 ^ 31.
Definition UINT_MOD : Z := 2 ^ 32.
Definition SIZE_MOD : Z := 2 ^ 64.

(** Arithmetic on [size_t]. *)
Definition size_add (a b : Z) : Z := (a + b) mod SIZE_MOD.
Definition size_mul (a b : Z) : Z := (a * b) mod SIZE_MOD.

(** [glm::uvec3]: three [unsigned] components. *)
Record uvec3 : Type := Uvec3 { ux : Z; uy : Z; uz : Z }.

(** [glm::vec3]: three [float] components. *)
Record vec3 : Type := Vec3 { fx : float; fy : float; fz : float }.

(** ** Outcomes and traces *)

Inductive exn : Type :=
| invalid_argument
| out_of_range.

Inductive outcome (A : Type) : Type :=
| Ret (a : A)
| Throw (e : exn)
| Undefined.

Arguments Ret {A} a.
Arguments Throw {A} e.
Arguments Undefined {A}.

Definition obind {A B : Type} (m : outcome A) (f : A -> outcome B) : outcome B :=
  match m with
  | Ret a => f a
  | Throw e => Throw e
  | Undefined => Undefined
  end.

(** What is written to [std::cout] and [std::cerr]. *)
Inductive message : Type :=
| MsgUsage
| MsgUnrecognizedArgument (arg : string)
| MsgModeRequired
| MsgOnlyOneMode
| MsgDimsRequired
| MsgFailedToReadRaw (name : string)
| MsgFailedToGenerate
| MsgUncompressedSize (bytes : Z)
| MsgUsedRate (rate : float)
| MsgNonIntegerRate
| MsgCompressedSize (bytes : Z)
| MsgNamingScheme (name : string)
| MsgGenerating (what : string) (dims : uvec3)
| MsgUnrecognizedMode (name : string).

Inductive event : Type :=
| Cout (m : message)
| Cerr (m : message)
| FileOpen (name : string)
| FileRead (name : string) (count : Z)
| CodecSetRate (rate : Z)
| CodecCompress (dims : uvec3) (data : list float)
| FileCreate (name : string)
| FileWrite (name : string) (payload : list byte).

#[global] Instance outcome_ret : MRet outcome := @Ret.
#[global] Instance outcome_bind : MBind outcome := fun A B f m => obind m f.

(** A computation: the events so far and how it ended. *)
Definition M (A : Type) : Type := list event * outcome A.

Definition prog_bind {A B : Type} (m : M A) (f : A -> M B) : M B :=
  match m with
  | (t, Ret a) => let (t', r) := f a in (t ++ t', r)
  | (t, Throw e) => (t, Throw e)
  | (t, Undefined) => (t, Undefined)
  end.

#[global] Instance prog_ret : MRet M := fun A a => ([], Ret a).
#[global] Instance prog_mbind : MBind M := fun A B f m => prog_bind m f.

Definition emit (e : event) : M unit := ([e], Ret tt).

Definition lift {A : Type} (o : outcome A) : M A := ([], o).

(** The events of a computation, and how it ended. *)
Definition trace {A : Type} (m : M A) : list event := fst m.
Definition result {A : Type} (m : M A) : outcome A := snd m.

(** ** [std::vector] and loops *)

(** [v.resize(n, x)]. *)
Definition vec_resize {A : Type} (n : Z) (x : A) (v : list A) : list A :=
  resize (Z.to_nat n) x v.

(** [v[i] = x]; undefined outside of the vector. *)
Definition vec_store {A : Type} (i : Z) (x : A) (v : list A) : outcome (list A) :=
  if bool_decide (0 <= i < Z.of_nat (length v))
  then Ret (<[Z.to_nat i := x]> v)
  else Undefined.

(** [v[i]]; undefined outside of the vector. *)
Definition vec_load {A : Type} (i : Z) (v : list A) : outcome A :=
  if bool_decide (0 <= i)
  then match v !! Z.to_nat i with
       | Some x => Ret x
       | None => Undefined
       end
  else Undefined.

(** [for (size_t i = 0; i < n; ++i) body], threading the state [s]. *)
Definition for_loop {S : Type} (n : Z) (body : Z -> S -> outcome S) (s : S)
  : outcome S :=
  fold_left (fun acc i => s' ← acc; body (Z.of_nat i) s')
            (seq 0 (Z.to_nat n)) (Ret s).

(** ** The part of glm the program uses *)

Definition vec3_of_uvec3 (d : uvec3) : vec3 :=
  Vec3 (F32.of_Z (ux d)) (F32.of_Z (uy d)) (F32.of_Z (uz d)).

(** [glm::vec3(x, y, z)] of three [size_t]. *)
Definition vec3_of_size (x y z : Z) : vec3 :=
  Vec3 (F32.of_Z x) (F32.of_Z y) (F32.of_Z z).

Definition vec3_splat (a : float) : vec3 := Vec3 a a a.

Definition vec3_sub (a b : vec3) : vec3 :=
  Vec3 (F32.sub (fx a) (fx b)) (F32.sub (fy a) (fy b)) (F32.sub (fz a) (fz b)).

Definition vec3_mul (a b : vec3) : vec3 :=
  Vec3 (F32.mul (fx a) (fx b)) (F32.mul (fy a) (fy b)) (F32.mul (fz a) (fz b)).

Definition vec3_div (a b : vec3) : vec3 :=
  Vec3 (F32.div (fx a) (fx b)) (F32.div (fy a) (fy b)) (F32.div (fz a) (fz b)).

Definition vec3_scale (k : float) (a : vec3) : vec3 :=
  Vec3 (F32.mul k (fx a)) (F32.mul k (fy a)) (F32.mul k (fz a)).

(** [glm::dot]: the products are summed from the left. *)
Definition glm_dot (a b : vec3) : float :=
  let t := vec3_mul a b in F32.add (F32.add (fx t) (fy t)) (fz t).

(** [glm::length]: the Euclidean norm. *)
Definition glm_length (a : vec3) : float := F32.sqrt (glm_dot a a).

(** ** [generate_volume] *)

(** The linear index [x + gen_dims.x * (y + gen_dims.y * z)], in [size_t]. *)
Definition voxel_index (gen_dims : uvec3) (x y z : Z) : Z :=
  size_add x (size_mul (ux gen_dims) (size_add y (size_mul (uy gen_dims) z))).

(** The loop nest every generator runs: [z] outermost, [x] innermost, one
    store per voxel. *)
Definition fill_voxels (gen_dims : uvec3) (field : Z -> Z -> Z -> float)
    (data : list float) : outcome (list float) :=
  for_loop (uz gen_dims) (fun z data =>
    for_loop (uy gen_dims) (fun y data =>
      for_loop (ux gen_dims) (fun x data =>
        let voxel := voxel_index gen_dims x y z in
        vec_store voxel (field x y z) data) data) data) data.

Definition plane_x_field (gen_dims : uvec3) (x y z : Z) : float :=
  F32.div (F32.of_Z x) (F32.of_Z (ux gen_dims)).

Definition quarter_sphere_field (gen_dims : uvec3) (x y z : Z) : float :=
  let max_dist := glm_length (vec3_of_uvec3 gen_dims) in
  let dist := glm_length (vec3_of_size x y z) in
  F32.div dist max_dist.

Definition sphere_field (gen_dims : uvec3) (x y z : Z) : float :=
  let sphere_origin :=
    Vec3 (F32.div (F32.of_Z (ux gen_dims)) F32.two)
         (F32.div (F32.of_Z (uy gen_dims)) F32.two)
         (F32.div (F32.of_Z (uz gen_dims)) F32.two) in
  let max_dist := F32.div (F32.of_Z (ux gen_dims)) F32.two in
  let dist := glm_length (vec3_sub (vec3_of_size x y z) sphere_origin) in
  F32.div dist max_dist.

Section Libm.

(** [std::sin] and [std::cos] on [float], from the C library. *)
Variable sinf cosf : float -> float.

Definition wavelet_field (gen_dims : uvec3) (x y z : Z) : float :=
  let M := F32.one in
  let G := F32.one in
  let XM := F32.one in
  let YM := F32.one in
  let ZM := F32.one in
  let XF := F32.three in
  let YF := F32.three in
  let ZF := F32.three in
  let coords :=
    vec3_sub
      (vec3_scale F32.two (vec3_div (vec3_of_size x y z) (vec3_of_uvec3 gen_dims)))
      (vec3_splat F32.one) in
  F32.mul (F32.mul M G)
    (F32.add
       (F32.add (F32.mul XM (sinf (F32.mul XF (fx coords))))
                (F32.mul YM (sinf (F32.mul YF (fy coords)))))
       (F32.mul ZM (cosf (F32.mul ZF (fz coords))))).

Definition generate_volume (gen_mode_name : string) (gen_dims : uvec3)
    (data : list float) : M (bool * list float) :=
  let data :=
    vec_resize (size_mul (size_mul (ux gen_dims) (uy gen_dims)) (uz gen_dims))
               F32.zero data in
  if bool_decide (gen_mode_name = "plane_x") then
    emit (Cout (MsgGenerating "plane_x" gen_dims));;
    data ← lift (fill_voxels gen_dims (plane_x_field gen_dims) data);
    mret (true, data)
  else if bool_decide (gen_mode_name = "quarter_sphere") then
    emit (Cout (MsgGenerating "sphere" gen_dims));;
    data ← lift (fill_voxels gen_dims (quarter_sphere_field gen_dims) data);
    mret (true, data)
  else if bool_decide (gen_mode_name = "sphere") then
    emit (Cout (MsgGenerating "sphere" gen_dims));;
    data ← lift (fill_voxels gen_dims (sphere_field gen_dims) data);
    mret (true, data)
  else if bool_decide (gen_mode_name = "wavelet") then
    emit (Cout (MsgGenerating "wavelet" gen_dims));;
    data ← lift (fill_voxels gen_dims (wavelet_field gen_dims) data);
    mret (true, data)
  else
    emit (Cout (MsgUnrecognizedMode gen_mode_name));;
    mret (false, data).

End Libm.

(** ** The part of the C++ library the program uses *)

Definition is_digit (c : ascii) : bool :=
  let n := N_of_ascii c in ((48 <=? n) && (n <=? 57))%N.

Definition is_alpha (c : ascii) : bool :=
  let n := N_of_ascii c in
  (((65 <=? n) && (n <=? 90)) || ((97 <=? n) && (n <=? 122)))%N.

(** The class [\w]. *)
Definition is_word (c : ascii) : bool :=
  is_digit c || is_alpha c || bool_decide (c = "_"%char).

(** The class [.]: anything but a line terminator. *)
Definition is_any (c : ascii) : bool :=
  let n := N_of_ascii c in negb ((n =? 10) || (n =? 13))%N.

(** [isspace] in the C locale. *)
Definition is_space (c : ascii) : bool :=
  let n := N_of_ascii c in ((n =? 32) || ((9 <=? n) && (n <=? 13)))%N.

Definition digit_value (c : ascii) : Z := Z.of_N (N_of_ascii c) - 48.

(** The value of the longest prefix of decimal digits of [s], after [acc]. *)
Fixpoint read_digits (acc : Z) (s : list ascii) : Z :=
  match s with
  | c :: s' => if is_digit c then read_digits (10 * acc + digit_value c) s' else acc
  | [] => acc
  end.

Fixpoint skip_spaces (s : list ascii) : list ascii :=
  match s with
  | c :: s' => if is_space c then skip_spaces s' else s
  | [] => []
  end.

(** The number [strtol] and [strtoul] read in base 10: white space, an
    optional sign, then at least one digit; [None] when there is no digit. *)
Definition parse_integer (s : list ascii) : option Z :=
  let s := skip_spaces s in
  let '(negative, s) :=
    match s with
    | "-"%char :: s' => (true, s')
    | "+"%char :: s' => (false, s')
    | _ => (false, s)
    end in
  match s with
  | c :: _ =>
      if is_digit c
      then Some (let v := read_digits 0 s in if negative then - v else v)
      else None
  | [] => None
  end.

(** [std::stoi]. *)
Definition stoi (s : list ascii) : outcome Z :=
  match parse_integer s with
  | None => Throw invalid_argument
  | Some v =>
      if bool_decide (INT_MIN <= v <= INT_MAX) then Ret v else Throw out_of_range
  end.

(** [std::stoul]: a negative number is negated in [unsigned long]. *)
Definition stoul (s : list ascii) : outcome Z :=
  match parse_integer s with
  | None => Throw invalid_argument
  | Some v =>
      if bool_decide (Z.abs v < SIZE_MOD) then Ret (v mod SIZE_MOD)
      else Throw out_of_range
  end.

(** Conversion to [unsigned]. *)
Definition to_unsigned (v : Z) : Z := v mod UINT_MOD.

(** *** [std::regex], for patterns made of literal characters and captured
    groups [(c+)] of one character class *)

Inductive piece : Type :=
| Lit (c : ascii)
| Group (cls : ascii -> bool).

(** A greedy [c+]: one character of the class, then as many more as the
    rest of the pattern, [k], permits; the longest is tried first. *)
Fixpoint greedy {R : Type} (cls : ascii -> bool)
    (k : list ascii -> list ascii -> option R)
    (acc s : list ascii) : option R :=
  match s with
  | c :: s' =>
      if cls c then
        match greedy cls k (acc ++ [c]) s' with
        | Some r => Some r
        | None => k (acc ++ [c]) s'
        end
      else None
  | [] => None
  end.

(** A match of the pattern at the start of [s]: the captured groups. *)
Fixpoint match_here (ps : list piece) (caps : list (list ascii))
    (s : list ascii) : option (list (list ascii)) :=
  match ps with
  | [] => Some caps
  | Lit c :: ps' =>
      match s with
      | c' :: s' => if bool_decide (c' = c) then match_here ps' caps s' else None
      | [] => None
      end
  | Group cls :: ps' =>
      greedy cls (fun cap s' => match_here ps' (caps ++ [cap]) s') [] s
  end.

(** [std::regex_search]: the match at the leftmost position that has one. *)
Fixpoint regex_search (ps : list piece) (s : list ascii)
  : option (list (list ascii)) :=
  match match_here ps [] s with
  | Some caps => Some caps
  | None =>
      match s with
      | _ :: s' => regex_search ps s'
      | [] => None
      end
  end.

(** *** Files *)

Definition filesystem : Type := string -> option (list byte).

(** [fin.read(buf, count)] on a stream just opened on [file]: the bytes
    that are there, at most [count], replace the start of [buf]; a stream
    that failed to open reads nothing. *)
Definition ifstream_read (file : option (list byte)) (count : Z)
    (buf : list byte) : list byte :=
  match file with
  | Some content =>
      let got := take (Z.to_nat count) content in
      got ++ drop (length got) buf
  | None => buf
  end.

Definition Z_of_byte (b : byte) : Z := Z.of_N (Byte.to_N b).

Definition byte_of_Z (z : Z) : byte :=
  default x00 (Byte.of_N (Z.to_N (z mod 256))).

Inductive byte_order : Type := LittleEndian | BigEndian.

(** The unsigned number that bytes stand for, lowest address first. *)
Fixpoint le_value (bs : list byte) : Z :=
  match bs with
  | b :: bs' => Z_of_byte b + 256 * le_value bs'
  | [] => 0
  end.

Definition word_value (order : byte_order) (bs : list byte) : Z :=
  match order with
  | LittleEndian => le_value bs
  | BigEndian => le_value (rev bs)
  end.

Definition word_bytes (order : byte_order) (w : Z) : list byte :=
  let le := [byte_of_Z w; byte_of_Z (w / 2 ^ 8); byte_of_Z (w / 2 ^ 16);
             byte_of_Z (w / 2 ^ 24)] in
  match order with
  | LittleEndian => le
  | BigEndian => rev le
  end.

(** The memory of a [float] array, and the array a memory holds. *)
Definition bytes_of_floats (order : byte_order) (data : list float) : list byte :=
  flat_map (fun x => word_bytes order (F32.to_bits x)) data.

Fixpoint floats_of_bytes (order : byte_order) (bs : list byte) : list float :=
  match bs with
  | b0 :: b1 :: b2 :: b3 :: bs' =>
      F32.of_bits (word_value order [b0; b1; b2; b3]) :: floats_of_bytes order bs'
  | _ => []
  end.

(** ** [read_raw_volume] *)

(** [(\w+)_(\d+)x(\d+)x(\d+)_(.+)\.raw] *)
Definition match_filename : list piece :=
  [Group is_word; Lit "_"; Group is_digit; Lit "x"; Group is_digit; Lit "x";
   Group is_digit; Lit "_"; Group is_any; Lit "."; Lit "r"; Lit "a"; Lit "w"]%char.

(** The first part of [read_raw_volume], up to [volume_type]: the
    dimensions and the data type the file name gives, or [None] when the
    name does not have the expected form. *)
Definition parse_raw_file_name (raw_file_name : string) : M (option (uvec3 * string)) :=
  match regex_search match_filename (String.list_ascii_of_string raw_file_name) with
  | Some [_; m2; m3; m4; m5] =>
      x ← lift (stoi m2);
      y ← lift (stoi m3);
      z ← lift (stoi m4);
      let dims := Uvec3 (to_unsigned x) (to_unsigned y) (to_unsigned z) in
      let volume_type := String.string_of_list_ascii m5 in
      mret (Some (dims, volume_type))
  | _ =>
      emit (Cerr (MsgNamingScheme raw_file_name));;
      mret None
  end.

Section Machine.

(** The byte order of the machine. *)
Variable order : byte_order.

(** [d[i]] for [d] the bytes [read_data] seen as [uint16_t]. *)
Definition load_uint16 (read_data : list byte) (i : Z) : outcome Z :=
  b0 ← vec_load (2 * i) read_data;
  b1 ← vec_load (2 * i + 1) read_data;
  mret (word_value order [b0; b1]).

Definition read_raw_volume (fs : filesystem) (raw_file_name : string)
    (data : list float) (dims : uvec3) : M (bool * list float * uvec3) :=
  parsed ← parse_raw_file_name raw_file_name;
  match parsed with
  | None => mret (false, data, dims)
  | Some (dims, volume_type) =>
      let voxel_size :=
        if bool_decide (volume_type = "uint8") then 1
        else if bool_decide (volume_type = "uint16") then 2
        else if bool_decide (volume_type = "float32") then 4
        else 0 in
      let num_voxels := size_mul (size_mul (ux dims) (uy dims)) (uz dims) in
      let data := vec_resize num_voxels F32.zero data in
      emit (FileOpen raw_file_name);;
      let fin := fs raw_file_name in
      if bool_decide (volume_type ≠ "float32") then
        let read_data := replicate (Z.to_nat (size_mul num_voxels voxel_size)) x00 in
        let count := Z.of_nat (length read_data) in
        emit (FileRead raw_file_name count);;
        let read_data := ifstream_read fin count read_data in
        if bool_decide (volume_type = "uint8") then
          data ← lift (for_loop num_voxels (fun i data =>
                    b ← vec_load i read_data;
                    vec_store i (F32.of_Z (Z_of_byte b)) data) data);
          mret (true, data, dims)
        else if bool_decide (volume_type = "uint16") then
          data ← lift (for_loop num_voxels (fun i data =>
                    w ← load_uint16 read_data i;
                    vec_store i (F32.of_Z w) data) data);
          mret (true, data, dims)
        else mret (true, data, dims)
      else
        let count := Z.of_nat (length data) in
        emit (FileRead raw_file_name count);;
        let memory := ifstream_read fin count (bytes_of_floats order data) in
        mret (true, floats_of_bytes order memory, dims)
  end.

End Machine.

(** ** [main] *)

(** The variables the argument loop of [main] sets. *)
Record options : Type := Options {
  raw_volume_mode : bool;
  gen_volume_mode : bool;
  compression_rate : Z;
  raw_file_name : string;
  gen_mode_name : string;
  gen_dims : uvec3
}.

Definition initial_options : options :=
  {| raw_volume_mode := false;
     gen_volume_mode := false;
     compression_rate := -1;
     raw_file_name := "";
     gen_mode_name := "";
     gen_dims := Uvec3 0 0 0 |}.

(** The assignments of the argument loop. *)
Definition set_compression_rate (rate : Z) (o : options) : options :=
  {| raw_volume_mode := raw_volume_mode o;
     gen_volume_mode := gen_volume_mode o;
     compression_rate := rate;
     raw_file_name := raw_file_name o;
     gen_mode_name := gen_mode_name o;
     gen_dims := gen_dims o |}.

Definition set_raw (name : string) (o : options) : options :=
  {| raw_volume_mode := true;
     gen_volume_mode := gen_volume_mode o;
     compression_rate := compression_rate o;
     raw_file_name := name;
     gen_mode_name := gen_mode_name o;
     gen_dims := gen_dims o |}.

Definition set_gen (name : string) (o : options) : options :=
  {| raw_volume_mode := raw_volume_mode o;
     gen_volume_mode := true;
     compression_rate := compression_rate o;
     raw_file_name := raw_file_name o;
     gen_mode_name := name;
     gen_dims := gen_dims o |}.

Definition set_dims (x y z : Z) (o : options) : options :=
  {| raw_volume_mode := raw_volume_mode o;
     gen_volume_mode := gen_volume_mode o;
     compression_rate := compression_rate o;
     raw_file_name := raw_file_name o;
     gen_mode_name := gen_mode_name o;
     gen_dims := Uvec3 (to_unsigned x) (to_unsigned y) (to_unsigned z) |}.

(** [args[++i]]: the next argument; undefined when there is none. *)
Definition next_arg (args : list string) : outcome string :=
  match args with
  | a :: _ => Ret a
  | [] => Undefined
  end.

(** The argument loop; [None] when it returns 1 on an unrecognized
    argument. *)
Fixpoint parse_args (args : list string) (o : options) : M (option options) :=
  match args with
  | [] => mret (Some o)
  | arg :: rest =>
      if bool_decide (arg = "-crate") then
        a ← lift (next_arg rest);
        rate ← lift (stoi (String.list_ascii_of_string a));
        match rest with
        | _ :: rest => parse_args rest (set_compression_rate rate o)
        | [] => lift Undefined
        end
      else if bool_decide (arg = "-raw") then
        a ← lift (next_arg rest);
        match rest with
        | _ :: rest => parse_args rest (set_raw a o)
        | [] => lift Undefined
        end
      else if bool_decide (arg = "-gen") then
        a ← lift (next_arg rest);
        match rest with
        | _ :: rest => parse_args rest (set_gen a o)
        | [] => lift Undefined
        end
      else if bool_decide (arg = "-dims") then
        a ← lift (next_arg rest);
        x ← lift (stoul (String.list_ascii_of_string a));
        b ← lift (next_arg (tail rest));
        y ← lift (stoul (String.list_ascii_of_string b));
        c ← lift (next_arg (tail (tail rest)));
        z ← lift (stoul (String.list_ascii_of_string c));
        match rest with
        | _ :: _ :: _ :: rest => parse_args rest (set_dims x y z o)
        | _ => lift Undefined
        end
      else
        emit (Cout (MsgUnrecognizedArgument arg));;
        mret None
  end.

Definition uvec3_eqb (a b : uvec3) : bool :=
  (ux a =? ux b) && (uy a =? uy b) && (uz a =? uz b).

(** [int(x)]; undefined when the integer part does not fit [int]. *)
Definition int_of_float (x : float) : outcome Z :=
  match F32.trunc x with
  | Some v => if bool_decide (INT_MIN <= v <= INT_MAX) then Ret v else Undefined
  | None => Undefined
  end.

(** The interface of the codec, zfp, as [main] uses it. *)
Record codec : Type := Codec {
  (** [zfp_stream_set_rate(zfp, rate, zfp_type_float, 3, 0)], as a [float] *)
  zfp_stream_set_rate : Z -> float;
  (** [zfp_stream_maximum_size] for a stream at this rate and a 3D field
      of these dimensions *)
  zfp_stream_maximum_size : float -> uvec3 -> Z;
  (** [zfp_compress] into the buffer: the buffer afterwards and the
      number of bytes of the stream *)
  zfp_compress : float -> uvec3 -> list float -> list byte -> list byte * Z
}.

Section Program.

Variable sinf cosf : float -> float.
Variable order : byte_order.
Variable zfp : codec.
Variable fs : filesystem.

(** The volume and the start of the output name: the two branches on
    [raw_volume_mode]; [None] when [main] returns 1 there. *)
Definition acquire_volume (o : options) : M (option (string * list float * uvec3)) :=
  let volume_data : list float := [] in
  let volume_dims := Uvec3 0 0 0 in
  if raw_volume_mode o then
    '(ok, volume_data, volume_dims) ←
      read_raw_volume order fs (raw_file_name o) volume_data volume_dims;
    if negb ok then
      emit (Cout (MsgFailedToReadRaw (raw_file_name o)));;
      mret None
    else mret (Some (raw_file_name o, volume_data, volume_dims))
  else
    '(ok, volume_data) ←
      generate_volume sinf cosf (gen_mode_name o) (gen_dims o) volume_data;
    if negb ok then
      emit (Cout MsgFailedToGenerate);;
      mret None
    else
      let volume_dims := gen_dims o in
      let out_name :=
        gen_mode_name o +:+ "_" +:+ pretty (ux volume_dims) +:+ "x" +:+
        pretty (uy volume_dims) +:+ "x" +:+ pretty (uz volume_dims) +:+
        "_float32.gen" in
      mret (Some (out_name, volume_data, volume_dims)).

(** [main] from the call of [zfp_stream_set_rate] on. *)
Definition compress_and_save (compression_rate : Z) (out_name : string)
    (volume_data : list float) (volume_dims : uvec3) : M Z :=
  emit (CodecSetRate compression_rate);;
  let used_compression_rate := zfp_stream_set_rate zfp compression_rate in
  emit (Cout (MsgUsedRate used_compression_rate));;
  if F32.neq (F32.floor used_compression_rate) used_compression_rate then
    emit (Cout MsgNonIntegerRate);;
    mret 1
  else
    let bufsize := zfp_stream_maximum_size zfp used_compression_rate volume_dims in
    let compressed_data := replicate (Z.to_nat bufsize) x00 in
    emit (CodecCompress volume_dims volume_data);;
    let '(compressed_data, total_bytes) :=
      zfp_compress zfp used_compression_rate volume_dims volume_data
                   compressed_data in
    let compressed_data := vec_resize total_bytes x00 compressed_data in
    emit (Cout (MsgCompressedSize (Z.of_nat (length compressed_data))));;
    rate ← lift (int_of_float used_compression_rate);
    let out_name := out_name +:+ ".crate" +:+ pretty rate +:+ ".zfp" in
    emit (FileCreate out_name);;
    emit (FileWrite out_name compressed_data);;
    mret 0.

Definition main (args : list string) : M Z :=
  if bool_decide ("-h" ∈ args) then
    emit (Cout MsgUsage);;
    mret 0
  else
    parsed ← parse_args args initial_options;
    match parsed with
    | None => mret 1
    | Some o =>
        if negb (raw_volume_mode o) && negb (gen_volume_mode o) then
          emit (Cout MsgModeRequired);;
          emit (Cout MsgUsage);;
          mret 1
        else if raw_volume_mode o && gen_volume_mode o then
          emit (Cout MsgOnlyOneMode);;
          emit (Cout MsgUsage);;
          mret 1
        else if gen_volume_mode o && uvec3_eqb (gen_dims o) (Uvec3 0 0 0) then
          emit (Cout MsgDimsRequired);;
          emit (Cout MsgUsage);;
          mret 1
        else
          volume ← acquire_volume o;
          match volume with
          | None => mret 1
          | Some (out_name, volume_data, volume_dims) =>
              emit (Cout (MsgUncompressedSize
                            (size_mul (Z.of_nat (length volume_data)) 4)));;
              compress_and_save (compression_rate o) out_name
                                volume_data volume_dims
          end
    end.

End Program.

(** ** Vocabulary of the properties *)

(** [writes P lo hi l l']: [l'] is [l] after stores inside [lo, hi) only,
    among them a store of [v] at [j] for every [P j v]. *)
Definition writes {A : Type} (P : nat -> A -> Prop) (lo hi : nat)
    (l l' : list A) : Prop :=
  length l' = length l /\
  (forall j v, P j v -> (lo <= j < hi)%nat /\ l' !! j = Some v) /\
  (forall j, ~ (lo <= j < hi)%nat -> l' !! j = l !! j).

(** The number of bytes [fin.read(buf, count)] obtains from the file. *)
Definition bytes_read (file : option (list byte)) (count : Z) : nat :=
  match file with
  | Some content => Nat.min (Z.to_nat count) (length content)
  | None => 0
  end.

(** [F32.of_Z n] stands for [n] exactly. *)
Definition exact_at (n : Z) : bool :=
  match F32.value (F32.of_Z n) with
  | Some q => Qeq_bool q (inject_Z n)
  | None => false
  end.

(** [P] holds of [lo], [lo + 1], ..., [lo + count - 1]. *)
Fixpoint all_from (P : Z -> bool) (count : nat) (lo : Z) : bool :=
  match count with
  | O => true
  | S c => P lo && all_from P c (lo + 1)
  end.

(** [matches ps s caps rest]: the pattern [ps] matches a prefix of [s],
    capturing [caps] and leaving [rest]. *)
Inductive matches : list piece -> list ascii -> list (list ascii) -> list ascii -> Prop :=
| matches_nil (s : list ascii) : matches [] s [] s
| matches_lit (c : ascii) (ps : list piece) (s : list ascii)
    (caps : list (list ascii)) (rest : list ascii) :
    matches ps s caps rest -> matches (Lit c :: ps) (c :: s) caps rest
| matches_group (cls : ascii -> bool) (ps : list piece) (w s : list ascii)
    (caps : list (list ascii)) (rest : list ascii) :
    w <> [] -> forallb cls w = true -> matches ps s caps rest ->
    matches (Group cls :: ps) (w ++ s) (w :: caps) rest.

Definition chars (s : string) : list ascii := String.list_ascii_of_string s.

Definition dot_raw : list ascii := [".";"r";"a";"w"]%char.

(** One or more decimal digits, and the number they write. *)
Definition decimal (s : list ascii) : Prop := s <> [] /\ forallb is_digit s = true.
Definition decimal_value (s : list ascii) : Z := read_digits 0 s.


(** [name] has, between [pre] and [post], a part [<n>_<X>x<Y>x<Z>_<d>.raw]:
    [n] one or more word characters, [X], [Y], [Z] one or more decimal
    digits, [d] one or more characters other than line terminators. *)
Definition contains_convention (name pre n X Y Z0 d post : list ascii) : Prop :=
  name = pre ++ (n ++ "_"%char :: X ++ "x"%char :: Y ++ "x"%char :: Z0 ++
                 "_"%char :: d ++ dot_raw ++ post) /\
  (n <> [] /\ forallb is_word n = true) /\
  decimal X /\ decimal Y /\ decimal Z0 /\
  (d <> [] /\ forallb is_any d = true).

(** [longest_first caps caps']: reading the captured groups in order, the
    first one whose length differs is longer in [caps]; this is the order
    in which greedy groups are tried. *)
Fixpoint longest_first (caps caps' : list (list ascii)) : Prop :=
  match caps, caps' with
  | w :: c, w' :: c' =>
      (length w' < length w)%nat \/
      (length w' = length w /\ longest_first c c')
  | _, _ => True
  end.

(** The part of [name] the parser settles on: of all the parts
    [<n>_<X>x<Y>x<Z>_<d>.raw] of [name], the one that starts first and,
    among those that start there, has the longest [n], then the longest
    [X], [Y], [Z] and [d]. *)
Definition settles_on (name pre n X Y Z0 d post : list ascii) : Prop :=
  contains_convention name pre n X Y Z0 d post /\
  forall pre' n' X' Y' Z' d' post',
    contains_convention name pre' n' X' Y' Z' d' post' ->
    (length pre < length pre')%nat \/
    (length pre' = length pre /\
     longest_first [n; X; Y; Z0; d] [n'; X'; Y'; Z'; d']).


(** [parsed args o o']: the argument loop runs through [args] and turns
    the variables [o] into [o']. *)
Inductive parsed : list string -> options -> options -> Prop :=
| parsed_nil (o : options) : parsed [] o o
| parsed_crate (a : string) (rest : list string) (rate : Z) (o o' : options) :
    stoi (chars a) = Ret rate ->
    parsed rest (set_compression_rate rate o) o' ->
    parsed ("-crate" :: a :: rest) o o'
| parsed_raw (a : string) (rest : list string) (o o' : options) :
    parsed rest (set_raw a o) o' ->
    parsed ("-raw" :: a :: rest) o o'
| parsed_gen (a : string) (rest : list string) (o o' : options) :
    parsed rest (set_gen a o) o' ->
    parsed ("-gen" :: a :: rest) o o'
| parsed_dims (a b c : string) (rest : list string) (x y z : Z) (o o' : options) :
    stoul (chars a) = Ret x -> stoul (chars b) = Ret y -> stoul (chars c) = Ret z ->
    parsed rest (set_dims x y z o) o' ->
    parsed ("-dims" :: a :: b :: c :: rest) o o'.

(** Events other than calls of the codec and output to a file. *)
Definition quiet (e : event) : bool :=
  match e with
  | CodecSetRate _ | CodecCompress _ _ | FileCreate _ | FileWrite _ _ => false
  | _ => true
  end.


(** The three tests of [main] on the modes let the run go on. *)
Definition modes_accepted (o : options) : bool :=
  negb (negb (raw_volume_mode o) && negb (gen_volume_mode o)) &&
  negb (raw_volume_mode o && gen_volume_mode o) &&
  negb (gen_volume_mode o && uvec3_eqb (gen_dims o) (Uvec3 0 0 0)).





(** A codec that grants every rate and writes nothing, to run [main]. *)
Definition null_codec : codec :=
  {| zfp_stream_set_rate := F32.of_Z;
     zfp_stream_maximum_size := fun _ _ => 0;
     zfp_compress := fun _ _ _ buffer => (buffer, 0) |}.


(** The four names [generate_volume] knows. *)
Definition known_generator (name : string) : Prop :=
  name = "plane_x" \/ name = "quarter_sphere" \/ name = "sphere" \/ name = "wavelet".

(** What [generate_volume] prints for a generator: quarter_sphere is
    announced as a sphere. *)
Definition announced (name : string) : string :=
  if bool_decide (name = "plane_x") then "plane_x"
  else if bool_decide (name = "wavelet") then "wavelet"
  else "sphere".

(** The four options of the argument loop. *)
Definition is_option (arg : string) : Prop :=
  arg = "-crate" \/ arg = "-raw" \/ arg = "-gen" \/ arg = "-dims".

(** The rate [k], as a [float], passes the test of [main] and converts
    back to the [int] [k]. *)
Definition whole_rate_at (k : Z) : bool :=
  negb (F32.neq (F32.floor (F32.of_Z k)) (F32.of_Z k)) &&
  match int_of_float (F32.of_Z k) with
  | Ret v => v =? k
  | _ => false
  end.


(** The message of the tests of [main] on the modes, in the order of the
    tests: no mode, both modes, a generator without extents. *)
Definition mode_refusal (o : options) : message :=
  if negb (raw_volume_mode o) && negb (gen_volume_mode o) then MsgModeRequired
  else if raw_volume_mode o && gen_volume_mode o then MsgOnlyOneMode
  else MsgDimsRequired.

(** The creation or the writing of an output file. *)
Definition file_output (e : event) : bool :=
  match e with
  | FileCreate _ | FileWrite _ _ => true
  | _ => false
  end.

(** No file is opened for reading but those of [names]. *)
Definition opens_within (names : list string) (e : event) : bool :=
  match e with
  | FileOpen a => bool_decide (a ∈ names)
  | _ => true
  end.

(** The lines [main] and its functions print last before [main]
    returns 1. *)
Definition failure_line (m : message) : bool :=
  match m with
  | MsgUnrecognizedArgument _ | MsgUsage | MsgFailedToReadRaw _
  | MsgFailedToGenerate | MsgNonIntegerRate => true
  | _ => false
  end.
(** * Properties *)

(** ** Loops and stores *)

Lemma for_loop_0 {S : Type} (body : Z -> S -> outcome S) (s : S) :
  for_loop 0 body s = Ret s.
Proof. reflexivity. Qed.

Lemma for_loop_succ {S : Type} (n : nat) (body : Z -> S -> outcome S) (s : S) :
  for_loop (Z.of_nat (Datatypes.S n)) body s =
  obind (for_loop (Z.of_nat n) body s) (body (Z.of_nat n)).
Proof.
  unfold for_loop. rewrite !Nat2Z.id, seq_S, fold_left_app. reflexivity.
Qed.

Lemma writes_store {A : Type} (i : Z) (x : A) (l : list A) :
  0 <= i < Z.of_nat (length l) ->
  exists l', vec_store i x l = Ret l' /\
    writes (fun j v => j = Z.to_nat i /\ v = x) (Z.to_nat i) (Datatypes.S (Z.to_nat i)) l l'.
Proof.
  intros Hi. unfold vec_store. rewrite bool_decide_eq_true_2 by exact Hi.
  eexists; split; [reflexivity|]. split; [|split].
  - apply length_insert.
  - intros j v [-> ->]. split; [lia|]. apply list_lookup_insert_eq. lia.
  - intros j Hj. apply list_lookup_insert_ne. lia.
Qed.

Lemma writes_weaken {A : Type} (P Q : nat -> A -> Prop) lo hi lo' hi' (l l' : list A) :
  writes P lo hi l l' ->
  (forall j v, Q j v -> P j v) ->
  lo = lo' -> hi = hi' ->
  writes Q lo' hi' l l'.
Proof.
  intros (Hlen & Hin & Hout) HQ <- <-. split; [|split]; auto.
Qed.

(** A loop whose iteration [k] writes inside the [k]-th block of [B]
    cells from [base] on writes what all the iterations write. *)
Lemma for_loop_writes {A : Type} (n : nat) (body : Z -> list A -> outcome (list A))
    (P : nat -> nat -> A -> Prop) (base B L : nat) :
  (forall k l, (k < n)%nat -> length l = L ->
     exists l', body (Z.of_nat k) l = Ret l' /\
       writes (P k) (base + k * B) (base + k * B + B) l l') ->
  forall l, length l = L ->
  exists l', for_loop (Z.of_nat n) body l = Ret l' /\
    writes (fun j v => exists k, (k < n)%nat /\ P k j v) base (base + n * B) l l'.
Proof.
  induction n as [|n IH]; intros Hbody l Hl.
  - exists l. split; [reflexivity|]. split; [|split]; auto.
    intros j v (k & Hk & _). lia.
  - destruct (IH (fun k l Hk => Hbody k l (Nat.lt_lt_succ_r _ _ Hk)) l Hl)
      as (l1 & Hloop & Hlen1 & Hin1 & Hout1).
    destruct (Hbody n l1 (Nat.lt_succ_diag_r n) (eq_trans Hlen1 Hl))
      as (l2 & Hb & Hlen2 & Hin2 & Hout2).
    exists l2. rewrite for_loop_succ, Hloop. split; [exact Hb|].
    assert (Hmul : forall k, (k < n)%nat -> (k * B + B <= n * B)%nat)
      by (intros k Hk; nia).
    split; [congruence|split].
    + intros j v (k & Hk & HP).
      destruct (decide (k = n)) as [->|Hne].
      * apply Hin2 in HP. simpl. split; [lia|tauto].
      * assert (Hk' : (k < n)%nat) by lia.
        destruct (Hin1 j v (ex_intro _ k (conj Hk' HP))) as [Hr Hv].
        specialize (Hmul k Hk').
        destruct (Hbody k l (Nat.lt_lt_succ_r _ _ Hk') Hl) as (l3 & _ & _ & Hin3 & _).
        apply Hin3 in HP. destruct HP as [Hr3 _].
        split; [simpl; lia|]. rewrite Hout2; [exact Hv|lia].
    + intros j Hj. simpl in Hj. rewrite Hout2 by lia. apply Hout1. lia.
Qed.

Lemma for_loop_covers {A : Type} (n : nat) (body : Z -> list A -> outcome (list A))
    (P : nat -> nat -> A -> Prop) (Q : nat -> A -> Prop) (base B L lo hi : nat) :
  (forall k l, (k < n)%nat -> length l = L ->
     exists l', body (Z.of_nat k) l = Ret l' /\
       writes (P k) (base + k * B) (base + k * B + B) l l') ->
  (forall j v, Q j v -> exists k, (k < n)%nat /\ P k j v) ->
  base = lo -> (base + n * B)%nat = hi ->
  forall l, length l = L ->
  exists l', for_loop (Z.of_nat n) body l = Ret l' /\ writes Q lo hi l l'.
Proof.
  intros Hbody HQ Hlo Hhi l Hl.
  destruct (for_loop_writes n body P base B L Hbody l Hl) as (l' & Hrun & Hw).
  exists l'. split; [exact Hrun|].
  exact (writes_weaken _ _ _ _ _ _ _ _ Hw HQ Hlo Hhi).
Qed.

(** ** The loop nest of the generators *)

Lemma voxel_bound (nX nY nZ x y z : nat) :
  (x < nX)%nat -> (y < nY)%nat -> (z < nZ)%nat ->
  (x + nX * (y + nY * z) < nX * nY * nZ)%nat.
Proof.
  intros Hx Hy Hz.
  assert (y + nY * z + 1 <= nY * nZ)%nat by nia.
  assert (nX * (y + nY * z + 1) <= nX * (nY * nZ))%nat
    by (apply Nat.mul_le_mono_l; assumption).
  lia.
Qed.

Lemma voxel_index_nat (nX nY nZ x y z : nat) :
  (x < nX)%nat -> (y < nY)%nat -> (z < nZ)%nat ->
  Z.of_nat (nX * nY * nZ) < SIZE_MOD ->
  voxel_index (Uvec3 (Z.of_nat nX) (Z.of_nat nY) (Z.of_nat nZ))
              (Z.of_nat x) (Z.of_nat y) (Z.of_nat z)
  = Z.of_nat (x + nX * (y + nY * z)).
Proof.
  intros Hx Hy Hz Hfit.
  pose proof (voxel_bound nX nY nZ x y z Hx Hy Hz) as Hb.
  assert (H1 : (nY * z <= x + nX * (y + nY * z))%nat) by nia.
  assert (H2 : (y + nY * z <= x + nX * (y + nY * z))%nat) by nia.
  assert (H3 : (nX * (y + nY * z) <= x + nX * (y + nY * z))%nat) by lia.
  unfold voxel_index, size_add, size_mul; simpl ux; simpl uy.
  rewrite <- Nat2Z.inj_mul, (Z.mod_small (Z.of_nat (nY * z))) by lia.
  rewrite <- Nat2Z.inj_add, (Z.mod_small (Z.of_nat (y + nY * z))) by lia.
  rewrite <- Nat2Z.inj_mul, (Z.mod_small (Z.of_nat (nX * (y + nY * z)))) by lia.
  rewrite <- Nat2Z.inj_add, Z.mod_small by lia.
  reflexivity.
Qed.

Lemma fill_voxels_nat (nX nY nZ : nat) (field : Z -> Z -> Z -> float)
    (data : list float) :
  Z.of_nat (nX * nY * nZ) < SIZE_MOD ->
  length data = (nX * nY * nZ)%nat ->
  exists data',
    fill_voxels (Uvec3 (Z.of_nat nX) (Z.of_nat nY) (Z.of_nat nZ)) field data
      = Ret data' /\
    length data' = length data /\
    forall x y z, (x < nX)%nat -> (y < nY)%nat -> (z < nZ)%nat ->
      data' !! (x + nX * (y + nY * z))%nat
      = Some (field (Z.of_nat x) (Z.of_nat y) (Z.of_nat z)).
Proof.
  intros Hfit Hlen. unfold fill_voxels; simpl ux; simpl uy; simpl uz.
  set (dims := Uvec3 (Z.of_nat nX) (Z.of_nat nY) (Z.of_nat nZ)).
  set (Px := fun (z y x : nat) (j : nat) (v : float) =>
          j = (x + nX * (y + nY * z))%nat /\
          v = field (Z.of_nat x) (Z.of_nat y) (Z.of_nat z)).
  set (Py := fun (z y : nat) (j : nat) (v : float) =>
          exists x, (x < nX)%nat /\ Px z y x j v).
  set (Pz := fun (z : nat) (j : nat) (v : float) =>
          exists y, (y < nY)%nat /\ Py z y j v).
  set (Q := fun (j : nat) (v : float) => exists z, (z < nZ)%nat /\ Pz z j v).
  assert (Hall : exists data',
             for_loop (Z.of_nat nZ) (fun z data =>
               for_loop (Z.of_nat nY) (fun y data =>
                 for_loop (Z.of_nat nX) (fun x data =>
                   vec_store (voxel_index dims x y z) (field x y z) data) data) data) data
             = Ret data' /\ writes Q 0 (nX * nY * nZ) data data').
  { apply (for_loop_covers nZ _ Pz Q 0 (nX * nY) (nX * nY * nZ));
      [|intros j v HQ; exact HQ|reflexivity|lia|exact Hlen].
    intros z l Hz Hl.
    apply (for_loop_covers nY _ (Py z) (Pz z) (z * (nX * nY)) nX (nX * nY * nZ));
      [|intros j v HQ; exact HQ|lia|lia|exact Hl].
    intros y l0 Hy Hl0.
    apply (for_loop_covers nX _ (Px z y) (Py z y) (z * (nX * nY) + y * nX) 1
                           (nX * nY * nZ));
      [|intros j v HQ; exact HQ|lia|lia|exact Hl0].
    intros x l1 Hx Hl1.
    pose proof (voxel_bound nX nY nZ x y z Hx Hy Hz) as Hb.
    unfold dims. rewrite voxel_index_nat by assumption.
    destruct (writes_store (Z.of_nat (x + nX * (y + nY * z)))
                (field (Z.of_nat x) (Z.of_nat y) (Z.of_nat z)) l1)
      as (l' & Hst & Hw); [lia|].
    exists l'. split; [exact Hst|].
    rewrite Nat2Z.id in Hw.
    eapply writes_weaken; [exact Hw| |lia|lia].
    intros j v [-> ->]. split; reflexivity. }
  destruct Hall as (data' & Hrun & Hlen' & Hin & _).
  exists data'. split; [exact Hrun|]. split; [exact Hlen'|].
  intros x y z Hx Hy Hz.
  apply (Hin (x + nX * (y + nY * z))%nat).
  exists z. split; [exact Hz|]. exists y. split; [exact Hy|].
  exists x. split; [exact Hx|]. split; reflexivity.
Qed.

(** The loop nest on a vector of [X*Y*Z] cells stores [field x y z] at
    [x + X * (y + Y * z)] for every voxel, and nothing else. *)
Lemma fill_voxels_spec (X Y Z0 : Z) (field : Z -> Z -> Z -> float)
    (data : list float) :
  0 <= X -> 0 <= Y -> 0 <= Z0 -> X * Y * Z0 < SIZE_MOD ->
  length data = Z.to_nat (X * Y * Z0) ->
  exists data',
    fill_voxels (Uvec3 X Y Z0) field data = Ret data' /\
    length data' = Z.to_nat (X * Y * Z0) /\
    forall vx vy vz, 0 <= vx < X -> 0 <= vy < Y -> 0 <= vz < Z0 ->
      data' !! Z.to_nat (vx + X * (vy + Y * vz)) = Some (field vx vy vz).
Proof.
  intros HX HY HZ Hfit Hlen.
  destruct (fill_voxels_nat (Z.to_nat X) (Z.to_nat Y) (Z.to_nat Z0) field data)
    as (data' & Hrun & Hlen' & Hget).
  - rewrite !Nat2Z.inj_mul, !Z2Nat.id by assumption. exact Hfit.
  - rewrite Hlen, !Z2Nat.inj_mul by lia. reflexivity.
  - rewrite !Z2Nat.id in Hrun by assumption.
    exists data'. split; [exact Hrun|]. split; [congruence|].
    intros vx vy vz Hx Hy Hz.
    specialize (Hget (Z.to_nat vx) (Z.to_nat vy) (Z.to_nat vz)).
    rewrite !Z2Nat.id in Hget by lia.
    rewrite <- Hget by lia. f_equal.
    rewrite Z2Nat.inj_add, Z2Nat.inj_mul, Z2Nat.inj_add, Z2Nat.inj_mul by nia.
    reflexivity.
Qed.

(** ** [generate_volume] *)

Lemma voxel_count_fits (X Y Z0 : Z) :
  0 < X -> 0 < Y -> 0 < Z0 -> X * Y * Z0 < SIZE_MOD ->
  size_mul (size_mul X Y) Z0 = X * Y * Z0.
Proof.
  intros HX HY HZ Hfit. unfold size_mul.
  rewrite (Z.mod_small (X * Y)) by nia.
  apply Z.mod_small. nia.
Qed.

Lemma generating_run (what : string) (dims : uvec3) (field : Z -> Z -> Z -> float)
    (data data' : list float) :
  fill_voxels dims field data = Ret data' ->
  (emit (Cout (MsgGenerating what dims));;
   data ← lift (fill_voxels dims field data);
   mret (true, data))
  = ([Cout (MsgGenerating what dims)], Ret (true, data')).
Proof. intros H. unfold mbind, prog_mbind, prog_bind, emit, lift. rewrite H. reflexivity. Qed.

(** What a generator does on a grid of positive extents whose voxel count
    fits [size_t]. *)
Lemma generate_volume_fills (X Y Z0 : Z) (field : Z -> Z -> Z -> float)
    (data : list float) :
  0 < X -> 0 < Y -> 0 < Z0 -> X * Y * Z0 < SIZE_MOD ->
  exists grid,
    fill_voxels (Uvec3 X Y Z0) field
      (vec_resize (size_mul (size_mul X Y) Z0) F32.zero data) = Ret grid /\
    length grid = Z.to_nat (X * Y * Z0) /\
    forall vx vy vz, 0 <= vx < X -> 0 <= vy < Y -> 0 <= vz < Z0 ->
      grid !! Z.to_nat (vx + X * (vy + Y * vz)) = Some (field vx vy vz).
Proof.
  intros HX HY HZ Hfit. rewrite voxel_count_fits by assumption.
  apply fill_voxels_spec; try lia.
  unfold vec_resize. apply length_resize.
Qed.

(** C9. For every grid shape of positive extents (whose voxel count fits
    [size_t]), plane_x produces a grid of [x*y*z] values in which the voxel
    [(vx, vy, vz)], at index [vx + x*(vy + y*vz)], is [vx / x] in [float];
    for dims (4,1,1) the grid is exactly 0, 0.25, 0.5, 0.75. *)
Theorem plane_x_volume :
  (forall (sinf cosf : float -> float) (X Y Z0 : Z) (data : list float),
     0 < X -> 0 < Y -> 0 < Z0 -> X * Y * Z0 < SIZE_MOD ->
     exists grid,
       generate_volume sinf cosf "plane_x" (Uvec3 X Y Z0) data
         = ([Cout (MsgGenerating "plane_x" (Uvec3 X Y Z0))], Ret (true, grid)) /\
       length grid = Z.to_nat (X * Y * Z0) /\
       forall vx vy vz, 0 <= vx < X -> 0 <= vy < Y -> 0 <= vz < Z0 ->
         grid !! Z.to_nat (vx + X * (vy + Y * vz))
         = Some (F32.div (F32.of_Z vx) (F32.of_Z X))) /\
  (forall (sinf cosf : float -> float),
     exists g0 g1 g2 g3,
       result (generate_volume sinf cosf "plane_x" (Uvec3 4 1 1) [])
         = Ret (true, [g0; g1; g2; g3]) /\
       F32.represents g0 0 /\ F32.represents g1 (1 # 4) /\
       F32.represents g2 (1 # 2) /\ F32.represents g3 (3 # 4)).
Proof.
  split.
  - intros sinf cosf X Y Z0 data HX HY HZ Hfit.
    destruct (generate_volume_fills X Y Z0 (plane_x_field (Uvec3 X Y Z0)) data)
      as (grid & Hrun & Hlen & Hget); try assumption.
    exists grid. split; [|split; [exact Hlen|exact Hget]].
    unfold generate_volume.
    rewrite bool_decide_eq_true_2 by reflexivity.
    apply generating_run, Hrun.
  - intros sinf cosf. do 4 eexists. split; [vm_compute; reflexivity|].
    repeat split; (eexists; split; [reflexivity|reflexivity]).
Qed.

Lemma plane_x_volume_witness :
  exists grid,
    generate_volume (fun x => x) (fun x => x) "plane_x" (Uvec3 4 2 3) [F32.one]
      = ([Cout (MsgGenerating "plane_x" (Uvec3 4 2 3))], Ret (true, grid)) /\
    length grid = Z.to_nat (4 * 2 * 3) /\
    forall vx vy vz, 0 <= vx < 4 -> 0 <= vy < 2 -> 0 <= vz < 3 ->
      grid !! Z.to_nat (vx + 4 * (vy + 2 * vz))
      = Some (F32.div (F32.of_Z vx) (F32.of_Z 4)).
Proof.
  apply (proj1 plane_x_volume (fun x => x) (fun x => x) 4 2 3 [F32.one]);
    reflexivity.
Defined.

(** C7. For every grid shape of positive extents (whose voxel count fits
    [size_t]), sphere stores at index [vx + x*(vy + y*vz)] the norm of
    [(vx, vy, vz) - (x/2, y/2, z/2)] divided by [x/2], half the first
    extent, whatever [y] and [z] are; for dims (10,10,10) the voxel
    (5,5,5) is 0 and the voxel (0,5,5) is 1. *)
Theorem sphere_volume :
  (forall (sinf cosf : float -> float) (X Y Z0 : Z) (data : list float),
     0 < X -> 0 < Y -> 0 < Z0 -> X * Y * Z0 < SIZE_MOD ->
     let half (n : Z) := F32.div (F32.of_Z n) F32.two in
     exists grid,
       generate_volume sinf cosf "sphere" (Uvec3 X Y Z0) data
         = ([Cout (MsgGenerating "sphere" (Uvec3 X Y Z0))], Ret (true, grid)) /\
       length grid = Z.to_nat (X * Y * Z0) /\
       forall vx vy vz, 0 <= vx < X -> 0 <= vy < Y -> 0 <= vz < Z0 ->
         grid !! Z.to_nat (vx + X * (vy + Y * vz))
         = Some (F32.div
                   (glm_length (Vec3 (F32.sub (F32.of_Z vx) (half X))
                                     (F32.sub (F32.of_Z vy) (half Y))
                                     (F32.sub (F32.of_Z vz) (half Z0))))
                   (half X))) /\
  (forall (sinf cosf : float -> float),
     exists grid centre face,
       result (generate_volume sinf cosf "sphere" (Uvec3 10 10 10) [])
         = Ret (true, grid) /\
       grid !! Z.to_nat (5 + 10 * (5 + 10 * 5)) = Some centre /\
       grid !! Z.to_nat (0 + 10 * (5 + 10 * 5)) = Some face /\
       F32.represents centre 0 /\ F32.represents face 1).
Proof.
  split.
  - intros sinf cosf X Y Z0 data HX HY HZ Hfit half.
    destruct (generate_volume_fills X Y Z0 (sphere_field (Uvec3 X Y Z0)) data)
      as (grid & Hrun & Hlen & Hget); try assumption.
    exists grid. split; [|split; [exact Hlen|exact Hget]].
    unfold generate_volume.
    rewrite !bool_decide_eq_false_2 by discriminate.
    rewrite bool_decide_eq_true_2 by reflexivity.
    apply generating_run, Hrun.
  - intros sinf cosf. do 3 eexists.
    split; [vm_compute; reflexivity|].
    split; [vm_compute; reflexivity|].
    split; [vm_compute; reflexivity|].
    split; (eexists; split; [reflexivity|reflexivity]).
Qed.

Lemma sphere_volume_witness :
  exists grid,
    generate_volume (fun x => x) (fun x => x) "sphere" (Uvec3 4 2 3) []
      = ([Cout (MsgGenerating "sphere" (Uvec3 4 2 3))], Ret (true, grid)) /\
    length grid = Z.to_nat (4 * 2 * 3) /\
    forall vx vy vz, 0 <= vx < 4 -> 0 <= vy < 2 -> 0 <= vz < 3 ->
      grid !! Z.to_nat (vx + 4 * (vy + 2 * vz))
      = Some (F32.div
                (glm_length
                   (Vec3 (F32.sub (F32.of_Z vx) (F32.div (F32.of_Z 4) F32.two))
                         (F32.sub (F32.of_Z vy) (F32.div (F32.of_Z 2) F32.two))
                         (F32.sub (F32.of_Z vz) (F32.div (F32.of_Z 3) F32.two))))
                (F32.div (F32.of_Z 4) F32.two)).
Proof.
  apply (proj1 sphere_volume (fun x => x) (fun x => x) 4 2 3 []); reflexivity.
Defined.

(** ** Integers that [float] holds exactly *)

Lemma all_from_spec (P : Z -> bool) (count : nat) (lo : Z) :
  all_from P count lo = true ->
  forall n, lo <= n < lo + Z.of_nat count -> P n = true.
Proof.
  revert lo. induction count as [|c IH]; intros lo H n Hn; [lia|].
  simpl in H. apply andb_true_iff in H as [H0 H1].
  destruct (decide (n = lo)) as [->|Hne]; [exact H0|].
  apply (IH (lo + 1)); [exact H1|lia].
Qed.

Lemma exact_below_65536 : all_from exact_at (Z.to_nat 65536) 0 = true.
Proof. vm_compute. reflexivity. Qed.

Lemma of_Z_exact (n : Z) :
  0 <= n < 65536 -> F32.represents (F32.of_Z n) (inject_Z n).
Proof.
  intros Hn.
  pose proof (all_from_spec _ _ _ exact_below_65536 n) as H.
  unfold exact_at in H. unfold F32.represents.
  destruct (F32.value (F32.of_Z n)) as [q|]; [|discriminate H; lia].
  exists q. split; [reflexivity|]. apply Qeq_bool_eq, H. lia.
Qed.

(** ** Files and bytes *)

Lemma ifstream_read_length (file : option (list byte)) (count : Z) (buf : list byte) :
  (Z.to_nat count <= length buf)%nat ->
  length (ifstream_read file count buf) = length buf.
Proof.
  intros H. destruct file as [content|]; simpl; [|reflexivity].
  rewrite length_app, length_drop, length_take. lia.
Qed.

Lemma ifstream_read_got (content : list byte) (count : Z) (buf : list byte) (i : nat) :
  (i < bytes_read (Some content) count)%nat ->
  ifstream_read (Some content) count buf !! i = content !! i.
Proof.
  simpl. intros H.
  rewrite lookup_app_l by (rewrite length_take; lia).
  apply lookup_take_lt. lia.
Qed.

Lemma ifstream_read_rest (file : option (list byte)) (count : Z) (buf : list byte)
    (i : nat) :
  (bytes_read file count <= i)%nat ->
  ifstream_read file count buf !! i = buf !! i.
Proof.
  destruct file as [content|]; simpl; [|reflexivity]. intros H.
  rewrite lookup_app_r by (rewrite length_take; lia).
  rewrite lookup_drop, length_take. f_equal. lia.
Qed.

Lemma Z_of_byte_range (b : byte) : 0 <= Z_of_byte b < 256.
Proof.
  unfold Z_of_byte. pose proof (Byte.to_N_bounded b). lia.
Qed.

Lemma prog_bind_nil {A B : Type} (a : A) (f : A -> M B) :
  prog_bind ([], Ret a) f = f a.
Proof. unfold prog_bind. destruct (f a). reflexivity. Qed.

Lemma prog_bind_emit {B : Type} (e : event) (f : unit -> M B) :
  prog_bind (emit e) f = (e :: trace (f tt), result (f tt)).
Proof. unfold prog_bind, emit. destruct (f tt). reflexivity. Qed.

Lemma prog_bind_lift {A B : Type} (a : A) (f : A -> M B) :
  prog_bind (lift (Ret a)) f = f a.
Proof. apply prog_bind_nil. Qed.

Lemma parse_dims_range (name : string) (t : list event) (dims : uvec3) (ty : string) :
  parse_raw_file_name name = (t, Ret (Some (dims, ty))) ->
  (0 <= ux dims < UINT_MOD) /\ (0 <= uy dims < UINT_MOD) /\ (0 <= uz dims < UINT_MOD).
Proof.
  unfold parse_raw_file_name.
  destruct (regex_search _ _) as [[|m1 [|m2 [|m3 [|m4 [|m5 [|m6 ms]]]]]]|];
    try discriminate.
  unfold mbind, prog_mbind.
  destruct (stoi m2) as [x| |]; [|discriminate..].
  destruct (stoi m3) as [y| |]; [|discriminate..].
  destruct (stoi m4) as [z| |]; [|discriminate..].
  rewrite !prog_bind_lift. intros H. injection H as _ <- _. simpl.
  unfold to_unsigned, UINT_MOD. repeat split; apply Z.mod_pos_bound; lia.
Qed.

Lemma parsed_voxel_count (X Y Z0 w : Z) :
  0 <= X < UINT_MOD -> 0 <= Y < UINT_MOD -> 0 <= Z0 -> 0 < w ->
  X * Y * Z0 * w < SIZE_MOD ->
  size_mul (size_mul X Y) Z0 = X * Y * Z0 /\
  size_mul (X * Y * Z0) w = X * Y * Z0 * w.
Proof.
  intros HX HY HZ Hw Hfit. unfold size_mul, UINT_MOD, SIZE_MOD in *.
  rewrite (Z.mod_small (X * Y)) by nia.
  split; apply Z.mod_small; nia.
Qed.

(** ** [read_raw_volume] on integer volumes *)

Lemma store_loop (n : nat) (body : Z -> list float -> outcome (list float))
    (vals : nat -> float) (data : list float) :
  length data = n ->
  (forall k l, (k < n)%nat ->
     body (Z.of_nat k) l = vec_store (Z.of_nat k) (vals k) l) ->
  exists data',
    for_loop (Z.of_nat n) body data = Ret data' /\
    length data' = n /\
    forall k, (k < n)%nat -> data' !! k = Some (vals k).
Proof.
  intros Hlen Hbody.
  destruct (for_loop_covers n body (fun k j v => j = k /\ v = vals k)
              (fun j v => (j < n)%nat /\ v = vals j) 0 1 n 0 n) with (l := data)
    as (data' & Hrun & Hlen' & Hin & _); try lia.
  - intros k l Hk Hl. rewrite Hbody by exact Hk.
    destruct (writes_store (Z.of_nat k) (vals k) l) as (l' & Hst & Hw); [lia|].
    exists l'. split; [exact Hst|]. rewrite Nat2Z.id in Hw.
    eapply writes_weaken; [exact Hw| |lia|lia].
    intros j v [-> ->]. split; reflexivity.
  - intros j v [Hj ->]. exists j. repeat split. exact Hj.
  - exists data'. split; [exact Hrun|]. split; [lia|].
    intros k Hk. apply (Hin k (vals k)). split; [exact Hk|reflexivity].
Qed.

Lemma take1_drop {A : Type} (l : list A) (i : nat) (b : A) :
  l !! i = Some b -> take 1 (drop i l) = [b].
Proof. intros H. rewrite (drop_S _ _ _ H). reflexivity. Qed.

Lemma take2_drop {A : Type} (l : list A) (i : nat) (b0 b1 : A) :
  l !! i = Some b0 -> l !! S i = Some b1 -> take 2 (drop i l) = [b0; b1].
Proof.
  intros H0 H1. rewrite (drop_S _ _ _ H0), (drop_S _ _ _ H1). reflexivity.
Qed.

Lemma read_uint8_volume (order : byte_order) (fs : filesystem) (name : string)
    (data : list float) (dims0 dims : uvec3) :
  parse_raw_file_name name = ([], Ret (Some (dims, "uint8"))) ->
  ux dims * uy dims * uz dims < SIZE_MOD ->
  let nv := ux dims * uy dims * uz dims in
  let read_data :=
    ifstream_read (fs name) nv (replicate (Z.to_nat nv) x00) in
  exists grid,
    read_raw_volume order fs name data dims0
      = ([FileOpen name; FileRead name nv], Ret (true, grid, dims)) /\
    length grid = Z.to_nat nv /\
    forall k, (k < Z.to_nat nv)%nat ->
      grid !! k = Some (F32.of_Z (Z_of_byte (default x00 (read_data !! k)))).
Proof.
  intros Hparse Hfit nv read_data.
  destruct (parse_dims_range _ _ _ _ Hparse) as (HX & HY & HZ).
  destruct (parsed_voxel_count (ux dims) (uy dims) (uz dims) 1) as [Hnv Hbytes];
    try lia.
  rewrite Z.mul_1_r in Hbytes. fold nv in Hnv, Hbytes.
  assert (Hrd : length read_data = Z.to_nat nv).
  { unfold read_data. rewrite ifstream_read_length; rewrite length_replicate; lia. }
  destruct (store_loop (Z.to_nat nv)
              (fun i0 data0 => b ← vec_load i0 read_data;
                               vec_store i0 (F32.of_Z (Z_of_byte b)) data0)
              (fun k => F32.of_Z (Z_of_byte (default x00 (read_data !! k))))
              (vec_resize nv F32.zero data))
    as (grid & Hrun & Hglen & Hget).
  { apply length_resize. }
  { intros k l Hk. unfold vec_load.
    rewrite bool_decide_eq_true_2 by lia. rewrite Nat2Z.id.
    destruct (lookup_lt_is_Some_2 read_data k) as [b Hb]; [lia|].
    rewrite Hb. reflexivity. }
  rewrite Z2Nat.id in Hrun by lia.
  exists grid. split; [|split; [exact Hglen|exact Hget]].
  unfold read_raw_volume, mbind, prog_mbind.
  rewrite Hparse, prog_bind_nil. cbv beta iota.
  rewrite Hnv.
  rewrite (bool_decide_eq_true_2 ("uint8" ≠ "float32")) by done.
  rewrite (bool_decide_eq_true_2 ("uint8" = "uint8")) by done.
  rewrite Hbytes, length_replicate, Z2Nat.id by lia.
  fold read_data. unfold lift. unfold mbind in Hrun.
  rewrite Hrun. reflexivity.
Qed.

Lemma read_uint16_volume (order : byte_order) (fs : filesystem) (name : string)
    (data : list float) (dims0 dims : uvec3) :
  parse_raw_file_name name = ([], Ret (Some (dims, "uint16"))) ->
  ux dims * uy dims * uz dims * 2 < SIZE_MOD ->
  let nv := ux dims * uy dims * uz dims in
  let read_data :=
    ifstream_read (fs name) (nv * 2) (replicate (Z.to_nat (nv * 2)) x00) in
  exists grid,
    read_raw_volume order fs name data dims0
      = ([FileOpen name; FileRead name (nv * 2)], Ret (true, grid, dims)) /\
    length grid = Z.to_nat nv /\
    forall k, (k < Z.to_nat nv)%nat ->
      grid !! k = Some (F32.of_Z (word_value order
                                    [default x00 (read_data !! (2 * k)%nat);
                                     default x00 (read_data !! S (2 * k))])).
Proof.
  intros Hparse Hfit nv read_data.
  destruct (parse_dims_range _ _ _ _ Hparse) as (HX & HY & HZ).
  destruct (parsed_voxel_count (ux dims) (uy dims) (uz dims) 2) as [Hnv Hbytes];
    try lia.
  fold nv in Hnv, Hbytes.
  assert (Hrd : length read_data = Z.to_nat (nv * 2)).
  { unfold read_data. rewrite ifstream_read_length; rewrite length_replicate; lia. }
  destruct (store_loop (Z.to_nat nv)
              (fun i0 data0 => w ← load_uint16 order read_data i0;
                               vec_store i0 (F32.of_Z w) data0)
              (fun k => F32.of_Z (word_value order
                                    [default x00 (read_data !! (2 * k)%nat);
                                     default x00 (read_data !! S (2 * k))]))
              (vec_resize nv F32.zero data))
    as (grid & Hrun & Hglen & Hget).
  { apply length_resize. }
  { intros k l Hk. unfold load_uint16, vec_load.
    rewrite !bool_decide_eq_true_2 by lia.
    replace (Z.to_nat (2 * Z.of_nat k)) with (2 * k)%nat by lia.
    replace (Z.to_nat (2 * Z.of_nat k + 1)) with (S (2 * k)) by lia.
    destruct (lookup_lt_is_Some_2 read_data (2 * k)) as [b0 Hb0]; [lia|].
    destruct (lookup_lt_is_Some_2 read_data (S (2 * k))) as [b1 Hb1]; [lia|].
    rewrite Hb0, Hb1. reflexivity. }
  rewrite Z2Nat.id in Hrun by lia.
  exists grid. split; [|split; [exact Hglen|exact Hget]].
  unfold read_raw_volume, mbind, prog_mbind.
  rewrite Hparse, prog_bind_nil. cbv beta iota.
  rewrite Hnv.
  rewrite (bool_decide_eq_true_2 ("uint16" ≠ "float32")) by done.
  rewrite (bool_decide_eq_false_2 ("uint16" = "uint8")) by done.
  rewrite (bool_decide_eq_true_2 ("uint16" = "uint16")) by done.
  rewrite Hbytes, length_replicate, Z2Nat.id by lia.
  fold read_data. unfold lift. unfold mbind in Hrun.
  rewrite Hrun. reflexivity.
Qed.

Lemma read_float32_volume (order : byte_order) (fs : filesystem) (name : string)
    (data : list float) (dims0 dims : uvec3) :
  parse_raw_file_name name = ([], Ret (Some (dims, "float32"))) ->
  ux dims * uy dims * uz dims < SIZE_MOD ->
  let nv := ux dims * uy dims * uz dims in
  read_raw_volume order fs name data dims0
  = ([FileOpen name; FileRead name nv],
     Ret (true,
          floats_of_bytes order
            (ifstream_read (fs name) nv
               (bytes_of_floats order (vec_resize nv F32.zero data))),
          dims)).
Proof.
  intros Hparse Hfit nv.
  destruct (parse_dims_range _ _ _ _ Hparse) as (HX & HY & HZ).
  destruct (parsed_voxel_count (ux dims) (uy dims) (uz dims) 1) as [Hnv _];
    try lia.
  fold nv in Hnv.
  unfold read_raw_volume, mbind, prog_mbind.
  rewrite Hparse, prog_bind_nil. cbv beta iota.
  rewrite Hnv.
  rewrite (bool_decide_eq_false_2 ("float32" ≠ "float32")) by (intros H; apply H; reflexivity).
  replace (Z.of_nat (length (vec_resize nv F32.zero data))) with nv
    by (unfold vec_resize; rewrite length_resize; lia).
  reflexivity.
Qed.

Lemma read_other_volume (order : byte_order) (fs : filesystem) (name : string)
    (data : list float) (dims0 dims : uvec3) (ty : string) :
  parse_raw_file_name name = ([], Ret (Some (dims, ty))) ->
  ty <> "uint8" -> ty <> "uint16" -> ty <> "float32" ->
  read_raw_volume order fs name data dims0
  = ([FileOpen name; FileRead name 0],
     Ret (true,
          vec_resize (size_mul (size_mul (ux dims) (uy dims)) (uz dims))
                     F32.zero data,
          dims)).
Proof.
  intros Hparse H8 H16 H32.
  unfold read_raw_volume, mbind, prog_mbind.
  rewrite Hparse, prog_bind_nil. cbv beta iota.
  rewrite (bool_decide_eq_true_2 (ty ≠ "float32")) by exact H32.
  rewrite (bool_decide_eq_false_2 (ty = "uint8")) by exact H8.
  rewrite (bool_decide_eq_false_2 (ty = "uint16")) by exact H16.
  rewrite (bool_decide_eq_false_2 (ty = "float32")) by exact H32.
  unfold size_mul at 1. rewrite Z.mul_0_r. reflexivity.
Qed.

Lemma bytes_of_zeros (order : byte_order) (n : nat) :
  bytes_of_floats order (replicate n F32.zero) = replicate (4 * n) x00.
Proof.
  induction n as [|n IH]; [reflexivity|].
  replace (4 * S n)%nat with (S (S (S (S (4 * n))))) by lia.
  unfold bytes_of_floats in *. simpl flat_map. rewrite IH.
  destruct order; reflexivity.
Qed.

Lemma floats_of_bytes_length (order : byte_order) (n : nat) (bs : list byte) :
  length bs = (4 * n)%nat -> length (floats_of_bytes order bs) = n.
Proof.
  revert bs. induction n as [|n IH]; intros bs Hlen.
  - destruct bs; [reflexivity|discriminate].
  - destruct bs as [|b0 [|b1 [|b2 [|b3 bs]]]]; simpl in Hlen; try lia.
    simpl. f_equal. apply IH. lia.
Qed.

Lemma floats_of_bytes_lookup (order : byte_order) (bs : list byte) (i : nat)
    (b0 b1 b2 b3 : byte) :
  bs !! (4 * i)%nat = Some b0 -> bs !! (4 * i + 1)%nat = Some b1 ->
  bs !! (4 * i + 2)%nat = Some b2 -> bs !! (4 * i + 3)%nat = Some b3 ->
  floats_of_bytes order bs !! i
  = Some (F32.of_bits (word_value order [b0; b1; b2; b3])).
Proof.
  revert bs. induction i as [|i IH]; intros bs H0 H1 H2 H3.
  - destruct bs as [|c0 [|c1 [|c2 [|c3 bs]]]]; try discriminate.
    simpl in *. congruence.
  - replace (4 * S i)%nat with (S (S (S (S (4 * i))))) in * by lia.
    destruct bs as [|c0 [|c1 [|c2 [|c3 bs]]]]; try discriminate.
    simpl in *. apply IH; assumption.
Qed.

(** C6. In a raw volume of type uint8 or uint16, the float loaded for the
    voxel [i] stands for the unsigned integer that the [i]-th element of
    the file holds, unscaled; the byte 0xFF of a uint8 volume is 255.0. *)
Theorem unsigned_volume_values :
  (forall (order : byte_order) (fs : filesystem) (name : string)
     (data : list float) (dims0 dims : uvec3) (ty : string) (w : Z)
     (content : list byte) (i : Z),
     parse_raw_file_name name = ([], Ret (Some (dims, ty))) ->
     (ty = "uint8" /\ w = 1) \/ (ty = "uint16" /\ w = 2) ->
     ux dims * uy dims * uz dims * w < SIZE_MOD ->
     fs name = Some content ->
     0 <= i < ux dims * uy dims * uz dims ->
     (i + 1) * w <= Z.of_nat (length content) ->
     exists grid x,
       result (read_raw_volume order fs name data dims0) = Ret (true, grid, dims) /\
       length grid = Z.to_nat (ux dims * uy dims * uz dims) /\
       grid !! Z.to_nat i = Some x /\
       F32.represents x
         (inject_Z (word_value order
                      (take (Z.to_nat w) (drop (Z.to_nat (i * w)) content))))) /\
  (forall order : byte_order,
     exists x,
       result (read_raw_volume order (fun _ => Some [xff]) "v_1x1x1_uint8.raw"
                               [] (Uvec3 0 0 0))
         = Ret (true, [x], Uvec3 1 1 1) /\
       F32.represents x 255).
Proof.
  split; [|intros order; destruct order; (eexists; split; [vm_compute; reflexivity|]);
            (eexists; split; [reflexivity|reflexivity])].
  intros order fs name data dims0 dims ty w content i Hparse Hty Hfit Hfile Hi Hlen.
  destruct Hty as [[-> ->]|[-> ->]].
  - destruct (read_uint8_volume order fs name data dims0 dims Hparse)
      as (grid & Hrun & Hglen & Hget); [lia|].
    exists grid. eexists. rewrite Hrun.
    split; [reflexivity|]. split; [exact Hglen|].
    split; [apply Hget; lia|].
    destruct (lookup_lt_is_Some_2 content (Z.to_nat i)) as [b Hb]; [lia|].
    rewrite Hfile, ifstream_read_got, Hb by (simpl; lia).
    rewrite Z.mul_1_r. change (Z.to_nat 1) with 1%nat.
    rewrite (take1_drop _ _ _ Hb). simpl default.
    replace (word_value order [b]) with (Z_of_byte b)
      by (destruct order; simpl; lia).
    apply of_Z_exact. pose proof (Z_of_byte_range b). lia.
  - destruct (read_uint16_volume order fs name data dims0 dims Hparse)
      as (grid & Hrun & Hglen & Hget); [lia|].
    exists grid. eexists. rewrite Hrun.
    split; [reflexivity|]. split; [exact Hglen|].
    split; [apply Hget; lia|].
    destruct (lookup_lt_is_Some_2 content (2 * Z.to_nat i)) as [b0 Hb0]; [lia|].
    destruct (lookup_lt_is_Some_2 content (S (2 * Z.to_nat i))) as [b1 Hb1]; [lia|].
    rewrite Hfile, !ifstream_read_got, Hb0, Hb1 by (simpl; lia).
    change (Z.to_nat 2) with 2%nat.
    replace (Z.to_nat (i * 2)) with (2 * Z.to_nat i)%nat by lia.
    rewrite (take2_drop _ _ _ _ Hb0 Hb1). simpl default.
    apply of_Z_exact.
    pose proof (Z_of_byte_range b0). pose proof (Z_of_byte_range b1).
    destruct order; simpl; lia.
Qed.

Lemma unsigned_volume_values_witness :
  exists grid x,
    result (read_raw_volume BigEndian (fun _ => Some [x01; x02; x03; x04; x05; x06])
                            "v_1x1x3_uint16.raw" [] (Uvec3 0 0 0))
      = Ret (true, grid, Uvec3 1 1 3) /\
    length grid = Z.to_nat (1 * 1 * 3) /\
    grid !! Z.to_nat 1 = Some x /\
    F32.represents x
      (inject_Z (word_value BigEndian
                   (take (Z.to_nat 2)
                         (drop (Z.to_nat (1 * 2)) [x01; x02; x03; x04; x05; x06])))).
Proof.
  apply (proj1 unsigned_volume_values BigEndian
           (fun _ => Some [x01; x02; x03; x04; x05; x06]) "v_1x1x3_uint16.raw"
           [] (Uvec3 0 0 0) (Uvec3 1 1 3) "uint16" 2
           [x01; x02; x03; x04; x05; x06] 1).
  - reflexivity.
  - right. split; reflexivity.
  - reflexivity.
  - reflexivity.
  - simpl. lia.
  - simpl. lia.
Defined.

(** C5. When the file holds fewer bytes than the voxel count times the
    byte width, the load still succeeds, and every element of the grid
    that starts at or after the last byte obtained from the file is 0.0. *)
Theorem short_read_keeps_zero
    (order : byte_order) (fs : filesystem) (name : string) (dims : uvec3)
    (ty : string) (w : Z) (content : list byte) :
  parse_raw_file_name name = ([], Ret (Some (dims, ty))) ->
  (ty = "uint8" /\ w = 1) \/ (ty = "uint16" /\ w = 2) \/ (ty = "float32" /\ w = 4) ->
  ux dims * uy dims * uz dims * w < SIZE_MOD ->
  fs name = Some content ->
  Z.of_nat (length content) < ux dims * uy dims * uz dims * w ->
  exists grid count,
    read_raw_volume order fs name [] (Uvec3 0 0 0)
      = ([FileOpen name; FileRead name count], Ret (true, grid, dims)) /\
    length grid = Z.to_nat (ux dims * uy dims * uz dims) /\
    forall i, 0 <= i < ux dims * uy dims * uz dims ->
      Z.of_nat (bytes_read (fs name) count) <= i * w ->
      grid !! Z.to_nat i = Some F32.zero.
Proof.
  intros Hparse Hty Hfit Hfile Hshort.
  destruct (parse_dims_range _ _ _ _ Hparse) as (HX & HY & HZ).
  set (nv := ux dims * uy dims * uz dims) in *.
  assert (Hnv : 0 <= nv) by (unfold nv; nia).
  destruct Hty as [[-> ->]|[[-> ->]|[-> ->]]].
  - destruct (read_uint8_volume order fs name [] (Uvec3 0 0 0) dims Hparse)
      as (grid & Hrun & Hglen & Hget); [fold nv; lia|].
    exists grid, nv. split; [exact Hrun|]. split; [exact Hglen|].
    intros i Hi Hbeyond. rewrite Hget by (fold nv; lia). fold nv.
    rewrite ifstream_read_rest by lia.
    rewrite lookup_replicate_2 by lia. reflexivity.
  - destruct (read_uint16_volume order fs name [] (Uvec3 0 0 0) dims Hparse)
      as (grid & Hrun & Hglen & Hget); [fold nv; lia|].
    exists grid, (nv * 2). split; [exact Hrun|]. split; [exact Hglen|].
    intros i Hi Hbeyond. rewrite Hget by (fold nv; lia). fold nv.
    rewrite !ifstream_read_rest by lia.
    rewrite !lookup_replicate_2 by lia.
    destruct order; reflexivity.
  - exists (floats_of_bytes order
              (ifstream_read (fs name) nv
                 (bytes_of_floats order (vec_resize nv F32.zero [])))), nv.
    split; [apply read_float32_volume; [exact Hparse|fold nv; lia]|].
    unfold vec_resize. rewrite resize_nil, bytes_of_zeros.
    split.
    + apply floats_of_bytes_length.
      rewrite ifstream_read_length; rewrite length_replicate; lia.
    + intros i Hi Hbeyond.
      rewrite (floats_of_bytes_lookup order _ (Z.to_nat i) x00 x00 x00 x00).
      * destruct order; reflexivity.
      * rewrite ifstream_read_rest by lia. apply lookup_replicate_2. lia.
      * rewrite ifstream_read_rest by lia. apply lookup_replicate_2. lia.
      * rewrite ifstream_read_rest by lia. apply lookup_replicate_2. lia.
      * rewrite ifstream_read_rest by lia. apply lookup_replicate_2. lia.
Qed.

Lemma short_read_keeps_zero_witness :
  exists grid count,
    read_raw_volume LittleEndian (fun _ => Some [x01; x02; x03])
                    "v_1x1x3_uint16.raw" [] (Uvec3 0 0 0)
      = ([FileOpen "v_1x1x3_uint16.raw"; FileRead "v_1x1x3_uint16.raw" count],
         Ret (true, grid, Uvec3 1 1 3)) /\
    length grid = Z.to_nat (1 * 1 * 3) /\
    forall i, 0 <= i < 1 * 1 * 3 ->
      Z.of_nat (bytes_read (Some [x01; x02; x03]) count) <= i * 2 ->
      grid !! Z.to_nat i = Some F32.zero.
Proof.
  apply (short_read_keeps_zero LittleEndian (fun _ => Some [x01; x02; x03])
           "v_1x1x3_uint16.raw" (Uvec3 1 1 3) "uint16" 2 [x01; x02; x03]).
  - reflexivity.
  - right. left. split; reflexivity.
  - reflexivity.
  - reflexivity.
  - reflexivity.
Defined.

(** ** Where the loader departs from its description *)

(** C1. A file name whose type is none of uint8, uint16 and float32: the
    load asks the file for zero bytes and reports success with a grid of
    zeros, and [main] goes on to compress it and returns 0. *)
Theorem unrecognized_type_loads_zeros
    (order : byte_order) (fs : filesystem) (sinf cosf : float -> float) :
  read_raw_volume order fs "v_2x2x2_int32.raw" [] (Uvec3 0 0 0)
    = ([FileOpen "v_2x2x2_int32.raw"; FileRead "v_2x2x2_int32.raw" 0],
       Ret (true, replicate 8 F32.zero, Uvec3 2 2 2)) /\
  result (main sinf cosf order null_codec fs
               ["-raw"; "v_2x2x2_int32.raw"; "-crate"; "8"]) = Ret 0 /\
  In (CodecCompress (Uvec3 2 2 2) (replicate 8 F32.zero))
     (trace (main sinf cosf order null_codec fs
                  ["-raw"; "v_2x2x2_int32.raw"; "-crate"; "8"])).
Proof.
  split; [vm_compute; reflexivity|].
  split; [vm_compute; reflexivity|].
  vm_compute. tauto.
Qed.

(** C2. A float32 volume of two voxels in a file of eight bytes: the load
    asks the file for two bytes, the voxel count, not for eight; the
    second voxel is never read. *)
Theorem float32_reads_voxel_count_bytes :
  let file := [x01; x02; x03; x04; x05; x06; x07; x08] in
  let name := "v_2x1x1_float32.raw" in
  read_raw_volume LittleEndian (fun _ => Some file) name [] (Uvec3 0 0 0)
    = ([FileOpen name; FileRead name 2],
       Ret (true,
            floats_of_bytes LittleEndian [x01; x02; x00; x00; x00; x00; x00; x00],
            Uvec3 2 1 1)) /\
  floats_of_bytes LittleEndian [x01; x02; x00; x00; x00; x00; x00; x00]
    <> floats_of_bytes LittleEndian file /\
  2 <> 2 * 1 * 1 * 4.
Proof.
  split; [vm_compute; reflexivity|].
  split; [vm_compute; discriminate|lia].
Qed.

(** ** The pattern matcher *)

Lemma greedy_sound {R : Type} (cls : ascii -> bool)
    (k : list ascii -> list ascii -> option R) (acc s : list ascii) (r : R) :
  greedy cls k acc s = Some r ->
  exists w s', w <> [] /\ forallb cls w = true /\ s = w ++ s' /\
               k (acc ++ w) s' = Some r.
Proof.
  revert acc. induction s as [|c s IH]; intros acc H; [discriminate|].
  simpl in H. destruct (cls c) eqn:Hc; [|discriminate].
  destruct (greedy cls k (acc ++ [c]) s) as [r'|] eqn:Hg.
  - injection H as ->. destruct (IH _ Hg) as (w & s' & Hw & Hcls & -> & Hk).
    exists (c :: w), s'. rewrite <- app_assoc in Hk.
    repeat split; [discriminate|simpl; rewrite Hc; exact Hcls|exact Hk].
  - exists [c], s. repeat split; [discriminate|simpl; rewrite Hc; reflexivity|exact H].
Qed.


Lemma match_here_sound (ps : list piece) (acc : list (list ascii)) (s : list ascii)
    (caps : list (list ascii)) :
  match_here ps acc s = Some caps ->
  exists caps' rest, caps = acc ++ caps' /\ matches ps s caps' rest.
Proof.
  revert acc s. induction ps as [|[c|cls] ps IH]; intros acc s H; simpl in H.
  - injection H as <-. exists [], s. rewrite app_nil_r. split; [reflexivity|constructor].
  - destruct s as [|c' s]; [discriminate|].
    destruct (bool_decide (c' = c)) eqn:Hc; [|discriminate].
    apply bool_decide_eq_true_1 in Hc as ->.
    destruct (IH _ _ H) as (caps' & rest & -> & Hm).
    exists caps', rest. split; [reflexivity|constructor; exact Hm].
  - destruct (greedy_sound _ _ _ _ _ H) as (w & s' & Hw & Hcls & -> & Hk).
    destruct (IH _ _ Hk) as (caps' & rest & -> & Hm).
    exists (w :: caps'), rest. rewrite <- app_assoc.
    split; [reflexivity|constructor; assumption].
Qed.


Lemma regex_search_sound (ps : list piece) (s : list ascii) (caps : list (list ascii)) :
  regex_search ps s = Some caps ->
  exists pre s', s = pre ++ s' /\ match_here ps [] s' = Some caps.
Proof.
  induction s as [|c s IH]; simpl; intros H.
  - destruct (match_here ps [] []) eqn:Hm; [|discriminate].
    exists [], []. split; [reflexivity|congruence].
  - destruct (match_here ps [] (c :: s)) eqn:Hm.
    + exists [], (c :: s). split; [reflexivity|congruence].
    + destruct (IH H) as (pre & s' & -> & Hs).
      exists (c :: pre), s'. split; [reflexivity|exact Hs].
Qed.





Lemma matches_filename (s : list ascii) (caps : list (list ascii)) (rest : list ascii) :
  matches match_filename s caps rest ->
  exists n X Y Z0 d,
    caps = [n; X; Y; Z0; d] /\ contains_convention s [] n X Y Z0 d rest.
Proof.
  unfold match_filename. intros H.
  inversion H as [| |? ? n s1 c1 ? Hn Hcn H1]; subst; clear H.
  inversion H1 as [|? ? ? ? ? H2|]; subst; clear H1.
  inversion H2 as [| |? ? X s3 c3 ? HX HcX H3]; subst; clear H2.
  inversion H3 as [|? ? ? ? ? H4|]; subst; clear H3.
  inversion H4 as [| |? ? Y s5 c5 ? HY HcY H5]; subst; clear H4.
  inversion H5 as [|? ? ? ? ? H6|]; subst; clear H5.
  inversion H6 as [| |? ? Z0 s7 c7 ? HZ HcZ H7]; subst; clear H6.
  inversion H7 as [|? ? ? ? ? H8|]; subst; clear H7.
  inversion H8 as [| |? ? d s9 c9 ? Hd Hcd H9]; subst; clear H8.
  inversion H9 as [|? ? ? ? ? H10|]; subst; clear H9.
  inversion H10 as [|? ? ? ? ? H11|]; subst; clear H10.
  inversion H11 as [|? ? ? ? ? H12|]; subst; clear H11.
  inversion H12 as [|? ? ? ? ? H13|]; subst; clear H12.
  inversion H13; subst; clear H13.
  exists n, X, Y, Z0, d. split; [reflexivity|].
  unfold contains_convention, decimal, dot_raw. simpl. tauto.
Qed.


(** ** The name parser *)

Lemma digit_is_plain (c : ascii) :
  is_digit c = true ->
  is_space c = false /\ c <> "-"%char /\ c <> "+"%char /\ 0 <= digit_value c <= 9.
Proof.
  destruct c as [[] [] [] [] [] [] [] []]; vm_compute; intros H;
    try discriminate H; repeat split; congruence.
Qed.

Lemma read_digits_nonneg (s : list ascii) (acc : Z) :
  0 <= acc -> 0 <= read_digits acc s.
Proof.
  revert acc. induction s as [|c s IH]; intros acc Hacc; simpl; [exact Hacc|].
  destruct (is_digit c) eqn:Hc; [|exact Hacc].
  apply IH. destruct (digit_is_plain c Hc) as (_ & _ & _ & Hd). lia.
Qed.

Lemma parse_integer_decimal (s : list ascii) :
  decimal s -> parse_integer s = Some (decimal_value s).
Proof.
  intros [Hne Hd]. destruct s as [|c s]; [congruence|].
  simpl in Hd. apply andb_true_iff in Hd as [Hc Hd].
  destruct (digit_is_plain c Hc) as (Hsp & Hminus & Hplus & _).
  unfold parse_integer. simpl skip_spaces. rewrite Hsp.
  destruct (Ascii.ascii_dec c "-") as [->|_]; [congruence|].
  destruct (Ascii.ascii_dec c "+") as [->|_]; [congruence|].
  destruct c as [[] [] [] [] [] [] [] []]; try discriminate Hc; reflexivity.
Qed.

Lemma stoi_decimal (s : list ascii) :
  decimal s -> decimal_value s <= INT_MAX ->
  stoi s = Ret (decimal_value s) /\ to_unsigned (decimal_value s) = decimal_value s.
Proof.
  intros Hd Hmax. unfold stoi. rewrite (parse_integer_decimal s Hd).
  pose proof (read_digits_nonneg s 0 (Z.le_refl 0)) as Hpos.
  fold (decimal_value s) in Hpos. unfold INT_MAX, INT_MIN in *.
  split.
  - rewrite bool_decide_eq_true_2 by lia. reflexivity.
  - unfold to_unsigned, UINT_MOD. apply Z.mod_small. lia.
Qed.

Lemma stoi_decimal_cases (s : list ascii) :
  decimal s ->
  (stoi s = Ret (decimal_value s) /\ 0 <= decimal_value s <= INT_MAX /\
   to_unsigned (decimal_value s) = decimal_value s) \/
  (stoi s = Throw out_of_range /\ INT_MAX < decimal_value s).
Proof.
  intros Hd.
  pose proof (read_digits_nonneg s 0 (Z.le_refl 0)) as Hpos.
  fold (decimal_value s) in Hpos.
  destruct (Z.le_gt_cases (decimal_value s) INT_MAX) as [Hle|Hgt].
  - left. destruct (stoi_decimal s Hd Hle) as [Hs Hu]. repeat split; assumption.
  - right. split; [|lia]. unfold stoi. rewrite (parse_integer_decimal s Hd).
    rewrite bool_decide_eq_false_2 by lia. reflexivity.
Qed.

Lemma parse_refused (name : string) :
  regex_search match_filename (chars name) = None ->
  parse_raw_file_name name = ([Cerr (MsgNamingScheme name)], Ret None).
Proof.
  unfold parse_raw_file_name, chars. intros ->. reflexivity.
Qed.


Lemma search_finds_convention (s : list ascii) (caps : list (list ascii)) :
  regex_search match_filename s = Some caps ->
  exists pre n X Y Z0 d post,
    caps = [n; X; Y; Z0; d] /\ contains_convention s pre n X Y Z0 d post.
Proof.
  intros H.
  destruct (regex_search_sound _ _ _ H) as (pre & s' & -> & Hm).
  destruct (match_here_sound _ _ _ _ Hm) as (caps' & rest & -> & Hmatch).
  destruct (matches_filename _ _ _ Hmatch)
    as (n & X & Y & Z0 & d & -> & Heq & Hrest).
  exists pre, n, X, Y, Z0, d, rest. split; [reflexivity|].
  split; [|exact Hrest]. simpl in Heq. rewrite Heq. reflexivity.
Qed.






(** Two names with more than one such part: the type runs to the last
    [.raw], and the name of the volume takes in an earlier group of
    numbers. *)
Lemma settles_on_examples :
  ~ settles_on (chars "v_1x1x1_a.raw.raw")
      [] (chars "v") (chars "1") (chars "1") (chars "1") (chars "a") (chars ".raw") /\
  parse_raw_file_name "v_1x1x1_a.raw.raw" = ([], Ret (Some (Uvec3 1 1 1, "a.raw"))) /\
  ~ settles_on (chars "a_1x2x3_b_2x1x2_uint8.raw")
      [] (chars "a") (chars "1") (chars "2") (chars "3") (chars "b_2x1x2_uint8") [] /\
  parse_raw_file_name "a_1x2x3_b_2x1x2_uint8.raw"
  = ([], Ret (Some (Uvec3 2 1 2, "uint8"))).
Proof.
  split; [|split; [reflexivity|split; [|reflexivity]]].
  - intros [_ H].
    assert (Hc : contains_convention (chars "v_1x1x1_a.raw.raw")
                   [] (chars "v") (chars "1") (chars "1") (chars "1")
                   (chars "a.raw") []).
    { unfold contains_convention, decimal.
      repeat split; try reflexivity; discriminate. }
    specialize (H _ _ _ _ _ _ _ Hc). simpl in H. lia.
  - intros [_ H].
    assert (Hc : contains_convention (chars "a_1x2x3_b_2x1x2_uint8.raw")
                   [] (chars "a_1x2x3_b") (chars "2") (chars "1") (chars "2")
                   (chars "uint8") []).
    { unfold contains_convention, decimal.
      repeat split; try reflexivity; discriminate. }
    specialize (H _ _ _ _ _ _ _ Hc). simpl in H. lia.
Qed.


(** ** Whole numbers in [float] *)




(** ** The argument loop *)

Lemma prog_bind_throw {A B : Type} (e : exn) (f : A -> M B) :
  prog_bind (lift (Throw e)) f = ([], Throw e).
Proof. reflexivity. Qed.

Lemma prog_bind_undefined {A B : Type} (f : A -> M B) :
  prog_bind (lift Undefined) f = ([], Undefined).
Proof. reflexivity. Qed.

Lemma parse_args_cases (n : nat) :
  forall args o, (length args <= n)%nat ->
    (exists o', parse_args args o = ([], Ret (Some o')) /\ parsed args o o') \/
    ((forall o', result (parse_args args o) <> Ret (Some o')) /\
     Forall (fun e => quiet e = true) (trace (parse_args args o))).
Proof.
  induction n as [|n IH]; intros args o Hlen.
  - destruct args; [|simpl in Hlen; lia].
    left. exists o. split; [reflexivity|constructor].
  - destruct args as [|arg rest].
    { left. exists o. split; [reflexivity|constructor]. }
    simpl in Hlen. cbn [parse_args]. unfold mbind, prog_mbind.
    assert (Hstop : forall (t : list event) (r : outcome (option options)),
               Forall (fun e => quiet e = true) t ->
               (forall o', r <> Ret (Some o')) ->
               (exists o', (t, r) = ([], Ret (Some o')) /\ parsed (arg :: rest) o o') \/
               ((forall o', result (t, r) <> Ret (Some o')) /\
                Forall (fun e => quiet e = true) (trace (t, r)))).
    { intros t r Ht Hr. right. split; assumption. }
    destruct (bool_decide (arg = "-crate")) eqn:Hcrate.
    { apply bool_decide_eq_true_1 in Hcrate as ->.
      destruct rest as [|a rest]; [apply Hstop; [constructor|discriminate]|].
      simpl next_arg. rewrite prog_bind_lift.
      destruct (stoi (String.list_ascii_of_string a)) as [rate|e|] eqn:Hrate;
        [|apply Hstop; [constructor|discriminate]..].
      rewrite prog_bind_lift.
      destruct (IH rest (set_compression_rate rate o)) as [(o' & Hrun & Hp)|[Hno Hq]];
        [simpl in Hlen; lia| |].
      - left. exists o'. split; [exact Hrun|]. econstructor; eassumption.
      - right. split; assumption. }
    destruct (bool_decide (arg = "-raw")) eqn:Hraw.
    { apply bool_decide_eq_true_1 in Hraw as ->.
      destruct rest as [|a rest]; [apply Hstop; [constructor|discriminate]|].
      simpl next_arg. rewrite prog_bind_lift.
      destruct (IH rest (set_raw a o)) as [(o' & Hrun & Hp)|[Hno Hq]];
        [simpl in Hlen; lia| |].
      - left. exists o'. split; [exact Hrun|]. econstructor; eassumption.
      - right. split; assumption. }
    destruct (bool_decide (arg = "-gen")) eqn:Hgen.
    { apply bool_decide_eq_true_1 in Hgen as ->.
      destruct rest as [|a rest]; [apply Hstop; [constructor|discriminate]|].
      simpl next_arg. rewrite prog_bind_lift.
      destruct (IH rest (set_gen a o)) as [(o' & Hrun & Hp)|[Hno Hq]];
        [simpl in Hlen; lia| |].
      - left. exists o'. split; [exact Hrun|]. econstructor; eassumption.
      - right. split; assumption. }
    destruct (bool_decide (arg = "-dims")) eqn:Hdims.
    { apply bool_decide_eq_true_1 in Hdims as ->.
      destruct rest as [|a rest]; [apply Hstop; [constructor|discriminate]|].
      simpl next_arg. rewrite prog_bind_lift.
      destruct (stoul (String.list_ascii_of_string a)) as [x|e|] eqn:Hx;
        [|apply Hstop; [constructor|discriminate]..].
      rewrite prog_bind_lift. simpl tail.
      destruct rest as [|b rest]; [apply Hstop; [constructor|discriminate]|].
      simpl next_arg. rewrite prog_bind_lift.
      destruct (stoul (String.list_ascii_of_string b)) as [y|e|] eqn:Hy;
        [|apply Hstop; [constructor|discriminate]..].
      rewrite prog_bind_lift. simpl tail.
      destruct rest as [|c rest]; [apply Hstop; [constructor|discriminate]|].
      simpl next_arg. rewrite prog_bind_lift.
      destruct (stoul (String.list_ascii_of_string c)) as [z|e|] eqn:Hz;
        [|apply Hstop; [constructor|discriminate]..].
      rewrite prog_bind_lift.
      destruct (IH rest (set_dims x y z o)) as [(o' & Hrun & Hp)|[Hno Hq]];
        [simpl in Hlen; lia| |].
      - left. exists o'. split; [exact Hrun|]. econstructor; eassumption.
      - right. split; assumption. }
    apply Hstop; [repeat constructor|discriminate].
Qed.

Lemma parsed_sound (args : list string) (o o' : options) :
  parsed args o o' -> parse_args args o = ([], Ret (Some o')).
Proof.
  induction 1 as [o|a rest rate o o' Hrate _ IH|a rest o o' _ IH|a rest o o' _ IH
                 |a b c rest x y z o o' Hx Hy Hz _ IH];
    cbn [parse_args]; unfold mbind, prog_mbind, chars in *.
  - reflexivity.
  - rewrite bool_decide_eq_true_2 by reflexivity.
    simpl next_arg. rewrite prog_bind_lift, Hrate, prog_bind_lift. exact IH.
  - rewrite bool_decide_eq_false_2, bool_decide_eq_true_2 by done.
    simpl next_arg. rewrite prog_bind_lift. exact IH.
  - rewrite !bool_decide_eq_false_2, bool_decide_eq_true_2 by done.
    simpl next_arg. rewrite prog_bind_lift. exact IH.
  - rewrite !bool_decide_eq_false_2, bool_decide_eq_true_2 by done.
    simpl next_arg. simpl tail.
    rewrite prog_bind_lift, Hx, prog_bind_lift, prog_bind_lift, Hy, prog_bind_lift,
      prog_bind_lift, Hz, prog_bind_lift.
    exact IH.
Qed.



Lemma parse_args_parsed (args : list string) (o o' : options) (t : list event) :
  parse_args args o = (t, Ret (Some o')) -> t = [] /\ parsed args o o'.
Proof.
  intros H.
  destruct (parse_args_cases (length args) args o (le_n _))
    as [(o'' & Hrun & Hp)|[Hno _]].
  - rewrite Hrun in H. injection H as <- <-. split; [reflexivity|exact Hp].
  - destruct (Hno o'). rewrite H. reflexivity.
Qed.

Lemma parsed_continues (args rest : list string) (o o1 : options) :
  parsed args o o1 -> parse_args (args ++ rest) o = parse_args rest o1.
Proof.
  induction 1 as [o|a args rate o o' Hrate _ IH|a args o o' _ IH|a args o o' _ IH
                 |a b c args x y z o o' Hx Hy Hz _ IH];
    simpl app; [reflexivity|..]; cbn [parse_args];
    unfold mbind, prog_mbind, chars in *.
  - rewrite bool_decide_eq_true_2 by reflexivity.
    simpl next_arg. rewrite prog_bind_lift, Hrate, prog_bind_lift. exact IH.
  - rewrite bool_decide_eq_false_2, bool_decide_eq_true_2 by done.
    simpl next_arg. rewrite prog_bind_lift. exact IH.
  - rewrite !bool_decide_eq_false_2, bool_decide_eq_true_2 by done.
    simpl next_arg. rewrite prog_bind_lift. exact IH.
  - rewrite !bool_decide_eq_false_2, bool_decide_eq_true_2 by done.
    simpl next_arg. simpl tail.
    rewrite prog_bind_lift, Hx, prog_bind_lift, prog_bind_lift, Hy, prog_bind_lift,
      prog_bind_lift, Hz, prog_bind_lift.
    exact IH.
Qed.





(** ** What [main] does before it calls the codec *)

Lemma quiet_bind {A B : Type} (m : M A) (f : A -> M B) :
  Forall (fun e => quiet e = true) (trace m) ->
  (forall a, Forall (fun e => quiet e = true) (trace (f a))) ->
  Forall (fun e => quiet e = true) (trace (prog_bind m f)).
Proof.
  intros Hm Hf. destruct m as [t [a| |]]; simpl in *; try exact Hm.
  specialize (Hf a). destruct (f a) as [t' r]. simpl in *.
  apply Forall_app. split; assumption.
Qed.

Ltac quiet_steps :=
  repeat first
    [ apply quiet_bind; [|intros ?]
    | apply Forall_nil_2
    | apply Forall_cons_2; [reflexivity|]
    | case_match ].

Lemma read_raw_volume_quiet (order : byte_order) (fs : filesystem) (name : string)
    (data : list float) (dims : uvec3) :
  Forall (fun e => quiet e = true) (trace (read_raw_volume order fs name data dims)).
Proof.
  unfold read_raw_volume, parse_raw_file_name, mbind, prog_mbind, mret, prog_ret,
    emit, lift.
  quiet_steps.
Qed.

Lemma generate_volume_quiet (sinf cosf : float -> float) (name : string)
    (dims : uvec3) (data : list float) :
  Forall (fun e => quiet e = true) (trace (generate_volume sinf cosf name dims data)).
Proof.
  unfold generate_volume, mbind, prog_mbind, mret, prog_ret, emit, lift.
  quiet_steps.
Qed.

Lemma acquire_volume_quiet (sinf cosf : float -> float) (order : byte_order)
    (fs : filesystem) (o : options) :
  Forall (fun e => quiet e = true) (trace (acquire_volume sinf cosf order fs o)).
Proof.
  unfold acquire_volume, mbind, prog_mbind.
  destruct (raw_volume_mode o).
  - apply quiet_bind; [apply read_raw_volume_quiet|].
    intros [[ok data] dims]. unfold mret, prog_ret, emit. quiet_steps.
  - apply quiet_bind; [apply generate_volume_quiet|].
    intros [ok data]. unfold mret, prog_ret, emit. quiet_steps.
Qed.

Lemma compress_and_save_rejects (zfp : codec) (rate : Z) (out_name : string)
    (data : list float) (dims : uvec3) :
  let used := zfp_stream_set_rate zfp rate in
  F32.neq (F32.floor used) used = true ->
  compress_and_save zfp rate out_name data dims
  = ([CodecSetRate rate; Cout (MsgUsedRate used); Cout MsgNonIntegerRate], Ret 1).
Proof.
  intros used H. unfold compress_and_save. fold used. rewrite H. reflexivity.
Qed.




(** A run that goes through the argument loop, the tests on the modes and
    the acquisition of the volume goes on with [compress_and_save]. *)
Lemma main_run (sinf cosf : float -> float) (order : byte_order) (zfp : codec)
    (fs : filesystem) (args : list string) (o : options) (t : list event)
    (out_name : string) (data : list float) (dims : uvec3) :
  ~ In "-h" args ->
  parsed args initial_options o ->
  modes_accepted o = true ->
  acquire_volume sinf cosf order fs o = (t, Ret (Some (out_name, data, dims))) ->
  main sinf cosf order zfp fs args
  = (t ++ Cout (MsgUncompressedSize (size_mul (Z.of_nat (length data)) 4))
       :: trace (compress_and_save zfp (compression_rate o) out_name data dims),
     result (compress_and_save zfp (compression_rate o) out_name data dims)).
Proof.
  intros Hh Hp Hmodes Hacq. unfold main.
  rewrite bool_decide_eq_false_2 by (rewrite list_elem_of_In; exact Hh).
  unfold mbind, prog_mbind. rewrite (parsed_sound _ _ _ Hp), prog_bind_nil.
  unfold modes_accepted in Hmodes.
  apply andb_true_iff in Hmodes as [Hmodes H3].
  apply andb_true_iff in Hmodes as [H1 H2].
  apply negb_true_iff in H1, H2, H3. rewrite H1, H2, H3.
  rewrite Hacq. unfold prog_bind at 1.
  rewrite prog_bind_emit.
  destruct (compress_and_save _ _ _ _ _) as [t' r]. reflexivity.
Qed.


(** ** Every [int] can be written for [std::stoi] *)





(** ** The rate *)








(** ** Rounding yields numbers of the format *)

Lemma digits2_pos_bounds (p : positive) :
  2 ^ (Z.pos (digits2_pos p) - 1) <= Z.pos p < 2 ^ Z.pos (digits2_pos p).
Proof.
  induction p as [p IH|p IH|]; simpl digits2_pos.
  - rewrite Pos2Z.inj_succ.
    replace (Z.succ (Z.pos (digits2_pos p)) - 1) with (Z.succ (Z.pos (digits2_pos p) - 1)) by lia.
    rewrite !Z.pow_succ_r by lia. lia.
  - rewrite Pos2Z.inj_succ.
    replace (Z.succ (Z.pos (digits2_pos p)) - 1) with (Z.succ (Z.pos (digits2_pos p) - 1)) by lia.
    rewrite !Z.pow_succ_r by lia. lia.
  - simpl. lia.
Qed.

Lemma Zdigits2_unique (m d : Z) :
  2 ^ (d - 1) <= m < 2 ^ d -> 0 < d -> Zdigits2 m = d.
Proof.
  intros Hm Hd.
  assert (Hpos : 0 < m).
  { assert (0 < 2 ^ (d - 1)) by (apply Z.pow_pos_nonneg; lia). lia. }
  destruct m as [|p|p]; try lia. simpl.
  pose proof (digits2_pos_bounds p) as Hb.
  destruct (Z.lt_trichotomy (Z.pos (digits2_pos p)) d) as [Hlt|[Heq|Hgt]];
    [|exact Heq|].
  - assert (2 ^ Z.pos (digits2_pos p) <= 2 ^ (d - 1))
      by (apply Z.pow_le_mono_r; lia). lia.
  - assert (2 ^ d <= 2 ^ (Z.pos (digits2_pos p) - 1))
      by (apply Z.pow_le_mono_r; lia). lia.
Qed.

Lemma Zdigits2_bounds (m : Z) :
  0 < m -> 0 < Zdigits2 m /\ 2 ^ (Zdigits2 m - 1) <= m < 2 ^ Zdigits2 m.
Proof.
  destruct m as [|p|p]; try lia. intros _. simpl.
  split; [lia|apply digits2_pos_bounds].
Qed.

Lemma Zdigits2_nonneg (m : Z) : 0 <= Zdigits2 m.
Proof. destruct m; simpl; lia. Qed.

Lemma Zdigits2_mono (a b : Z) : 0 <= a <= b -> Zdigits2 a <= Zdigits2 b.
Proof.
  intros [Ha Hab]. destruct (Z.eq_dec a 0) as [->|Hne].
  - apply Zdigits2_nonneg.
  - destruct (Zdigits2_bounds a ltac:(lia)) as [Hda Hba].
    destruct (Zdigits2_bounds b ltac:(lia)) as [Hdb Hbb].
    destruct (Z.le_gt_cases (Zdigits2 a) (Zdigits2 b)) as [H|H]; [exact H|].
    assert (2 ^ Zdigits2 b <= 2 ^ (Zdigits2 a - 1))
      by (apply Z.pow_le_mono_r; lia). lia.
Qed.

Lemma Zdigits2_div_pow2 (m n : Z) :
  0 < m -> 0 <= n ->
  (n < Zdigits2 m /\ Zdigits2 (m / 2 ^ n) = Zdigits2 m - n) \/
  (Zdigits2 m <= n /\ m / 2 ^ n = 0).
Proof.
  intros Hm Hn. destruct (Zdigits2_bounds m Hm) as [Hd Hb].
  assert (H2n : 0 < 2 ^ n) by (apply Z.pow_pos_nonneg; lia).
  destruct (Z.lt_ge_cases n (Zdigits2 m)) as [Hlt|Hge].
  - left. split; [exact Hlt|]. apply Zdigits2_unique; [|lia]. split.
    + apply Z.div_le_lower_bound; [exact H2n|].
      rewrite <- Z.pow_add_r by lia.
      replace (n + (Zdigits2 m - n - 1)) with (Zdigits2 m - 1) by lia. lia.
    + apply Z.div_lt_upper_bound; [exact H2n|].
      rewrite <- Z.pow_add_r by lia.
      replace (n + (Zdigits2 m - n)) with (Zdigits2 m) by lia. lia.
  - right. split; [lia|]. apply Z.div_small.
    assert (2 ^ Zdigits2 m <= 2 ^ n) by (apply Z.pow_le_mono_r; lia). lia.
Qed.

Lemma shr_1_m (r : shr_record) : 0 <= shr_m r -> shr_m (shr_1 r) = shr_m r / 2.
Proof.
  destruct r as [m rb sb]. simpl. intros Hm.
  destruct m as [|[p|p|]|p]; cbn [shr_1 shr_m]; try lia; try reflexivity.
  - apply (Z.div_unique _ _ _ 1); lia.
  - apply (Z.div_unique _ _ _ 0); lia.
Qed.

Lemma iter_pos_shr_1_m (n : positive) (r : shr_record) :
  0 <= shr_m r -> shr_m (iter_pos shr_1 n r) = shr_m r / 2 ^ Z.pos n.
Proof.
  revert r. induction n as [n IH|n IH|]; intros r Hr; simpl iter_pos.
  - assert (H1 : 0 <= shr_m (shr_1 r))
      by (rewrite shr_1_m by exact Hr; apply Z.div_pos; lia).
    assert (H2 : 0 <= shr_m (iter_pos shr_1 n (shr_1 r)))
      by (rewrite IH by exact H1; apply Z.div_pos; [exact H1|apply Z.pow_pos_nonneg; lia]).
    rewrite IH, IH, shr_1_m by assumption.
    rewrite !Z.div_div by (try apply Z.pow_pos_nonneg; lia).
    f_equal. replace (Z.pos n~1) with (1 + Z.pos n + Z.pos n) by lia.
    rewrite !Z.pow_add_r by lia. lia.
  - assert (H1 : 0 <= shr_m (iter_pos shr_1 n r))
      by (rewrite IH by exact Hr; apply Z.div_pos; [exact Hr|apply Z.pow_pos_nonneg; lia]).
    rewrite IH, IH by assumption.
    rewrite !Z.div_div by (try apply Z.pow_pos_nonneg; lia).
    f_equal. replace (Z.pos n~0) with (Z.pos n + Z.pos n) by lia.
    rewrite !Z.pow_add_r by lia. lia.
  - rewrite shr_1_m by exact Hr. reflexivity.
Qed.

Lemma fexp32_eq (x : Z) : fexp32 x = Z.max (x - 24) (-149).
Proof. reflexivity. Qed.

Lemma shr_fexp_canonical (m e : Z) (l : location) :
  0 <= m -> e <= fexp32 (Zdigits2 m + e) ->
  0 <= shr_m (fst (shr_fexp F32.prec F32.emax m e l)) /\
  fexp32 (Zdigits2 (shr_m (fst (shr_fexp F32.prec F32.emax m e l)))
          + snd (shr_fexp F32.prec F32.emax m e l))
  = snd (shr_fexp F32.prec F32.emax m e l).
Proof.
  intros Hm He. unfold shr_fexp, shr.
  assert (Hrec : shr_m (shr_record_of_loc m l) = m)
    by (destruct l as [|[]]; reflexivity).
  destruct (fexp32 (Zdigits2 m + e) - e) as [|n|n] eqn:Hn; simpl fst; simpl snd.
  - rewrite Hrec. split; [exact Hm|lia].
  - rewrite iter_pos_shr_1_m by (rewrite Hrec; exact Hm). rewrite Hrec.
    split; [apply Z.div_pos; [exact Hm|apply Z.pow_pos_nonneg; lia]|].
    destruct (Z.eq_dec m 0) as [->|Hne].
    + rewrite Z.div_0_l by (apply Z.pow_nonzero; lia).
      simpl Zdigits2 in *. rewrite fexp32_eq in *. lia.
    + destruct (Zdigits2_div_pow2 m (Z.pos n) ltac:(lia) ltac:(lia))
        as [[Hlt ->]|[Hge ->]].
      * rewrite fexp32_eq in *. lia.
      * simpl Zdigits2. rewrite fexp32_eq in *. lia.
  - lia.
Qed.

Lemma round_nearest_even_bounds (m : Z) (l : location) :
  m <= round_nearest_even m l <= m + 1.
Proof.
  destruct l as [|[]]; simpl; try lia. destruct (Z.even m); lia.
Qed.

Lemma binary_round_aux_valid (s : bool) (m e : Z) (l : location) :
  0 <= m -> e <= fexp32 (Zdigits2 m + e) ->
  F32.valid (binary_round_aux F32.prec F32.emax s m e l).
Proof.
  intros Hm He. unfold F32.valid, binary_round_aux.
  destruct (shr_fexp_canonical m e l Hm He) as [H1 Hc1].
  destruct (shr_fexp F32.prec F32.emax m e l) as [r1 e1]. simpl fst in *; simpl snd in *.
  pose proof (round_nearest_even_bounds (shr_m r1) (loc_of_shr_record r1)) as Hr.
  set (m2 := round_nearest_even (shr_m r1) (loc_of_shr_record r1)) in *.
  assert (Hmono : Zdigits2 (shr_m r1) <= Zdigits2 m2) by (apply Zdigits2_mono; lia).
  assert (He2 : e1 <= fexp32 (Zdigits2 m2 + e1)) by (rewrite fexp32_eq in *; lia).
  destruct (shr_fexp_canonical m2 e1 loc_Exact ltac:(lia) He2) as [H3 Hc3].
  destruct (shr_fexp F32.prec F32.emax m2 e1 loc_Exact) as [r2 e2].
  simpl fst in *; simpl snd in *.
  destruct (shr_m r2) as [|p|p]; try reflexivity.
  destruct (Z.leb_spec e2 (F32.emax - F32.prec)) as [Hle|Hgt]; [|reflexivity].
  simpl. unfold bounded, canonical_mantissa.
  simpl Zdigits2 in Hc3. rewrite Hc3, Z.eqb_refl. simpl.
  apply Z.leb_le. exact Hle.
Qed.

Lemma digits2_pos_iter_xO (m p : positive) :
  Z.pos (digits2_pos (Pos.iter xO m p)) = Z.pos (digits2_pos m) + Z.pos p.
Proof.
  induction p as [|p IH] using Pos.peano_ind.
  - simpl. lia.
  - rewrite Pos.iter_succ. simpl digits2_pos. lia.
Qed.

Lemma binary_round_valid (s : bool) (m : positive) (e : Z) :
  F32.valid (binary_round F32.prec F32.emax s m e).
Proof.
  unfold binary_round, shl_align.
  destruct (fexp32 (Z.pos (digits2_pos m) + e) - e) as [|d|d] eqn:Hd.
  - apply binary_round_aux_valid; [lia|]. simpl Zdigits2. lia.
  - apply binary_round_aux_valid; [lia|]. simpl Zdigits2. lia.
  - apply binary_round_aux_valid; [lia|]. simpl Zdigits2.
    rewrite digits2_pos_iter_xO.
    replace (Z.pos (digits2_pos m) + Z.pos d
             + fexp32 (Z.pos (digits2_pos m) + e))
      with (Z.pos (digits2_pos m) + e) by lia.
    lia.
Qed.

Lemma binary_normalize_valid (m e : Z) (szero : bool) :
  F32.valid (binary_normalize F32.prec F32.emax m e szero).
Proof.
  destruct m; simpl; [reflexivity|apply binary_round_valid..].
Qed.

Lemma add_valid (a b : float) : F32.valid a -> F32.valid b -> F32.valid (F32.add a b).
Proof.
  intros Ha Hb. unfold F32.add, SFadd.
  destruct a as [sa|sa| |sa ma ea], b as [sb|sb| |sb mb eb];
    try exact Ha; try exact Hb; try reflexivity;
    try (destruct sa, sb; reflexivity).
  apply binary_normalize_valid.
Qed.

Lemma mul_one_l (x : float) : F32.valid x -> F32.mul F32.one x = x.
Proof.
  intros Hx. destruct x as [s|s| |s m e]; try reflexivity.
  unfold F32.valid in Hx. simpl in Hx. unfold bounded, canonical_mantissa in Hx.
  apply andb_true_iff in Hx as [Hc Hb].
  apply Z.eqb_eq in Hc. apply Z.leb_le in Hb.
  change (F32.mul F32.one (S754_finite s m e))
    with (binary_round_aux F32.prec F32.emax s
            (Z.pos (Pos.iter xO m 23)) (-23 + e) loc_Exact).
  unfold binary_round_aux, shr_fexp.
  change (Zdigits2 (Z.pos (Pos.iter xO m 23)))
    with (Z.pos (digits2_pos (Pos.iter xO m 23))).
  rewrite digits2_pos_iter_xO.
  replace (fexp32 (Z.pos (digits2_pos m) + 23 + (-23 + e)) - (-23 + e)) with 23
    by (rewrite fexp32_eq in *; lia).
  cbn [shr shr_record_of_loc iter_pos shr_1 Pos.iter orb shr_m loc_of_shr_record
       round_nearest_even Zdigits2].
  replace (-23 + e + 23) with e by lia.
  rewrite Hc, Z.sub_diag.
  cbn [shr shr_m].
  apply Z.leb_le in Hb. rewrite Hb. reflexivity.
Qed.

(** ** The wavelet *)

(** C8. For every grid shape of positive extents (whose voxel count fits
    [size_t]), wavelet stores for the voxel [(vx, vy, vz)] the value
    [sin(3*cx) + sin(3*cy) + cos(3*cz)], where [c = 2*(v/extent) - 1] on
    each axis: the amplitudes, all 1, leave the sum as it is, the
    frequencies are 3, and only the third axis has a cosine. [sinf] and
    [cosf] are the functions of the C library, which return numbers of the
    format. *)
Theorem wavelet_volume (sinf cosf : float -> float) :
  (forall x, F32.valid (sinf x)) -> (forall x, F32.valid (cosf x)) ->
  forall (X Y Z0 : Z) (data : list float),
    0 < X -> 0 < Y -> 0 < Z0 -> X * Y * Z0 < SIZE_MOD ->
    let c (v n : Z) :=
      F32.sub (F32.mul F32.two (F32.div (F32.of_Z v) (F32.of_Z n))) F32.one in
    exists grid,
      generate_volume sinf cosf "wavelet" (Uvec3 X Y Z0) data
        = ([Cout (MsgGenerating "wavelet" (Uvec3 X Y Z0))], Ret (true, grid)) /\
      length grid = Z.to_nat (X * Y * Z0) /\
      forall vx vy vz, 0 <= vx < X -> 0 <= vy < Y -> 0 <= vz < Z0 ->
        grid !! Z.to_nat (vx + X * (vy + Y * vz))
        = Some (F32.add
                  (F32.add (sinf (F32.mul F32.three (c vx X)))
                           (sinf (F32.mul F32.three (c vy Y))))
                  (cosf (F32.mul F32.three (c vz Z0)))).
Proof.
  intros Hsin Hcos X Y Z0 data HX HY HZ Hfit c.
  destruct (generate_volume_fills X Y Z0 (wavelet_field sinf cosf (Uvec3 X Y Z0)) data)
    as (grid & Hrun & Hlen & Hget); try assumption.
  exists grid. split; [|split; [exact Hlen|]].
  - unfold generate_volume.
    rewrite !bool_decide_eq_false_2 by discriminate.
    rewrite bool_decide_eq_true_2 by reflexivity.
    apply generating_run, Hrun.
  - intros vx vy vz Hx Hy Hz. rewrite (Hget vx vy vz Hx Hy Hz). f_equal.
    unfold wavelet_field. cbv zeta. cbn [fx fy fz vec3_sub vec3_scale vec3_div
      vec3_of_size vec3_of_uvec3 vec3_splat ux uy uz].
    fold (c vx X). fold (c vy Y). fold (c vz Z0).
    change (F32.mul F32.one F32.one) with F32.one.
    rewrite (mul_one_l (sinf _)) by apply Hsin.
    rewrite (mul_one_l (sinf _)) by apply Hsin.
    rewrite (mul_one_l (cosf _)) by apply Hcos.
    apply mul_one_l. apply add_valid; [apply add_valid|]; auto.
Qed.

Lemma wavelet_volume_witness :
  let sinf := fun _ : float => F32.zero in
  let cosf := fun _ : float => F32.one in
  let c (v n : Z) :=
    F32.sub (F32.mul F32.two (F32.div (F32.of_Z v) (F32.of_Z n))) F32.one in
  exists grid,
    generate_volume sinf cosf "wavelet" (Uvec3 4 2 3) []
      = ([Cout (MsgGenerating "wavelet" (Uvec3 4 2 3))], Ret (true, grid)) /\
    length grid = Z.to_nat (4 * 2 * 3) /\
    forall vx vy vz, 0 <= vx < 4 -> 0 <= vy < 2 -> 0 <= vz < 3 ->
      grid !! Z.to_nat (vx + 4 * (vy + 2 * vz))
      = Some (F32.add
                (F32.add (sinf (F32.mul F32.three (c vx 4)))
                         (sinf (F32.mul F32.three (c vy 2))))
                (cosf (F32.mul F32.three (c vz 3)))).
Proof.
  apply (wavelet_volume (fun _ => F32.zero) (fun _ => F32.one)
           (fun _ => eq_refl) (fun _ => eq_refl) 4 2 3 []); reflexivity.
Defined.

(** ** [std::floor] on examples *)

Lemma floor_examples :
  F32.floor (F32.div (F32.of_Z 5) F32.two) = F32.of_Z 2 /\
  F32.floor (F32.div (F32.of_Z (-5)) F32.two) = F32.of_Z (-3) /\
  F32.floor (F32.div F32.one F32.two) = F32.zero /\
  F32.floor (F32.div (F32.of_Z (-1)) F32.two) = F32.of_Z (-1) /\
  F32.floor (F32.div (F32.of_Z (-16777215)) F32.two) = F32.of_Z (-8388608) /\
  F32.floor (F32.of_Z 7) = F32.of_Z 7 /\
  F32.floor (F32.div (F32.of_Z 7) (F32.of_Z 1024)) = F32.zero.
Proof. repeat split; vm_compute; reflexivity. Qed.

(** * Further properties of the program *)

(** ** Loops that store nothing, and what loops keep *)

Lemma for_loop_skip {S : Type} (n : Z) (body : Z -> S -> outcome S) (s : S) :
  (forall i s', body i s' = Ret s') -> for_loop n body s = Ret s.
Proof.
  intros Hbody. unfold for_loop.
  induction (seq 0 (Z.to_nat n)) as [|i l IH] using rev_ind; [reflexivity|].
  rewrite fold_left_app. simpl. rewrite IH. apply Hbody.
Qed.

Lemma for_loop_keeps {S : Type} (P : S -> Prop) (n : Z)
    (body : Z -> S -> outcome S) (s s' : S) :
  (forall i a b, P a -> body i a = Ret b -> P b) ->
  P s -> for_loop n body s = Ret s' -> P s'.
Proof.
  intros Hbody. unfold for_loop. revert s'.
  induction (seq 0 (Z.to_nat n)) as [|i l IH] using rev_ind; intros s' Hs Hrun.
  - injection Hrun as <-. exact Hs.
  - rewrite fold_left_app in Hrun. simpl in Hrun.
    destruct (fold_left _ l (Ret s)) as [a| |]; try discriminate Hrun.
    apply (Hbody (Z.of_nat i) a s'); [|exact Hrun]. apply IH; [exact Hs|reflexivity].
Qed.

Lemma vec_store_length {A : Type} (i : Z) (x : A) (v v' : list A) :
  vec_store i x v = Ret v' -> length v' = length v.
Proof.
  unfold vec_store. destruct (bool_decide _); [|discriminate].
  intros H. injection H as <-. apply length_insert.
Qed.

Lemma fill_voxels_length (dims : uvec3) (field : Z -> Z -> Z -> float)
    (data data' : list float) :
  fill_voxels dims field data = Ret data' -> length data' = length data.
Proof.
  unfold fill_voxels.
  apply (for_loop_keeps (fun d => length d = length data)); [|reflexivity].
  intros z a b Ha.
  apply (for_loop_keeps (fun d => length d = length data)); [|exact Ha].
  intros y a' b' Ha'.
  apply (for_loop_keeps (fun d => length d = length data)); [|exact Ha'].
  intros x a'' b'' Ha'' Hst. rewrite (vec_store_length _ _ _ _ Hst). exact Ha''.
Qed.

(** ** The other generator, and the names and shapes that are not served *)

(** X1. quarter_sphere stores at [vx + x*(vy + y*vz)] the norm of
    [(vx, vy, vz)] divided by the norm of [(x, y, z)], and announces
    itself as a sphere. *)
Theorem quarter_sphere_volume
    (sinf cosf : float -> float) (X Y Z0 : Z) (data : list float) :
  0 < X -> 0 < Y -> 0 < Z0 -> X * Y * Z0 < SIZE_MOD ->
  exists grid,
    generate_volume sinf cosf "quarter_sphere" (Uvec3 X Y Z0) data
      = ([Cout (MsgGenerating "sphere" (Uvec3 X Y Z0))], Ret (true, grid)) /\
    length grid = Z.to_nat (X * Y * Z0) /\
    forall vx vy vz, 0 <= vx < X -> 0 <= vy < Y -> 0 <= vz < Z0 ->
      grid !! Z.to_nat (vx + X * (vy + Y * vz))
      = Some (F32.div
                (glm_length (Vec3 (F32.of_Z vx) (F32.of_Z vy) (F32.of_Z vz)))
                (glm_length (Vec3 (F32.of_Z X) (F32.of_Z Y) (F32.of_Z Z0)))).
Proof.
  intros HX HY HZ Hfit.
  destruct (generate_volume_fills X Y Z0 (quarter_sphere_field (Uvec3 X Y Z0)) data)
    as (grid & Hrun & Hlen & Hget); try assumption.
  exists grid. split; [|split; [exact Hlen|exact Hget]].
  unfold generate_volume.
  rewrite bool_decide_eq_false_2 by discriminate.
  rewrite bool_decide_eq_true_2 by reflexivity.
  apply generating_run, Hrun.
Qed.

Lemma quarter_sphere_volume_witness :
  exists grid,
    generate_volume (fun x => x) (fun x => x) "quarter_sphere" (Uvec3 2 3 2) []
      = ([Cout (MsgGenerating "sphere" (Uvec3 2 3 2))], Ret (true, grid)) /\
    length grid = Z.to_nat (2 * 3 * 2) /\
    forall vx vy vz, 0 <= vx < 2 -> 0 <= vy < 3 -> 0 <= vz < 2 ->
      grid !! Z.to_nat (vx + 2 * (vy + 3 * vz))
      = Some (F32.div
                (glm_length (Vec3 (F32.of_Z vx) (F32.of_Z vy) (F32.of_Z vz)))
                (glm_length (Vec3 (F32.of_Z 2) (F32.of_Z 3) (F32.of_Z 2)))).
Proof.
  apply (quarter_sphere_volume (fun x => x) (fun x => x) 2 3 2 []); reflexivity.
Defined.

Lemma generate_volume_known (sinf cosf : float -> float) (name : string)
    (dims : uvec3) (data : list float) :
  known_generator name ->
  exists field,
    generate_volume sinf cosf name dims data
    = (emit (Cout (MsgGenerating (announced name) dims));;
       data ← lift (fill_voxels dims field
                      (vec_resize (size_mul (size_mul (ux dims) (uy dims)) (uz dims))
                                  F32.zero data));
       mret (true, data)).
Proof.
  intros [-> | [-> | [-> | ->]]]; eexists; reflexivity.
Qed.

(** Whatever the generator, a grid that [generate_volume] returns has as
    many values as the product of the extents, taken in [size_t]. *)
Lemma generated_length
    (sinf cosf : float -> float) (name : string) (dims : uvec3)
    (data grid : list float) (ok : bool) (t : list event) :
  generate_volume sinf cosf name dims data = (t, Ret (ok, grid)) ->
  length grid = Z.to_nat (size_mul (size_mul (ux dims) (uy dims)) (uz dims)).
Proof.
  assert (Hres : length (vec_resize (size_mul (size_mul (ux dims) (uy dims)) (uz dims))
                                    F32.zero data)
                 = Z.to_nat (size_mul (size_mul (ux dims) (uy dims)) (uz dims)))
    by apply length_resize.
  assert (Hfill : forall what field,
            (emit (Cout (MsgGenerating what dims));;
             data ← lift (fill_voxels dims field
                            (vec_resize (size_mul (size_mul (ux dims) (uy dims)) (uz dims))
                                        F32.zero data));
             mret (true, data)) = (t, Ret (ok, grid)) ->
            length grid
            = Z.to_nat (size_mul (size_mul (ux dims) (uy dims)) (uz dims))).
  { intros what field. unfold mbind, prog_mbind, emit, lift, prog_bind.
    destruct (fill_voxels dims field _) as [d| |] eqn:Hf; simpl; try discriminate.
    intros H. injection H as _ _ <-.
    rewrite (fill_voxels_length _ _ _ _ Hf). exact Hres. }
  unfold generate_volume.
  repeat (destruct (bool_decide _); [apply Hfill|]).
  intros H. injection H as _ _ <-. exact Hres.
Qed.

Lemma generate_volume_unknown (sinf cosf : float -> float) (name : string)
    (dims : uvec3) (data : list float) :
  ~ known_generator name ->
  generate_volume sinf cosf name dims data
  = ([Cout (MsgUnrecognizedMode name)],
     Ret (false,
          vec_resize (size_mul (size_mul (ux dims) (uy dims)) (uz dims))
                     F32.zero data)).
Proof.
  intros Hname. unfold known_generator in Hname. unfold generate_volume.
  rewrite !bool_decide_eq_false_2 by tauto. reflexivity.
Qed.

(** X2. A grid with an extent of 0 is generated as the empty grid, with
    success: no voxel is stored, whichever of the four generators runs. *)
Theorem empty_grid_is_generated
    (sinf cosf : float -> float) (name : string) (X Y Z0 : Z) (data : list float) :
  known_generator name ->
  X = 0 \/ Y = 0 \/ Z0 = 0 ->
  generate_volume sinf cosf name (Uvec3 X Y Z0) data
  = ([Cout (MsgGenerating (announced name) (Uvec3 X Y Z0))], Ret (true, [])).
Proof.
  intros Hname Hzero.
  destruct (generate_volume_known sinf cosf name (Uvec3 X Y Z0) data Hname)
    as [field ->].
  assert (Hsize : size_mul (size_mul X Y) Z0 = 0).
  { unfold size_mul. destruct Hzero as [-> | [-> | ->]].
    - reflexivity.
    - rewrite Z.mul_0_r. reflexivity.
    - rewrite Z.mul_0_r. reflexivity. }
  simpl ux; simpl uy; simpl uz. rewrite Hsize.
  unfold vec_resize. change (Z.to_nat 0) with 0%nat. rewrite resize_0.
  apply generating_run. unfold fill_voxels. simpl ux; simpl uy; simpl uz.
  destruct Hzero as [-> | [-> | ->]].
  - apply for_loop_skip. intros z d. apply for_loop_skip. intros y d'. reflexivity.
  - apply for_loop_skip. intros z d. reflexivity.
  - reflexivity.
Qed.

Lemma empty_grid_is_generated_witness :
  generate_volume (fun x => x) (fun x => x) "wavelet" (Uvec3 4 0 7) [F32.one]
  = ([Cout (MsgGenerating (announced "wavelet") (Uvec3 4 0 7))], Ret (true, [])).
Proof.
  apply (empty_grid_is_generated (fun x => x) (fun x => x) "wavelet" 4 0 7 [F32.one]).
  - right. right. right. reflexivity.
  - right. left. reflexivity.
Defined.

(** ** From the argument loop to the volume *)

(** After the argument loop and the tests on the modes, [main] is the
    acquisition of the volume followed by the compression. *)
Lemma main_acquires (sinf cosf : float -> float) (order : byte_order) (zfp : codec)
    (fs : filesystem) (args : list string) (o : options) (t : list event) :
  ~ In "-h" args ->
  parse_args args initial_options = (t, Ret (Some o)) ->
  modes_accepted o = true ->
  main sinf cosf order zfp fs args
  = prog_bind (acquire_volume sinf cosf order fs o)
      (fun volume =>
         match volume with
         | None => mret 1
         | Some (out_name, volume_data, volume_dims) =>
             prog_bind
               (emit (Cout (MsgUncompressedSize
                              (size_mul (Z.of_nat (length volume_data)) 4))))
               (fun _ => compress_and_save zfp (compression_rate o) out_name
                                           volume_data volume_dims)
         end).
Proof.
  intros Hh Hparse Hmodes. unfold main.
  rewrite bool_decide_eq_false_2 by (rewrite list_elem_of_In; exact Hh).
  destruct (parse_args_parsed _ _ _ _ Hparse) as [-> _].
  unfold mbind, prog_mbind. rewrite Hparse, prog_bind_nil.
  unfold modes_accepted in Hmodes.
  apply andb_true_iff in Hmodes as [Hmodes H3].
  apply andb_true_iff in Hmodes as [H1 H2].
  apply negb_true_iff in H1, H2, H3. rewrite H1, H2, H3.
  reflexivity.
Qed.

(** X3. In generated mode a name that is none of the four generators
    ends the run with status 1 after two lines of output; the codec is not
    called and no file is touched. *)
Theorem unknown_generator_stops
    (sinf cosf : float -> float) (order : byte_order) (zfp : codec)
    (fs : filesystem) (args : list string) (o : options) (t : list event) :
  ~ In "-h" args ->
  parse_args args initial_options = (t, Ret (Some o)) ->
  raw_volume_mode o = false ->
  gen_volume_mode o = true ->
  uvec3_eqb (gen_dims o) (Uvec3 0 0 0) = false ->
  ~ known_generator (gen_mode_name o) ->
  main sinf cosf order zfp fs args
  = ([Cout (MsgUnrecognizedMode (gen_mode_name o)); Cout MsgFailedToGenerate],
     Ret 1).
Proof.
  intros Hh Hparse Hraw Hgen Hdims Hname.
  rewrite (main_acquires sinf cosf order zfp fs args o t Hh Hparse)
    by (unfold modes_accepted; rewrite Hraw, Hgen, Hdims; reflexivity).
  unfold acquire_volume. rewrite Hraw.
  unfold mbind, prog_mbind. rewrite generate_volume_unknown by exact Hname.
  reflexivity.
Qed.

Lemma unknown_generator_stops_witness :
  main (fun x => x) (fun x => x) LittleEndian null_codec (fun _ => None)
       ["-crate"; "4"; "-dims"; "2"; "2"; "2"; "-gen"; "torus"]
  = ([Cout (MsgUnrecognizedMode "torus"); Cout MsgFailedToGenerate], Ret 1).
Proof.
  apply (unknown_generator_stops (fun x => x) (fun x => x) LittleEndian null_codec
           (fun _ => None) ["-crate"; "4"; "-dims"; "2"; "2"; "2"; "-gen"; "torus"]
           (set_gen "torus" (set_dims 2 2 2 (set_compression_rate 4 initial_options)))
           []).
  - simpl. intros [H|[H|[H|[H|[H|[H|[H|[H|[]]]]]]]]]; discriminate H.
  - reflexivity.
  - reflexivity.
  - reflexivity.
  - reflexivity.
  - unfold known_generator. simpl.
    intros [H|[H|[H|H]]]; discriminate H.
Defined.

(** ** The argument loop, from left to right *)

(** X4. The argument loop works from left to right: after a part of the
    command line that it accepts, it treats what follows as a command line
    of its own, started from the variables that part has set. *)
Theorem parse_args_continues
    (args rest : list string) (o o1 : options) (t : list event) :
  parse_args args o = (t, Ret (Some o1)) ->
  parse_args (args ++ rest) o = parse_args rest o1.
Proof.
  intros H. destruct (parse_args_parsed _ _ _ _ H) as [_ Hp].
  exact (parsed_continues args rest o o1 Hp).
Qed.

Lemma parse_args_continues_witness :
  parse_args (["-raw"; "a_1x1x1_uint8.raw"; "-crate"; "3"] ++ ["-crate"; "5"; "-x"])
             initial_options
  = parse_args ["-crate"; "5"; "-x"]
               (set_compression_rate 3 (set_raw "a_1x1x1_uint8.raw" initial_options)).
Proof.
  apply (parse_args_continues ["-raw"; "a_1x1x1_uint8.raw"; "-crate"; "3"]
           ["-crate"; "5"; "-x"] initial_options
           (set_compression_rate 3 (set_raw "a_1x1x1_uint8.raw" initial_options)) []).
  reflexivity.
Defined.

Lemma main_parses (sinf cosf : float -> float) (order : byte_order) (zfp : codec)
    (fs : filesystem) (args : list string) (t : list event)
    (r : outcome (option options)) :
  ~ In "-h" args ->
  parse_args args initial_options = (t, r) ->
  (forall o, r <> Ret (Some o)) ->
  main sinf cosf order zfp fs args
  = (t, match r with
        | Ret _ => Ret 1
        | Throw e => Throw e
        | Undefined => Undefined
        end).
Proof.
  intros Hh Hparse Hr. unfold main.
  rewrite bool_decide_eq_false_2 by (rewrite list_elem_of_In; exact Hh).
  unfold mbind, prog_mbind. rewrite Hparse.
  destruct r as [[o|]| |]; simpl.
  - destruct (Hr o eq_refl).
  - rewrite app_nil_r. reflexivity.
  - reflexivity.
  - reflexivity.
Qed.

(** X5. The first argument that is not an option, after a part of the
    command line that the loop accepts, ends the run: it is echoed and
    [main] returns 1, whatever comes after it. *)
Theorem unrecognized_argument_stops
    (sinf cosf : float -> float) (order : byte_order) (zfp : codec)
    (fs : filesystem) (good rest : list string) (bad : string) (o : options)
    (t : list event) :
  ~ In "-h" (good ++ bad :: rest) ->
  parse_args good initial_options = (t, Ret (Some o)) ->
  ~ is_option bad ->
  main sinf cosf order zfp fs (good ++ bad :: rest)
  = ([Cout (MsgUnrecognizedArgument bad)], Ret 1).
Proof.
  intros Hh Hgood Hbad. unfold is_option in Hbad.
  rewrite (main_parses sinf cosf order zfp fs (good ++ bad :: rest)
             [Cout (MsgUnrecognizedArgument bad)] (Ret None) Hh);
    [reflexivity| |discriminate].
  rewrite (parsed_continues good (bad :: rest) _ _
             (proj2 (parse_args_parsed _ _ _ _ Hgood))).
  cbn [parse_args]. rewrite !bool_decide_eq_false_2 by tauto. reflexivity.
Qed.

Lemma unrecognized_argument_stops_witness :
  main (fun x => x) (fun x => x) LittleEndian null_codec (fun _ => None)
       (["-gen"; "sphere"; "-dims"; "4"; "4"; "4"] ++ "--rate" :: ["-crate"; "zz"])
  = ([Cout (MsgUnrecognizedArgument "--rate")], Ret 1).
Proof.
  apply (unrecognized_argument_stops (fun x => x) (fun x => x) LittleEndian
           null_codec (fun _ => None) ["-gen"; "sphere"; "-dims"; "4"; "4"; "4"]
           ["-crate"; "zz"] "--rate"
           (set_dims 4 4 4 (set_gen "sphere" initial_options)) []).
  - simpl. intros [H|[H|[H|[H|[H|[H|[H|[H|[H|[]]]]]]]]]]; discriminate H.
  - reflexivity.
  - unfold is_option. intros [H|[H|[H|H]]]; discriminate H.
Defined.

(** X6. An option at the very end of the command line has no value to
    take: [args[++i]] reads past the end of [args], which is undefined
    behaviour, not a usage error, and nothing has been printed. The same
    holds for [-dims] followed by fewer than three numbers. *)
Theorem option_without_value_is_undefined
    (sinf cosf : float -> float) (order : byte_order) (zfp : codec)
    (fs : filesystem) (good vals : list string) (flag : string) (o : options)
    (t : list event) :
  ~ In "-h" good ->
  parse_args good initial_options = (t, Ret (Some o)) ->
  (is_option flag /\ vals = []) \/
  (flag = "-dims" /\ (length vals < 3)%nat /\
   Forall (fun v => exists x, stoul (chars v) = Ret x) vals) ->
  main sinf cosf order zfp fs (good ++ flag :: vals) = ([], Undefined).
Proof.
  intros Hh Hgood Hcase.
  assert (Hparse : parse_args (flag :: vals) o = ([], Undefined)).
  { cbn [parse_args]. unfold mbind, prog_mbind, chars in *.
    destruct Hcase as [[[-> | [-> | [-> | ->]]] ->]|(-> & Hlen & Hvals)];
      try reflexivity.
    rewrite !bool_decide_eq_false_2, bool_decide_eq_true_2 by done.
    destruct vals as [|a [|b [|c vals]]]; [reflexivity| | |simpl in Hlen; lia].
    - apply Forall_cons in Hvals as [[x Hx] _].
      simpl next_arg. rewrite prog_bind_lift, Hx, prog_bind_lift. reflexivity.
    - apply Forall_cons in Hvals as [[x Hx] Hvals].
      apply Forall_cons in Hvals as [[y Hy] _].
      simpl next_arg. simpl tail.
      rewrite prog_bind_lift, Hx, prog_bind_lift, prog_bind_lift, Hy, prog_bind_lift.
      reflexivity. }
  rewrite (main_parses sinf cosf order zfp fs (good ++ flag :: vals) [] Undefined);
    [reflexivity| | |discriminate].
  - intros Hin. apply in_app_or in Hin as [Hin|[Hin|Hin]]; [exact (Hh Hin)| |].
    + subst flag. unfold is_option in Hcase.
      destruct Hcase as [[[H|[H|[H|H]]] _]|[H _]]; discriminate H.
    + destruct Hcase as [[_ ->]|(_ & _ & Hvals)]; [destruct Hin|].
      rewrite Forall_forall in Hvals. apply list_elem_of_In in Hin.
      destruct (Hvals _ Hin) as [x Hx]. discriminate Hx.
  - rewrite (parsed_continues good (flag :: vals) _ _
               (proj2 (parse_args_parsed _ _ _ _ Hgood))).
    exact Hparse.
Qed.

Lemma option_without_value_is_undefined_witness :
  main (fun x => x) (fun x => x) LittleEndian null_codec (fun _ => None)
       (["-gen"; "sphere"] ++ "-dims" :: ["4"; "4"])
  = ([], Undefined).
Proof.
  apply (option_without_value_is_undefined (fun x => x) (fun x => x) LittleEndian
           null_codec (fun _ => None) ["-gen"; "sphere"] ["4"; "4"] "-dims"
           (set_gen "sphere" initial_options) []).
  - simpl. intros [H|[H|[]]]; discriminate H.
  - reflexivity.
  - right. split; [reflexivity|]. split; [simpl; lia|].
    repeat constructor; exists 4; reflexivity.
Defined.

(** X7. A value of [-crate] that [std::stoi] refuses, because it does not
    start with a number or because the number does not fit [int], ends the
    program with that exception before anything is printed; the rest of
    the command line is not looked at. *)
Theorem refused_rate_throws
    (sinf cosf : float -> float) (order : byte_order) (zfp : codec)
    (fs : filesystem) (good rest : list string) (a : string) (o : options)
    (t : list event) (e : exn) :
  ~ In "-h" (good ++ "-crate" :: a :: rest) ->
  parse_args good initial_options = (t, Ret (Some o)) ->
  stoi (chars a) = Throw e ->
  main sinf cosf order zfp fs (good ++ "-crate" :: a :: rest) = ([], Throw e).
Proof.
  intros Hh Hgood Ha.
  rewrite (main_parses sinf cosf order zfp fs _ [] (Throw e) Hh);
    [reflexivity| |discriminate].
  rewrite (parsed_continues good _ _ _
             (proj2 (parse_args_parsed _ _ _ _ Hgood))).
  cbn [parse_args]. unfold mbind, prog_mbind, chars in *.
  rewrite bool_decide_eq_true_2 by reflexivity.
  simpl next_arg. rewrite prog_bind_lift, Ha. reflexivity.
Qed.

Lemma refused_rate_throws_witness :
  main (fun x => x) (fun x => x) LittleEndian null_codec (fun _ => None)
       (["-gen"; "sphere"] ++ "-crate" :: "2147483648" :: ["-nonsense"])
  = ([], Throw out_of_range).
Proof.
  apply (refused_rate_throws (fun x => x) (fun x => x) LittleEndian null_codec
           (fun _ => None) ["-gen"; "sphere"] ["-nonsense"] "2147483648"
           (set_gen "sphere" initial_options) [] out_of_range).
  - simpl. intros [H|[H|[H|[H|[H|[]]]]]]; discriminate H.
  - reflexivity.
  - reflexivity.
Defined.

Lemma decimal_is_no_option (a : string) : decimal (chars a) -> a <> "-h".
Proof. intros [_ Hd] ->. discriminate Hd. Qed.

Lemma stoul_decimal (s : list ascii) :
  decimal s -> decimal_value s < SIZE_MOD -> stoul s = Ret (decimal_value s).
Proof.
  intros Hd Hmax. unfold stoul. rewrite (parse_integer_decimal s Hd).
  pose proof (read_digits_nonneg s 0 (Z.le_refl 0)) as Hpos.
  fold (decimal_value s) in Hpos.
  rewrite bool_decide_eq_true_2 by lia.
  rewrite Z.mod_small by lia. reflexivity.
Qed.

(** X8. The numbers after [-dims] are kept modulo 2^32: two command lines
    whose extents differ by multiples of 2^32 give the same run. *)
Theorem extents_are_kept_modulo
    (sinf cosf : float -> float) (order : byte_order) (zfp : codec)
    (fs : filesystem) (a b c a' b' c' : string) (rest : list string) :
  decimal (chars a) /\ decimal_value (chars a) < SIZE_MOD ->
  decimal (chars b) /\ decimal_value (chars b) < SIZE_MOD ->
  decimal (chars c) /\ decimal_value (chars c) < SIZE_MOD ->
  decimal (chars a') /\ decimal_value (chars a') < SIZE_MOD ->
  decimal (chars b') /\ decimal_value (chars b') < SIZE_MOD ->
  decimal (chars c') /\ decimal_value (chars c') < SIZE_MOD ->
  decimal_value (chars a) mod 2 ^ 32 = decimal_value (chars a') mod 2 ^ 32 ->
  decimal_value (chars b) mod 2 ^ 32 = decimal_value (chars b') mod 2 ^ 32 ->
  decimal_value (chars c) mod 2 ^ 32 = decimal_value (chars c') mod 2 ^ 32 ->
  main sinf cosf order zfp fs ("-dims" :: a :: b :: c :: rest)
  = main sinf cosf order zfp fs ("-dims" :: a' :: b' :: c' :: rest).
Proof.
  intros [Ha Ha64] [Hb Hb64] [Hc Hc64] [Ha' Ha64'] [Hb' Hb64'] [Hc' Hc64'] Hxa Hxb Hxc.
  assert (Hloop : forall o,
            parse_args ("-dims" :: a :: b :: c :: rest) o
            = parse_args ("-dims" :: a' :: b' :: c' :: rest) o).
  { intros o. cbn [parse_args]. unfold mbind, prog_mbind, chars in *.
    rewrite !bool_decide_eq_false_2, bool_decide_eq_true_2 by done.
    simpl next_arg. simpl tail.
    rewrite !prog_bind_lift.
    rewrite (stoul_decimal _ Ha Ha64), (stoul_decimal _ Ha' Ha64'), !prog_bind_lift.
    rewrite (stoul_decimal _ Hb Hb64), (stoul_decimal _ Hb' Hb64'), !prog_bind_lift.
    rewrite (stoul_decimal _ Hc Hc64), (stoul_decimal _ Hc' Hc64'), !prog_bind_lift.
    unfold set_dims, to_unsigned, UINT_MOD.
    rewrite Hxa, Hxb, Hxc. reflexivity. }
  assert (Hhelp : bool_decide ("-h" ∈ "-dims" :: a :: b :: c :: rest)
                  = bool_decide ("-h" ∈ "-dims" :: a' :: b' :: c' :: rest)).
  { apply bool_decide_ext. rewrite !elem_of_cons.
    pose proof (decimal_is_no_option a Ha). pose proof (decimal_is_no_option b Hb).
    pose proof (decimal_is_no_option c Hc). pose proof (decimal_is_no_option a' Ha').
    pose proof (decimal_is_no_option b' Hb'). pose proof (decimal_is_no_option c' Hc').
    split; intros [H'|[H'|[H'|[H'|H']]]]; try congruence; try discriminate H';
      do 4 right; exact H'. }
  unfold main. rewrite Hhelp, Hloop. reflexivity.
Qed.

Lemma extents_are_kept_modulo_witness :
  main (fun x => x) (fun x => x) LittleEndian null_codec (fun _ => None)
       ("-dims" :: "4294967298" :: "3" :: "4294967297" :: ["-gen"; "plane_x"])
  = main (fun x => x) (fun x => x) LittleEndian null_codec (fun _ => None)
         ("-dims" :: "2" :: "4294967299" :: "1" :: ["-gen"; "plane_x"]).
Proof.
  apply (extents_are_kept_modulo (fun x => x) (fun x => x) LittleEndian null_codec
           (fun _ => None) "4294967298" "3" "4294967297" "2" "4294967299" "1"
           ["-gen"; "plane_x"]);
    try reflexivity;
    (split; [split; [discriminate|reflexivity]|reflexivity]).
Defined.

(** ** More on [read_raw_volume] *)

Lemma same_values {A : Type} (l : list A) (n : nat) (x : A) :
  length l = n -> (forall k, (k < n)%nat -> l !! k = Some x) -> l = replicate n x.
Proof.
  intros Hlen Hget. apply list_eq. intros i.
  destruct (Nat.lt_ge_cases i n) as [Hi|Hi].
  - rewrite Hget by exact Hi. symmetry. apply lookup_replicate_2. exact Hi.
  - rewrite !lookup_ge_None_2; [reflexivity|rewrite length_replicate; lia|lia].
Qed.

Lemma floats_of_zeros (order : byte_order) (n : nat) :
  floats_of_bytes order (replicate (4 * n) x00) = replicate n F32.zero.
Proof.
  induction n as [|n IH]; [reflexivity|].
  replace (4 * S n)%nat with (S (S (S (S (4 * n))))) by lia.
  cbn [replicate floats_of_bytes]. rewrite IH. destruct order; reflexivity.
Qed.

(** X9. A file that cannot be opened is not an error: the load of a name
    of any type succeeds, and the grid is all 0.0. *)
Theorem missing_file_loads_zeros
    (order : byte_order) (fs : filesystem) (name : string) (dims : uvec3)
    (ty : string) :
  parse_raw_file_name name = ([], Ret (Some (dims, ty))) ->
  ux dims * uy dims * uz dims * 2 < SIZE_MOD ->
  fs name = None ->
  exists count,
    read_raw_volume order fs name [] (Uvec3 0 0 0)
    = ([FileOpen name; FileRead name count],
       Ret (true, replicate (Z.to_nat (ux dims * uy dims * uz dims)) F32.zero, dims)).
Proof.
  intros Hparse Hfit Hfile.
  destruct (parse_dims_range _ _ _ _ Hparse) as (HX & HY & HZ).
  set (nv := ux dims * uy dims * uz dims) in *.
  assert (Hnv : 0 <= nv) by (unfold nv; nia).
  destruct (decide (ty = "uint8")) as [->|H8].
  { destruct (read_uint8_volume order fs name [] (Uvec3 0 0 0) dims Hparse)
      as (grid & Hrun & Hglen & Hget); [fold nv; lia|].
    exists nv. rewrite Hrun.
    replace grid with (replicate (Z.to_nat nv) F32.zero); [reflexivity|].
    symmetry. apply same_values; [exact Hglen|]. intros k Hk.
    rewrite Hget by exact Hk. fold nv. rewrite Hfile. simpl ifstream_read.
    rewrite lookup_replicate_2 by (fold nv in Hk; lia). reflexivity. }
  destruct (decide (ty = "uint16")) as [->|H16].
  { destruct (read_uint16_volume order fs name [] (Uvec3 0 0 0) dims Hparse)
      as (grid & Hrun & Hglen & Hget); [fold nv; lia|].
    exists (nv * 2). rewrite Hrun.
    replace grid with (replicate (Z.to_nat nv) F32.zero); [reflexivity|].
    symmetry. apply same_values; [exact Hglen|]. intros k Hk.
    rewrite Hget by exact Hk. fold nv. rewrite Hfile. simpl ifstream_read.
    rewrite !lookup_replicate_2 by (fold nv in Hk; lia).
    destruct order; reflexivity. }
  destruct (decide (ty = "float32")) as [->|H32].
  { exists nv.
    rewrite (read_float32_volume order fs name [] (Uvec3 0 0 0) dims Hparse)
      by (fold nv; lia).
    fold nv. rewrite Hfile. simpl ifstream_read. unfold vec_resize.
    rewrite resize_nil, bytes_of_zeros, floats_of_zeros. reflexivity. }
  exists 0. rewrite (read_other_volume order fs name [] (Uvec3 0 0 0) dims ty)
    by assumption.
  destruct (parsed_voxel_count (ux dims) (uy dims) (uz dims) 1) as [-> _]; try lia.
  unfold vec_resize. rewrite resize_nil. reflexivity.
Qed.

Lemma missing_file_loads_zeros_witness :
  exists count,
    read_raw_volume BigEndian (fun _ => None) "scan_2x3x1_float32.raw" [] (Uvec3 0 0 0)
    = ([FileOpen "scan_2x3x1_float32.raw"; FileRead "scan_2x3x1_float32.raw" count],
       Ret (true, replicate (Z.to_nat (2 * 3 * 1)) F32.zero, Uvec3 2 3 1)).
Proof.
  apply (missing_file_loads_zeros BigEndian (fun _ => None) "scan_2x3x1_float32.raw"
           (Uvec3 2 3 1) "float32"); reflexivity.
Defined.

Lemma bytes_of_floats_length (order : byte_order) (data : list float) :
  length (bytes_of_floats order data) = (4 * length data)%nat.
Proof.
  unfold bytes_of_floats. induction data as [|x data IH]; [reflexivity|].
  simpl flat_map. rewrite length_app, IH.
  replace (length (word_bytes order (F32.to_bits x))) with 4%nat
    by (destruct order; reflexivity).
  simpl length. lia.
Qed.

Lemma take4_drop {A : Type} (l : list A) (i : nat) (b0 b1 b2 b3 : A) :
  l !! i = Some b0 -> l !! S i = Some b1 -> l !! S (S i) = Some b2 ->
  l !! S (S (S i)) = Some b3 ->
  take 4 (drop i l) = [b0; b1; b2; b3].
Proof.
  intros H0 H1 H2 H3.
  rewrite (drop_S _ _ _ H0), (drop_S _ _ _ H1), (drop_S _ _ _ H2), (drop_S _ _ _ H3).
  reflexivity.
Qed.

(** X10. What a float32 load takes from the file: the first [X*Y*Z] bytes,
    four to a voxel. The voxel [i] is the float whose bits are the bytes
    [4i .. 4i+3] of the file as long as these lie within the first [X*Y*Z]
    bytes, whatever the vector held before. *)
Theorem float32_takes_first_bytes
    (order : byte_order) (fs : filesystem) (name : string)
    (data : list float) (dims0 dims : uvec3) (content : list byte) (i : Z) :
  parse_raw_file_name name = ([], Ret (Some (dims, "float32"))) ->
  ux dims * uy dims * uz dims < SIZE_MOD ->
  fs name = Some content ->
  0 <= i ->
  4 * (i + 1) <= ux dims * uy dims * uz dims ->
  4 * (i + 1) <= Z.of_nat (length content) ->
  exists grid,
    read_raw_volume order fs name data dims0
    = ([FileOpen name; FileRead name (ux dims * uy dims * uz dims)],
       Ret (true, grid, dims)) /\
    length grid = Z.to_nat (ux dims * uy dims * uz dims) /\
    grid !! Z.to_nat i
    = Some (F32.of_bits
              (word_value order (take 4 (drop (Z.to_nat (4 * i)) content)))).
Proof.
  intros Hparse Hfit Hfile Hi Hnv Hlen.
  set (nv := ux dims * uy dims * uz dims) in *.
  eexists. split; [apply (read_float32_volume order fs name data dims0 dims Hparse Hfit)|].
  fold nv. rewrite Hfile.
  set (memory := ifstream_read (Some content) nv
                   (bytes_of_floats order (vec_resize nv F32.zero data))).
  assert (Hbuf : length (bytes_of_floats order (vec_resize nv F32.zero data))
                 = (4 * Z.to_nat nv)%nat).
  { rewrite bytes_of_floats_length. unfold vec_resize. rewrite length_resize.
    reflexivity. }
  split.
  - apply floats_of_bytes_length. unfold memory.
    rewrite ifstream_read_length; lia.
  - assert (Hgot : forall j, (j < 4)%nat ->
              memory !! (4 * Z.to_nat i + j)%nat
              = content !! (4 * Z.to_nat i + j)%nat).
    { intros j Hj. apply ifstream_read_got. simpl. lia. }
    destruct (lookup_lt_is_Some_2 content (4 * Z.to_nat i)) as [b0 Hb0]; [lia|].
    destruct (lookup_lt_is_Some_2 content (S (4 * Z.to_nat i))) as [b1 Hb1]; [lia|].
    destruct (lookup_lt_is_Some_2 content (S (S (4 * Z.to_nat i)))) as [b2 Hb2]; [lia|].
    destruct (lookup_lt_is_Some_2 content (S (S (S (4 * Z.to_nat i))))) as [b3 Hb3];
      [lia|].
    replace (Z.to_nat (4 * i)) with (4 * Z.to_nat i)%nat by lia.
    rewrite (take4_drop _ _ _ _ _ _ Hb0 Hb1 Hb2 Hb3).
    apply floats_of_bytes_lookup.
    + replace (4 * Z.to_nat i)%nat with (4 * Z.to_nat i + 0)%nat by lia.
      rewrite Hgot, <- Hb0 by lia. f_equal. lia.
    + rewrite Hgot, <- Hb1 by lia. f_equal. lia.
    + rewrite Hgot, <- Hb2 by lia. f_equal. lia.
    + rewrite Hgot, <- Hb3 by lia. f_equal. lia.
Qed.

Lemma float32_takes_first_bytes_witness :
  exists grid,
    read_raw_volume LittleEndian
      (fun _ => Some [x00; x00; x80; x3f; x00; x00; x00; x40; x00; x00; x40; x40])
      "f_2x2x2_float32.raw" [F32.three] (Uvec3 0 0 0)
    = ([FileOpen "f_2x2x2_float32.raw"; FileRead "f_2x2x2_float32.raw" (2 * 2 * 2)],
       Ret (true, grid, Uvec3 2 2 2)) /\
    length grid = Z.to_nat (2 * 2 * 2) /\
    grid !! Z.to_nat 1
    = Some (F32.of_bits
              (word_value LittleEndian
                 (take 4 (drop (Z.to_nat (4 * 1))
                            [x00; x00; x80; x3f; x00; x00; x00; x40;
                             x00; x00; x40; x40])))).
Proof.
  apply (float32_takes_first_bytes LittleEndian
           (fun _ => Some [x00; x00; x80; x3f; x00; x00; x00; x40; x00; x00; x40; x40])
           "f_2x2x2_float32.raw" [F32.three] (Uvec3 0 0 0) (Uvec3 2 2 2)
           [x00; x00; x80; x3f; x00; x00; x00; x40; x00; x00; x40; x40] 1);
    try reflexivity; simpl; lia.
Defined.

(** X11. The name parser has three outcomes and no other: it refuses the
    name, reporting it; or it returns extents, each at most 2147483647,
    and a type that is not empty; or [std::stoi] throws
    [std::out_of_range]. It never throws [std::invalid_argument] and has
    no undefined behaviour. *)
Theorem name_parser_outcomes (name : string) :
  parse_raw_file_name name = ([Cerr (MsgNamingScheme name)], Ret None) \/
  (exists dims ty,
     parse_raw_file_name name = ([], Ret (Some (dims, ty))) /\
     0 <= ux dims <= INT_MAX /\ 0 <= uy dims <= INT_MAX /\
     0 <= uz dims <= INT_MAX /\ ty <> "") \/
  parse_raw_file_name name = ([], Throw out_of_range).
Proof.
  destruct (regex_search match_filename (chars name)) as [caps|] eqn:Hs;
    [|left; apply parse_refused, Hs].
  right.
  destruct (search_finds_convention _ _ Hs)
    as (pre & n & X & Y & Z0 & d & post & -> & Hc).
  destruct Hc as (_ & _ & HX & HY & HZ & [Hd _]).
  unfold parse_raw_file_name. fold (chars name). rewrite Hs.
  unfold mbind, prog_mbind.
  destruct (stoi_decimal_cases X HX) as [(-> & HrX & HuX)|[-> _]];
    [|right; reflexivity].
  rewrite prog_bind_lift.
  destruct (stoi_decimal_cases Y HY) as [(-> & HrY & HuY)|[-> _]];
    [|right; reflexivity].
  rewrite prog_bind_lift.
  destruct (stoi_decimal_cases Z0 HZ) as [(-> & HrZ & HuZ)|[-> _]];
    [|right; reflexivity].
  rewrite prog_bind_lift, HuX, HuY, HuZ.
  left. do 2 eexists. split; [reflexivity|]. simpl.
  repeat split; try lia.
  destruct d; [congruence|discriminate].
Qed.

(** ** Runs that write the file *)

Lemma whole_rates_below_65536 : all_from whole_rate_at (Z.to_nat 65536) 0 = true.
Proof. vm_compute. reflexivity. Qed.

Lemma whole_rate (k : Z) :
  0 <= k < 65536 ->
  F32.neq (F32.floor (F32.of_Z k)) (F32.of_Z k) = false /\
  int_of_float (F32.of_Z k) = Ret k.
Proof.
  intros Hk.
  pose proof (all_from_spec _ _ _ whole_rates_below_65536 k ltac:(lia)) as H.
  unfold whole_rate_at in H. apply andb_true_iff in H as [H1 H2].
  apply negb_true_iff in H1. split; [exact H1|].
  destruct (int_of_float (F32.of_Z k)) as [v| |]; try discriminate H2.
  apply Z.eqb_eq in H2. congruence.
Qed.

Lemma compress_and_save_writes (zfp : codec) (rate k : Z) (out_name : string)
    (data : list float) (dims : uvec3) :
  zfp_stream_set_rate zfp rate = F32.of_Z k ->
  0 <= k < 65536 ->
  let used := F32.of_Z k in
  let out := zfp_compress zfp used dims data
               (replicate (Z.to_nat (zfp_stream_maximum_size zfp used dims)) x00) in
  let payload := vec_resize (snd out) x00 (fst out) in
  let name := out_name +:+ ".crate" +:+ pretty k +:+ ".zfp" in
  compress_and_save zfp rate out_name data dims
  = ([CodecSetRate rate; Cout (MsgUsedRate used); CodecCompress dims data;
      Cout (MsgCompressedSize (Z.of_nat (length payload)));
      FileCreate name; FileWrite name payload], Ret 0).
Proof.
  intros Hrate Hk used out payload name.
  destruct (whole_rate k Hk) as [Hneq Hint].
  unfold compress_and_save. rewrite Hrate, Hneq.
  unfold payload, name, out, used.
  destruct (zfp_compress zfp (F32.of_Z k) dims data _) as [buffer total].
  unfold mbind, prog_mbind. rewrite Hint. reflexivity.
Qed.

(** X12. A run in generated mode with one of the four generators, positive
    extents and a whole achieved rate prints four lines, calls the codec
    once on the grid of [X*Y*Z] values, creates the one file
    [<generator>_<X>x<Y>x<Z>_float32.gen.crate<rate>.zfp], writes to it the
    codec's buffer cut (or filled with zeros) to the number of bytes the
    codec reports, and returns 0. *)
Theorem generated_volume_is_written
    (sinf cosf : float -> float) (order : byte_order) (zfp : codec)
    (fs : filesystem) (args : list string) (o : options) (t : list event)
    (X Y Z0 k : Z) :
  ~ In "-h" args ->
  parse_args args initial_options = (t, Ret (Some o)) ->
  raw_volume_mode o = false ->
  gen_volume_mode o = true ->
  known_generator (gen_mode_name o) ->
  gen_dims o = Uvec3 X Y Z0 ->
  0 < X -> 0 < Y -> 0 < Z0 -> X * Y * Z0 < SIZE_MOD ->
  zfp_stream_set_rate zfp (compression_rate o) = F32.of_Z k ->
  0 <= k < 65536 ->
  exists grid,
    length grid = Z.to_nat (X * Y * Z0) /\
    let dims := Uvec3 X Y Z0 in
    let used := F32.of_Z k in
    let out := zfp_compress zfp used dims grid
                 (replicate (Z.to_nat (zfp_stream_maximum_size zfp used dims)) x00) in
    let payload := vec_resize (snd out) x00 (fst out) in
    let name :=
      (gen_mode_name o +:+ "_" +:+ pretty X +:+ "x" +:+ pretty Y +:+ "x" +:+
       pretty Z0 +:+ "_float32.gen") +:+ ".crate" +:+ pretty k +:+ ".zfp" in
    length payload = Z.to_nat (snd out) /\
    main sinf cosf order zfp fs args
    = ([Cout (MsgGenerating (announced (gen_mode_name o)) dims);
        Cout (MsgUncompressedSize (size_mul (X * Y * Z0) 4));
        CodecSetRate (compression_rate o); Cout (MsgUsedRate used);
        CodecCompress dims grid;
        Cout (MsgCompressedSize (Z.of_nat (length payload)));
        FileCreate name; FileWrite name payload], Ret 0).
Proof.
  intros Hh Hparse Hraw Hgen Hname Hdims HX HY HZ Hfit Hrate Hk.
  destruct (generate_volume_known sinf cosf (gen_mode_name o) (Uvec3 X Y Z0) []
              Hname) as [field Hgenv].
  destruct (generate_volume_fills X Y Z0 field [] HX HY HZ Hfit)
    as (grid & Hfill & Hlen & _).
  simpl ux in Hgenv; simpl uy in Hgenv; simpl uz in Hgenv.
  rewrite (generating_run _ _ _ _ _ Hfill) in Hgenv.
  exists grid. split; [exact Hlen|]. intros dims used out payload name.
  split; [apply length_resize|].
  destruct (parse_args_parsed _ _ _ _ Hparse) as [_ Hp].
  assert (Hmodes : modes_accepted o = true).
  { unfold modes_accepted. rewrite Hraw, Hgen, Hdims. simpl.
    unfold uvec3_eqb. simpl. destruct (Z.eqb_spec X 0); [lia|reflexivity]. }
  assert (Hacq : acquire_volume sinf cosf order fs o
                 = ([Cout (MsgGenerating (announced (gen_mode_name o)) dims)],
                    Ret (Some (gen_mode_name o +:+ "_" +:+ pretty X +:+ "x" +:+
                               pretty Y +:+ "x" +:+ pretty Z0 +:+ "_float32.gen",
                               grid, dims)))).
  { unfold acquire_volume. rewrite Hraw, Hdims.
    unfold mbind, prog_mbind. rewrite Hgenv. reflexivity. }
  rewrite (main_run sinf cosf order zfp fs args o _ _ grid dims Hh Hp Hmodes Hacq).
  rewrite (compress_and_save_writes zfp (compression_rate o) k _ grid dims Hrate Hk).
  simpl trace. simpl result. rewrite Hlen, Z2Nat.id by nia. reflexivity.
Qed.

Lemma generated_volume_is_written_witness :
  exists grid,
    length grid = Z.to_nat (8 * 8 * 8) /\
    let dims := Uvec3 8 8 8 in
    let used := F32.of_Z 8 in
    let out := zfp_compress null_codec used dims grid
                 (replicate (Z.to_nat (zfp_stream_maximum_size null_codec used dims))
                            x00) in
    let payload := vec_resize (snd out) x00 (fst out) in
    let name :=
      ("plane_x" +:+ "_" +:+ pretty 8 +:+ "x" +:+ pretty 8 +:+ "x" +:+
       pretty 8 +:+ "_float32.gen") +:+ ".crate" +:+ pretty 8 +:+ ".zfp" in
    length payload = Z.to_nat (snd out) /\
    main (fun x => x) (fun x => x) LittleEndian null_codec (fun _ => None)
         ["-gen"; "plane_x"; "-dims"; "8"; "8"; "8"; "-crate"; "8"]
    = ([Cout (MsgGenerating (announced "plane_x") dims);
        Cout (MsgUncompressedSize (size_mul (8 * 8 * 8) 4));
        CodecSetRate 8; Cout (MsgUsedRate used);
        CodecCompress dims grid;
        Cout (MsgCompressedSize (Z.of_nat (length payload)));
        FileCreate name; FileWrite name payload], Ret 0).
Proof.
  apply (generated_volume_is_written (fun x => x) (fun x => x) LittleEndian
           null_codec (fun _ => None)
           ["-gen"; "plane_x"; "-dims"; "8"; "8"; "8"; "-crate"; "8"]
           (set_compression_rate 8 (set_dims 8 8 8 (set_gen "plane_x" initial_options)))
           [] 8 8 8 8).
  - simpl. intros [H|[H|[H|[H|[H|[H|[H|[H|[]]]]]]]]]; discriminate H.
  - reflexivity.
  - reflexivity.
  - reflexivity.
  - left. reflexivity.
  - reflexivity.
  - lia.
  - lia.
  - lia.
  - reflexivity.
  - reflexivity.
  - lia.
Defined.

(** X13. A run in raw mode whose load succeeds, with a whole achieved
    rate: the codec receives the grid of the load and the extents read
    from the file name, and the one file that is created and written is
    the name of the raw file followed by [.crate<rate>.zfp]; the run
    returns 0. *)
Theorem raw_volume_is_written
    (sinf cosf : float -> float) (order : byte_order) (zfp : codec)
    (fs : filesystem) (args : list string) (o : options) (t t' : list event)
    (grid : list float) (dims : uvec3) (k : Z) :
  ~ In "-h" args ->
  parse_args args initial_options = (t, Ret (Some o)) ->
  raw_volume_mode o = true ->
  gen_volume_mode o = false ->
  read_raw_volume order fs (raw_file_name o) [] (Uvec3 0 0 0)
    = (t', Ret (true, grid, dims)) ->
  zfp_stream_set_rate zfp (compression_rate o) = F32.of_Z k ->
  0 <= k < 65536 ->
  let used := F32.of_Z k in
  let out := zfp_compress zfp used dims grid
               (replicate (Z.to_nat (zfp_stream_maximum_size zfp used dims)) x00) in
  let payload := vec_resize (snd out) x00 (fst out) in
  let name := raw_file_name o +:+ ".crate" +:+ pretty k +:+ ".zfp" in
  length payload = Z.to_nat (snd out) /\
  main sinf cosf order zfp fs args
  = (t' ++ [Cout (MsgUncompressedSize (size_mul (Z.of_nat (length grid)) 4));
            CodecSetRate (compression_rate o); Cout (MsgUsedRate used);
            CodecCompress dims grid;
            Cout (MsgCompressedSize (Z.of_nat (length payload)));
            FileCreate name; FileWrite name payload], Ret 0).
Proof.
  intros Hh Hparse Hraw Hgen Hread Hrate Hk used out payload name.
  split; [apply length_resize|].
  destruct (parse_args_parsed _ _ _ _ Hparse) as [_ Hp].
  assert (Hmodes : modes_accepted o = true)
    by (unfold modes_accepted; rewrite Hraw, Hgen; reflexivity).
  assert (Hacq : acquire_volume sinf cosf order fs o
                 = (t', Ret (Some (raw_file_name o, grid, dims)))).
  { unfold acquire_volume. rewrite Hraw.
    unfold mbind, prog_mbind. rewrite Hread. simpl. rewrite app_nil_r. reflexivity. }
  rewrite (main_run sinf cosf order zfp fs args o _ _ grid dims Hh Hp Hmodes Hacq).
  rewrite (compress_and_save_writes zfp (compression_rate o) k _ grid dims Hrate Hk).
  reflexivity.
Qed.

Lemma raw_volume_is_written_witness :
  let fs : filesystem := fun _ => Some [x07; xff] in
  let used := F32.of_Z 16 in
  let grid := [F32.of_Z 7; F32.of_Z 255] in
  let out := zfp_compress null_codec used (Uvec3 2 1 1) grid
               (replicate (Z.to_nat (zfp_stream_maximum_size null_codec used
                                       (Uvec3 2 1 1))) x00) in
  let payload := vec_resize (snd out) x00 (fst out) in
  let name := "ct_2x1x1_uint8.raw" +:+ ".crate" +:+ pretty 16 +:+ ".zfp" in
  length payload = Z.to_nat (snd out) /\
  main (fun x => x) (fun x => x) LittleEndian null_codec fs
       ["-crate"; "16"; "-raw"; "ct_2x1x1_uint8.raw"]
  = ([FileOpen "ct_2x1x1_uint8.raw"; FileRead "ct_2x1x1_uint8.raw" 2]
     ++ [Cout (MsgUncompressedSize (size_mul (Z.of_nat (length grid)) 4));
         CodecSetRate 16; Cout (MsgUsedRate used);
         CodecCompress (Uvec3 2 1 1) grid;
         Cout (MsgCompressedSize (Z.of_nat (length payload)));
         FileCreate name; FileWrite name payload], Ret 0).
Proof.
  apply (raw_volume_is_written (fun x => x) (fun x => x) LittleEndian null_codec
           (fun _ => Some [x07; xff]) ["-crate"; "16"; "-raw"; "ct_2x1x1_uint8.raw"]
           (set_raw "ct_2x1x1_uint8.raw" (set_compression_rate 16 initial_options))
           [] [FileOpen "ct_2x1x1_uint8.raw"; FileRead "ct_2x1x1_uint8.raw" 2]
           [F32.of_Z 7; F32.of_Z 255] (Uvec3 2 1 1) 16).
  - simpl. intros [H|[H|[H|[H|[]]]]]; discriminate H.
  - reflexivity.
  - reflexivity.
  - reflexivity.
  - vm_compute. reflexivity.
  - reflexivity.
  - lia.
Defined.

(** X14. A run in raw mode on a name in which the regular expression of
    the naming convention is found nowhere: the name is reported on
    [std::cerr], the failure on [std::cout], and [main] returns 1; no file
    is opened and the codec is not called. *)
Theorem refused_name_stops
    (sinf cosf : float -> float) (order : byte_order) (zfp : codec)
    (fs : filesystem) (args : list string) (o : options) (t : list event) :
  ~ In "-h" args ->
  parse_args args initial_options = (t, Ret (Some o)) ->
  raw_volume_mode o = true ->
  gen_volume_mode o = false ->
  regex_search match_filename (chars (raw_file_name o)) = None ->
  main sinf cosf order zfp fs args
  = ([Cerr (MsgNamingScheme (raw_file_name o));
      Cout (MsgFailedToReadRaw (raw_file_name o))], Ret 1).
Proof.
  intros Hh Hparse Hraw Hgen Hname.
  assert (Hmodes : modes_accepted o = true)
    by (unfold modes_accepted; rewrite Hraw, Hgen; reflexivity).
  pose proof (parse_refused _ Hname) as Hp.
  rewrite (main_acquires sinf cosf order zfp fs args o t Hh Hparse Hmodes).
  unfold acquire_volume. rewrite Hraw.
  unfold read_raw_volume, mbind, prog_mbind. rewrite Hp. reflexivity.
Qed.

Lemma refused_name_stops_witness :
  main (fun x => x) (fun x => x) LittleEndian null_codec (fun _ => Some [x00])
       ["-raw"; "volume.raw"; "-crate"; "8"]
  = ([Cerr (MsgNamingScheme "volume.raw"); Cout (MsgFailedToReadRaw "volume.raw")],
     Ret 1).
Proof.
  apply (refused_name_stops (fun x => x) (fun x => x) LittleEndian null_codec
           (fun _ => Some [x00]) ["-raw"; "volume.raw"; "-crate"; "8"]
           (set_compression_rate 8 (set_raw "volume.raw" initial_options)) []).
  - simpl. intros [H|[H|[H|[H|[]]]]]; discriminate H.
  - reflexivity.
  - reflexivity.
  - reflexivity.
  - reflexivity.
Defined.

(** ** The tests on the modes *)

(** X15. A run without [-h] whose arguments are read to the end and whose
    modes are refused prints the message of the first test that fails,
    then the usage, and returns 1: nothing is opened, generated or
    compressed. *)
Theorem refused_modes_stop
    (sinf cosf : float -> float) (order : byte_order) (zfp : codec)
    (fs : filesystem) (args : list string) (o : options) (t : list event) :
  ~ In "-h" args ->
  parse_args args initial_options = (t, Ret (Some o)) ->
  modes_accepted o = false ->
  main sinf cosf order zfp fs args
  = ([Cout (mode_refusal o); Cout MsgUsage], Ret 1).
Proof.
  intros Hh Hparse Hmodes.
  destruct (parse_args_parsed _ _ _ _ Hparse) as [-> _].
  unfold main.
  rewrite bool_decide_eq_false_2 by (rewrite list_elem_of_In; exact Hh).
  unfold mbind, prog_mbind. rewrite Hparse, prog_bind_nil.
  unfold modes_accepted in Hmodes. unfold mode_refusal.
  destruct (negb (raw_volume_mode o) && negb (gen_volume_mode o)); [reflexivity|].
  destruct (raw_volume_mode o && gen_volume_mode o); [reflexivity|].
  destruct (gen_volume_mode o && uvec3_eqb (gen_dims o) (Uvec3 0 0 0));
    [reflexivity|discriminate Hmodes].
Qed.

Lemma refused_modes_stop_witness :
  main (fun x => x) (fun x => x) LittleEndian null_codec (fun _ => None)
       ["-gen"; "sphere"; "-dims"; "4294967296"; "0"; "0"; "-crate"; "4"]
  = ([Cout MsgDimsRequired; Cout MsgUsage], Ret 1).
Proof.
  apply (refused_modes_stop (fun x => x) (fun x => x) LittleEndian null_codec
           (fun _ => None)
           ["-gen"; "sphere"; "-dims"; "4294967296"; "0"; "0"; "-crate"; "4"]
           (set_compression_rate 4
              (set_dims 4294967296 0 0 (set_gen "sphere" initial_options))) []).
  - simpl. intros H. repeat (destruct H as [H|H]; [discriminate H|]). exact H.
  - vm_compute. reflexivity.
  - vm_compute. reflexivity.
Defined.

(** ** What every run keeps *)

Lemma main_stops_or_runs (sinf cosf : float -> float) (order : byte_order)
    (zfp : codec) (fs : filesystem) (args : list string) :
  (Forall (fun e => quiet e = true) (trace (main sinf cosf order zfp fs args)) /\
   (result (main sinf cosf order zfp fs args) = Ret 0 -> In "-h" args)) \/
  (exists o t out_name data dims,
     ~ In "-h" args /\
     parsed args initial_options o /\
     modes_accepted o = true /\
     acquire_volume sinf cosf order fs o = (t, Ret (Some (out_name, data, dims))) /\
     Forall (fun e => quiet e = true) t).
Proof.
  destruct (decide ("-h" ∈ args)) as [Hh|Hh]; rewrite list_elem_of_In in Hh.
  { left. unfold main.
    rewrite bool_decide_eq_true_2 by (rewrite list_elem_of_In; exact Hh).
    split; [repeat constructor|intros _; exact Hh]. }
  destruct (parse_args_cases (length args) args initial_options (le_n _))
    as [(o & Hrun & Hp)|[Hno Hq]].
  2:{ left. unfold main.
      rewrite bool_decide_eq_false_2 by (rewrite list_elem_of_In; exact Hh).
      unfold mbind, prog_mbind.
      destruct (parse_args args initial_options) as [t [[o|]| |]]; simpl in *.
      - destruct (Hno o eq_refl).
      - rewrite app_nil_r. split; [exact Hq|discriminate].
      - split; [exact Hq|discriminate].
      - split; [exact Hq|discriminate]. }
  destruct (modes_accepted o) eqn:Hmodes.
  2:{ left. unfold main.
      rewrite bool_decide_eq_false_2 by (rewrite list_elem_of_In; exact Hh).
      unfold mbind, prog_mbind. rewrite Hrun, prog_bind_nil.
      unfold modes_accepted in Hmodes.
      destruct (negb (raw_volume_mode o) && negb (gen_volume_mode o));
        [split; [repeat constructor|discriminate]|].
      destruct (raw_volume_mode o && gen_volume_mode o);
        [split; [repeat constructor|discriminate]|].
      destruct (gen_volume_mode o && uvec3_eqb (gen_dims o) (Uvec3 0 0 0));
        [split; [repeat constructor|discriminate]|].
      discriminate Hmodes. }
  pose proof (acquire_volume_quiet sinf cosf order fs o) as Hquiet.
  destruct (acquire_volume sinf cosf order fs o) as [t r] eqn:Hacq.
  destruct r as [[[[out_name data] dims]|]| |].
  - right. exists o, t, out_name, data, dims. repeat split; assumption.
  - left. unfold main.
    rewrite bool_decide_eq_false_2 by (rewrite list_elem_of_In; exact Hh).
    unfold mbind, prog_mbind. rewrite Hrun, prog_bind_nil.
    unfold modes_accepted in Hmodes.
    apply andb_true_iff in Hmodes as [Hmodes H3].
    apply andb_true_iff in Hmodes as [H1 H2].
    apply negb_true_iff in H1, H2, H3. rewrite H1, H2, H3, Hacq.
    simpl. rewrite app_nil_r. split; [exact Hquiet|discriminate].
  - left. unfold main.
    rewrite bool_decide_eq_false_2 by (rewrite list_elem_of_In; exact Hh).
    unfold mbind, prog_mbind. rewrite Hrun, prog_bind_nil.
    unfold modes_accepted in Hmodes.
    apply andb_true_iff in Hmodes as [Hmodes H3].
    apply andb_true_iff in Hmodes as [H1 H2].
    apply negb_true_iff in H1, H2, H3. rewrite H1, H2, H3, Hacq.
    split; [exact Hquiet|discriminate].
  - left. unfold main.
    rewrite bool_decide_eq_false_2 by (rewrite list_elem_of_In; exact Hh).
    unfold mbind, prog_mbind. rewrite Hrun, prog_bind_nil.
    unfold modes_accepted in Hmodes.
    apply andb_true_iff in Hmodes as [Hmodes H3].
    apply andb_true_iff in Hmodes as [H1 H2].
    apply negb_true_iff in H1, H2, H3. rewrite H1, H2, H3, Hacq.
    split; [exact Hquiet|discriminate].
Qed.

Lemma acquire_volume_cases (sinf cosf : float -> float) (order : byte_order)
    (fs : filesystem) (o : options) (t : list event) (out_name : string)
    (data : list float) (dims : uvec3) :
  acquire_volume sinf cosf order fs o = (t, Ret (Some (out_name, data, dims))) ->
  (raw_volume_mode o = true /\ out_name = raw_file_name o /\
   read_raw_volume order fs (raw_file_name o) [] (Uvec3 0 0 0)
     = (t, Ret (true, data, dims))) \/
  (raw_volume_mode o = false /\ dims = gen_dims o /\
   generate_volume sinf cosf (gen_mode_name o) (gen_dims o) []
     = (t, Ret (true, data))).
Proof.
  unfold acquire_volume, mbind, prog_mbind. destruct (raw_volume_mode o).
  - destruct (read_raw_volume _ _ _ _ _) as [t' [[[ok d] dm]| |]];
      simpl; try discriminate.
    destruct ok; simpl; [|discriminate].
    intros H. injection H as <- <- <- <-. rewrite app_nil_r.
    left. repeat split.
  - destruct (generate_volume _ _ _ _ _) as [t' [[ok d]| |]];
      simpl; try discriminate.
    destruct ok; simpl; [|discriminate].
    intros H. injection H as <- _ <- <-. rewrite app_nil_r.
    right. repeat split.
Qed.

Lemma read_raw_volume_length (order : byte_order) (fs : filesystem) (name : string)
    (data grid : list float) (dims0 dims : uvec3) (t : list event) :
  read_raw_volume order fs name data dims0 = (t, Ret (true, grid, dims)) ->
  length grid = Z.to_nat (size_mul (size_mul (ux dims) (uy dims)) (uz dims)).
Proof.
  unfold read_raw_volume, mbind, prog_mbind.
  destruct (parse_raw_file_name name) as [tp [[[dm ty]|]| |]];
    simpl; try discriminate.
  set (nv := size_mul (size_mul (ux dm) (uy dm)) (uz dm)).
  assert (Hres : length (vec_resize nv F32.zero data) = Z.to_nat nv)
    by apply length_resize.
  assert (Hloop : forall (body : Z -> list float -> outcome (list float)) d d',
            (forall i a b, body i a = Ret b -> length b = length a) ->
            length d = Z.to_nat nv ->
            for_loop nv body d = Ret d' -> length d' = Z.to_nat nv).
  { intros body d d' Hbody Hd.
    apply (for_loop_keeps (fun l => length l = Z.to_nat nv)); [|exact Hd].
    intros i a b Ha Hb. rewrite (Hbody i a b Hb). exact Ha. }
  destruct (bool_decide (ty ≠ "float32")).
  - destruct (bool_decide (ty = "uint8")); [|destruct (bool_decide (ty = "uint16"))].
    + unfold lift, prog_bind, emit, mret, prog_ret.
      destruct (for_loop nv _ _) as [d| |] eqn:Hrun; simpl; try discriminate.
      intros H. injection H as _ <- <-.
      refine (Hloop _ _ _ _ Hres Hrun). intros i a b. cbv beta.
      destruct (vec_load i _) as [v| |]; simpl; try discriminate.
      apply vec_store_length.
    + unfold lift, prog_bind, emit, mret, prog_ret.
      destruct (for_loop nv _ _) as [d| |] eqn:Hrun; simpl; try discriminate.
      intros H. injection H as _ <- <-.
      refine (Hloop _ _ _ _ Hres Hrun). intros i a b. cbv beta.
      destruct (load_uint16 order _ i) as [v| |]; simpl; try discriminate.
      apply vec_store_length.
    + simpl. intros H. injection H as _ <- <-. exact Hres.
  - simpl. intros H. injection H as _ <- <-.
    apply floats_of_bytes_length.
    rewrite ifstream_read_length; rewrite bytes_of_floats_length; [|lia].
    rewrite Hres. reflexivity.
Qed.

Lemma compress_and_save_cases (zfp : codec) (rate : Z) (out_name : string)
    (data : list float) (dims : uvec3) :
  let used := zfp_stream_set_rate zfp rate in
  let out := zfp_compress zfp used dims data
               (replicate (Z.to_nat (zfp_stream_maximum_size zfp used dims)) x00) in
  let payload := vec_resize (snd out) x00 (fst out) in
  compress_and_save zfp rate out_name data dims
    = ([CodecSetRate rate; Cout (MsgUsedRate used); Cout MsgNonIntegerRate], Ret 1) \/
  (exists k : Z,
     compress_and_save zfp rate out_name data dims
     = ([CodecSetRate rate; Cout (MsgUsedRate used); CodecCompress dims data;
         Cout (MsgCompressedSize (Z.of_nat (length payload)));
         FileCreate (out_name +:+ ".crate" +:+ pretty k +:+ ".zfp");
         FileWrite (out_name +:+ ".crate" +:+ pretty k +:+ ".zfp") payload],
        Ret 0)) \/
  compress_and_save zfp rate out_name data dims
    = ([CodecSetRate rate; Cout (MsgUsedRate used); CodecCompress dims data;
        Cout (MsgCompressedSize (Z.of_nat (length payload)))], Undefined).
Proof.
  intros used out payload.
  destruct (F32.neq (F32.floor used) used) eqn:Hneq.
  { left. apply compress_and_save_rejects, Hneq. }
  right. unfold compress_and_save. fold used. rewrite Hneq.
  unfold mbind, prog_mbind, mret, prog_ret.
  rewrite !prog_bind_emit. unfold payload, out.
  destruct (zfp_compress zfp used dims data _) as [buffer total].
  rewrite !prog_bind_emit. simpl fst. simpl snd.
  assert (Hint : (exists k, int_of_float used = Ret k) \/ int_of_float used = Undefined).
  { unfold int_of_float. destruct (F32.trunc used) as [v|]; [|right; reflexivity].
    destruct (bool_decide _); [left; eexists; reflexivity|right; reflexivity]. }
  destruct Hint as [[k ->]| ->].
  - left. exists k. reflexivity.
  - right. reflexivity.
Qed.

(** X16. Whatever the arguments, the files and the codec: a grid that
    [main] hands to the codec has as many values as the product, in
    [size_t], of the extents handed over with it. *)
Theorem codec_receives_whole_grid
    (sinf cosf : float -> float) (order : byte_order) (zfp : codec)
    (fs : filesystem) (args : list string) (dims : uvec3) (data : list float) :
  In (CodecCompress dims data) (trace (main sinf cosf order zfp fs args)) ->
  length data = Z.to_nat (size_mul (size_mul (ux dims) (uy dims)) (uz dims)).
Proof.
  intros Hin.
  destruct (main_stops_or_runs sinf cosf order zfp fs args)
    as [[Hq _]|(o & t & out_name & d & dm & Hh & Hp & Hmodes & Hacq & Hq)].
  { rewrite Forall_forall in Hq. apply list_elem_of_In in Hin.
    specialize (Hq _ Hin). discriminate Hq. }
  rewrite (main_run sinf cosf order zfp fs args o t out_name d dm Hh Hp Hmodes Hacq)
    in Hin.
  simpl in Hin. apply in_app_or in Hin as [Hin|[Hin|Hin]].
  - rewrite Forall_forall in Hq. apply list_elem_of_In in Hin.
    specialize (Hq _ Hin). discriminate Hq.
  - discriminate Hin.
  - assert (Heq : dims = dm /\ data = d).
    { destruct (compress_and_save_cases zfp (compression_rate o) out_name d dm)
        as [H|[[k H]|H]]; rewrite H in Hin; simpl in Hin;
        repeat (destruct Hin as [Hin|Hin];
                [first [discriminate Hin
                       |injection Hin as <- <-; split; reflexivity]|]);
        destruct Hin. }
    destruct Heq as [-> ->].
    destruct (acquire_volume_cases _ _ _ _ _ _ _ _ _ Hacq)
      as [(_ & _ & Hread)|(_ & -> & Hgen)].
    + exact (read_raw_volume_length _ _ _ _ _ _ _ _ Hread).
    + exact (generated_length _ _ _ _ _ _ _ _ Hgen).
Qed.

Lemma codec_receives_whole_grid_witness :
  length [F32.of_Z 7; F32.of_Z 255]
  = Z.to_nat (size_mul (size_mul (ux (Uvec3 2 1 1)) (uy (Uvec3 2 1 1)))
                       (uz (Uvec3 2 1 1))).
Proof.
  apply (codec_receives_whole_grid (fun x => x) (fun x => x) LittleEndian null_codec
           (fun _ => Some [x07; xff]) ["-crate"; "16"; "-raw"; "ct_2x1x1_uint8.raw"]).
  vm_compute. do 5 right. left. reflexivity.
Defined.

(** ** The output file *)

Lemma trace_bind {A B : Type} (P : event -> Prop) (m : M A) (f : A -> M B) :
  Forall P (trace m) ->
  (forall a, Forall P (trace (f a))) ->
  Forall P (trace (prog_bind m f)).
Proof.
  intros Hm Hf. destruct m as [t [a| |]]; simpl in *; try exact Hm.
  specialize (Hf a). destruct (f a) as [t' r]. simpl in *.
  apply Forall_app. split; assumption.
Qed.

Ltac opens_steps :=
  repeat first
    [ apply trace_bind; [|intros ?]
    | apply Forall_nil_2
    | apply Forall_cons_2;
        [first [reflexivity|apply bool_decide_eq_true_2, list_elem_of_here]|]
    | case_match ].

Lemma read_raw_volume_opens (order : byte_order) (fs : filesystem) (name : string)
    (data : list float) (dims : uvec3) :
  Forall (fun e => opens_within [name] e = true)
         (trace (read_raw_volume order fs name data dims)).
Proof.
  unfold read_raw_volume, parse_raw_file_name, mbind, prog_mbind, mret, prog_ret,
    emit, lift.
  opens_steps.
Qed.

Lemma generate_volume_opens (sinf cosf : float -> float) (name : string)
    (dims : uvec3) (data : list float) :
  Forall (fun e => opens_within [] e = true)
         (trace (generate_volume sinf cosf name dims data)).
Proof.
  unfold generate_volume, mbind, prog_mbind, mret, prog_ret, emit, lift.
  opens_steps.
Qed.

Lemma append_longer (s : string) (c : ascii) (r : string) :
  s +:+ String c r <> s.
Proof.
  intros H.
  assert (Hlen : forall a b, String.length (a +:+ b)
                             = (String.length a + String.length b)%nat).
  { intros a b. induction a as [|x a IH]; [reflexivity|].
    simpl. rewrite IH. reflexivity. }
  apply (f_equal String.length) in H. rewrite Hlen in H. simpl in H. lia.
Qed.

(** X17. Whatever the arguments, the files and the codec: a run in which
    a file is created or written is a run that returns 0 and ends with the
    creation and the writing of one file, named
    [<stem>.crate<rate>.zfp]; nothing is written before, and a file the
    run opened for reading is the stem, never the file written. *)
Theorem output_file_is_last_and_new
    (sinf cosf : float -> float) (order : byte_order) (zfp : codec)
    (fs : filesystem) (args : list string) (e : event) :
  In e (trace (main sinf cosf order zfp fs args)) ->
  file_output e = true ->
  exists (t : list event) (stem : string) (k : Z) (payload : list byte),
    main sinf cosf order zfp fs args
      = (t ++ [FileCreate (stem +:+ ".crate" +:+ pretty k +:+ ".zfp");
               FileWrite (stem +:+ ".crate" +:+ pretty k +:+ ".zfp") payload],
         Ret 0) /\
    Forall (fun e' => file_output e' = false) t /\
    forall a, In (FileOpen a) t ->
      a = stem /\ a <> stem +:+ ".crate" +:+ pretty k +:+ ".zfp".
Proof.
  intros Hin He.
  assert (Hquiet : forall e', quiet e' = true -> file_output e' = false)
    by (intros e'; destruct e'; simpl; congruence).
  destruct (main_stops_or_runs sinf cosf order zfp fs args)
    as [[Hq _]|(o & t & out_name & d & dm & Hh & Hp & Hmodes & Hacq & Hq)].
  { rewrite Forall_forall in Hq. apply list_elem_of_In in Hin.
    specialize (Hq _ Hin). rewrite (Hquiet _ Hq) in He. discriminate He. }
  rewrite (main_run sinf cosf order zfp fs args o t out_name d dm Hh Hp Hmodes Hacq)
    in Hin |- *.
  assert (Hopen : forall a, In (FileOpen a) t -> a = out_name).
  { intros a Ha. apply list_elem_of_In in Ha.
    destruct (acquire_volume_cases _ _ _ _ _ _ _ _ _ Hacq)
      as [(_ & -> & Hread)|(_ & _ & Hgen)].
    - pose proof (read_raw_volume_opens order fs (raw_file_name o) [] (Uvec3 0 0 0))
        as H.
      rewrite Hread in H. simpl in H. rewrite Forall_forall in H.
      specialize (H _ Ha). unfold opens_within in H.
      apply bool_decide_eq_true_1 in H. apply list_elem_of_In in H.
      destruct H as [H|[]]. congruence.
    - pose proof (generate_volume_opens sinf cosf (gen_mode_name o) (gen_dims o) [])
        as H.
      rewrite Hgen in H. simpl in H. rewrite Forall_forall in H.
      specialize (H _ Ha). unfold opens_within in H.
      apply bool_decide_eq_true_1 in H. apply list_elem_of_In in H. destruct H. }
  destruct (compress_and_save_cases zfp (compression_rate o) out_name d dm)
    as [H|[[k H]|H]]; rewrite H in Hin |- *; simpl trace in *; simpl result.
  - exfalso. apply in_app_or in Hin as [Hin|Hin].
    + rewrite Forall_forall in Hq. apply list_elem_of_In in Hin.
      specialize (Hq _ Hin). rewrite (Hquiet _ Hq) in He. discriminate He.
    + simpl in Hin.
      repeat (destruct Hin as [Hin|Hin]; [subst e; discriminate He|]).
      destruct Hin.
  - eexists (t ++ [_; _; _; _; _]), out_name, k, _.
    split; [rewrite <- app_assoc; reflexivity|]. split.
    + apply Forall_app. split.
      * eapply Forall_impl; [exact Hq|]. exact Hquiet.
      * repeat constructor.
    + intros a Ha. apply in_app_or in Ha as [Ha|Ha].
      * rewrite (Hopen a Ha). split; [reflexivity|].
        intros Heq. symmetry in Heq. revert Heq. apply append_longer.
      * simpl in Ha.
        repeat (destruct Ha as [Ha|Ha]; [discriminate Ha|]). destruct Ha.
  - exfalso. apply in_app_or in Hin as [Hin|Hin].
    + rewrite Forall_forall in Hq. apply list_elem_of_In in Hin.
      specialize (Hq _ Hin). rewrite (Hquiet _ Hq) in He. discriminate He.
    + simpl in Hin.
      repeat (destruct Hin as [Hin|Hin]; [subst e; discriminate He|]).
      destruct Hin.
Qed.

Lemma output_file_is_last_and_new_witness :
  exists (t : list event) (stem : string) (k : Z) (payload : list byte),
    main (fun x => x) (fun x => x) LittleEndian null_codec
         (fun _ => Some [x07; xff]) ["-crate"; "16"; "-raw"; "ct_2x1x1_uint8.raw"]
      = (t ++ [FileCreate (stem +:+ ".crate" +:+ pretty k +:+ ".zfp");
               FileWrite (stem +:+ ".crate" +:+ pretty k +:+ ".zfp") payload],
         Ret 0) /\
    Forall (fun e' => file_output e' = false) t /\
    forall a, In (FileOpen a) t ->
      a = stem /\ a <> stem +:+ ".crate" +:+ pretty k +:+ ".zfp".
Proof.
  apply (output_file_is_last_and_new (fun x => x) (fun x => x) LittleEndian
           null_codec (fun _ => Some [x07; xff])
           ["-crate"; "16"; "-raw"; "ct_2x1x1_uint8.raw"]
           (FileCreate "ct_2x1x1_uint8.raw.crate16.zfp")).
  - vm_compute. do 7 right. left. reflexivity.
  - reflexivity.
Defined.

(** X18. Whatever the arguments, the files and the codec: a run that
    returns 0 either was asked for the help, or went through the whole of
    [main]: it called the compression of the codec, and its last two
    actions are the construction of the output stream and the call of
    [write] on it. [main] does not test the stream, so that the status 0
    tells that the write was asked for, not that the file exists. *)
Theorem success_reaches_the_write
    (sinf cosf : float -> float) (order : byte_order) (zfp : codec)
    (fs : filesystem) (args : list string) :
  result (main sinf cosf order zfp fs args) = Ret 0 ->
  In "-h" args \/
  exists t dims data name payload,
    trace (main sinf cosf order zfp fs args)
      = t ++ [FileCreate name; FileWrite name payload] /\
    In (CodecCompress dims data) t.
Proof.
  intros Hres.
  destruct (main_stops_or_runs sinf cosf order zfp fs args)
    as [[_ Hh]|(o & t & out_name & d & dm & Hh & Hp & Hmodes & Hacq & Hq)].
  { left. exact (Hh Hres). }
  right.
  rewrite (main_run sinf cosf order zfp fs args o t out_name d dm Hh Hp Hmodes Hacq)
    in Hres |- *.
  destruct (compress_and_save_cases zfp (compression_rate o) out_name d dm)
    as [H|[[k H]|H]]; rewrite H in Hres |- *; simpl in Hres;
    try discriminate Hres.
  simpl trace.
  eexists (t ++ [_; _; _; _; _]), dm, d, _, _.
  split; [rewrite <- app_assoc; reflexivity|].
  apply in_or_app. right. do 3 right. left. reflexivity.
Qed.

Lemma success_reaches_the_write_witness :
  In "-h" ["-gen"; "plane_x"; "-dims"; "8"; "8"; "8"; "-crate"; "8"] \/
  exists t dims data name payload,
    trace (main (fun x => x) (fun x => x) LittleEndian null_codec (fun _ => None)
                ["-gen"; "plane_x"; "-dims"; "8"; "8"; "8"; "-crate"; "8"])
      = t ++ [FileCreate name; FileWrite name payload] /\
    In (CodecCompress dims data) t.
Proof.
  apply (success_reaches_the_write (fun x => x) (fun x => x) LittleEndian null_codec
           (fun _ => None)
           ["-gen"; "plane_x"; "-dims"; "8"; "8"; "8"; "-crate"; "8"]).
  vm_compute. reflexivity.
Defined.

(** ** Runs that return 1 *)

Lemma parse_args_none (n : nat) :
  forall args o t, (length args <= n)%nat ->
    parse_args args o = (t, Ret None) ->
    exists arg, In arg args /\ t = [Cout (MsgUnrecognizedArgument arg)].
Proof.
  induction n as [|n IH]; intros args o t Hlen.
  { destruct args; [discriminate|simpl in Hlen; lia]. }
  destruct args as [|arg rest]; [discriminate|].
  simpl in Hlen. cbn [parse_args]. unfold mbind, prog_mbind.
  assert (Hgo : forall rest' o',
            (length rest' <= n)%nat -> (forall a, In a rest' -> In a rest) ->
            parse_args rest' o' = (t, Ret None) ->
            exists a, In a (arg :: rest) /\ t = [Cout (MsgUnrecognizedArgument a)]).
  { intros rest' o' Hl Hsub Hrun.
    destruct (IH rest' o' t Hl Hrun) as (a & Ha & Ht).
    exists a. split; [right; apply Hsub, Ha|exact Ht]. }
  destruct (bool_decide (arg = "-crate")).
  { destruct rest as [|a rest]; [discriminate|].
    simpl next_arg. rewrite prog_bind_lift.
    destruct (stoi (String.list_ascii_of_string a)) as [rate|e|]; try discriminate.
    rewrite prog_bind_lift. apply Hgo; [simpl in Hlen; lia|].
    intros x Hx. right. exact Hx. }
  destruct (bool_decide (arg = "-raw")).
  { destruct rest as [|a rest]; [discriminate|].
    simpl next_arg. rewrite prog_bind_lift. apply Hgo; [simpl in Hlen; lia|].
    intros x Hx. right. exact Hx. }
  destruct (bool_decide (arg = "-gen")).
  { destruct rest as [|a rest]; [discriminate|].
    simpl next_arg. rewrite prog_bind_lift. apply Hgo; [simpl in Hlen; lia|].
    intros x Hx. right. exact Hx. }
  destruct (bool_decide (arg = "-dims")).
  { destruct rest as [|a rest]; [discriminate|].
    simpl next_arg. rewrite prog_bind_lift.
    destruct (stoul (String.list_ascii_of_string a)) as [x|e|]; try discriminate.
    rewrite prog_bind_lift. simpl tail.
    destruct rest as [|b rest]; [discriminate|].
    simpl next_arg. rewrite prog_bind_lift.
    destruct (stoul (String.list_ascii_of_string b)) as [y|e|]; try discriminate.
    rewrite prog_bind_lift. simpl tail.
    destruct rest as [|c rest]; [discriminate|].
    simpl next_arg. rewrite prog_bind_lift.
    destruct (stoul (String.list_ascii_of_string c)) as [z|e|]; try discriminate.
    rewrite prog_bind_lift. apply Hgo; [simpl in Hlen; lia|].
    intros x' Hx. do 3 right. exact Hx. }
  intros H. injection H as <-. exists arg. split; [left; reflexivity|reflexivity].
Qed.

(** X19. Whatever the arguments, the files and the codec: a run that
    returns 1 ends on a line of [std::cout] that tells why (the argument
    that is not recognized, the usage after the message on the modes, the
    failure to read or to generate, the rate that is not an integer), and
    neither creates nor writes a file. *)
Theorem failure_is_reported
    (sinf cosf : float -> float) (order : byte_order) (zfp : codec)
    (fs : filesystem) (args : list string) :
  result (main sinf cosf order zfp fs args) = Ret 1 ->
  exists t line,
    trace (main sinf cosf order zfp fs args) = t ++ [Cout line] /\
    failure_line line = true /\
    Forall (fun e => file_output e = false) t.
Proof.
  assert (Hquiet : forall t, Forall (fun e => quiet e = true) t ->
                             Forall (fun e => file_output e = false) t).
  { intros t Ht. eapply Forall_impl; [exact Ht|].
    intros e; destruct e; simpl; congruence. }
  unfold main. destruct (bool_decide ("-h" ∈ args)); [discriminate|].
  unfold mbind, prog_mbind.
  destruct (parse_args args initial_options) as [tp [[o|]| |]] eqn:Hparse;
    try discriminate.
  2:{ intros _.
      destruct (parse_args_none (length args) args initial_options tp (le_n _) Hparse)
        as (arg & _ & ->).
      exists [], (MsgUnrecognizedArgument arg). repeat split. constructor. }
  destruct (parse_args_parsed _ _ _ _ Hparse) as [-> _]. rewrite prog_bind_nil.
  destruct (negb (raw_volume_mode o) && negb (gen_volume_mode o)).
  { intros _. exists [Cout MsgModeRequired], MsgUsage. repeat constructor. }
  destruct (raw_volume_mode o && gen_volume_mode o).
  { intros _. exists [Cout MsgOnlyOneMode], MsgUsage. repeat constructor. }
  destruct (gen_volume_mode o && uvec3_eqb (gen_dims o) (Uvec3 0 0 0)).
  { intros _. exists [Cout MsgDimsRequired], MsgUsage. repeat constructor. }
  pose proof (acquire_volume_quiet sinf cosf order fs o) as Hq.
  destruct (acquire_volume sinf cosf order fs o)
    as [t [[[[out_name data] dims]|]| |]] eqn:Hacq; try discriminate.
  - unfold prog_bind at 1. rewrite prog_bind_emit.
    destruct (compress_and_save_cases zfp (compression_rate o) out_name data dims)
      as [H|[[k H]|H]]; rewrite H; simpl; try discriminate.
    intros _. rewrite H. simpl trace.
    exists (t ++ [Cout (MsgUncompressedSize (size_mul (Z.of_nat (length data)) 4));
                  CodecSetRate (compression_rate o);
                  Cout (MsgUsedRate (zfp_stream_set_rate zfp (compression_rate o)))]),
      MsgNonIntegerRate.
    split; [rewrite <- app_assoc; reflexivity|]. split; [reflexivity|].
    apply Forall_app. split; [apply Hquiet, Hq|repeat constructor].
  - intros _. simpl. rewrite app_nil_r.
    revert Hacq Hq. unfold acquire_volume, mbind, prog_mbind.
    destruct (raw_volume_mode o).
    + pose proof (read_raw_volume_quiet order fs (raw_file_name o) [] (Uvec3 0 0 0))
        as Hr.
      destruct (read_raw_volume _ _ _ _ _) as [t' [[[ok d] dm]| |]];
        simpl; try discriminate.
      destruct ok; simpl; [discriminate|].
      intros H _. injection H as <-.
      exists t', (MsgFailedToReadRaw (raw_file_name o)).
      split; [reflexivity|]. split; [reflexivity|]. apply Hquiet, Hr.
    + pose proof (generate_volume_quiet sinf cosf (gen_mode_name o) (gen_dims o) [])
        as Hg.
      destruct (generate_volume _ _ _ _ _) as [t' [[ok d]| |]];
        simpl; try discriminate.
      destruct ok; simpl; [discriminate|].
      intros H _. injection H as <-.
      exists t', MsgFailedToGenerate.
      split; [reflexivity|]. split; [reflexivity|]. apply Hquiet, Hg.
Qed.

Lemma failure_is_reported_witness :
  exists t line,
    trace (main (fun x => x) (fun x => x) LittleEndian null_codec (fun _ => None)
                ["-gen"; "cube"; "-dims"; "2"; "2"; "2"; "-crate"; "8"])
      = t ++ [Cout line] /\
    failure_line line = true /\
    Forall (fun e => file_output e = false) t.
Proof.
  apply (failure_is_reported (fun x => x) (fun x => x) LittleEndian null_codec
           (fun _ => None) ["-gen"; "cube"; "-dims"; "2"; "2"; "2"; "-crate"; "8"]).
  vm_compute. reflexivity.
Defined.
